(** * EDI 997 auto-validator: a shallow embedding of the core and its properties

    The development follows the repository layout:
    - [src/parser/delimiter_detector.py], [src/parser/tokenizer.py]
    - [src/models/segments.py], [src/models/validation.py],
      [src/models/reconciliation.py]
    - [src/utils/error_code_mapper.py], [src/validation/validator.py]
    - [src/utils/validation_pipeline.py]
    - [src/reconciliation/reconciler.py]

    Raw document text is a list of characters (code points below 256);
    the fields of typed records are strings; Python dictionaries are
    finite maps; exceptions are values of [Exception] carried by
    [Result]. *)

From stdpp Require Import base option list gmap strings.
From Stdlib Require Import Ascii String List Bool Arith ZArith Lia.
From Stdlib Require Import Sorting.Sorted Sorting.Permutation.
From Stdlib Require Import DecimalString.
Import ListNotations.

Local Open Scope nat_scope.
Local Open Scope list_scope.

(** ** Exceptions and results *)

(** The exception classes of [src/parser/exceptions.py] and the two
    built-in ones the core raises or catches.  Messages built from the
    offending input are not kept; [ValueError] keeps its fixed text. *)
Inductive Exception : Type :=
| DelimiterDetectionError
| InvalidISASegmentError
| TokenizationError
| FileSizeExceededError
| EmptyFileError
| MissingSegmentError
| IndexError
| ValueError (message : string).

Inductive Result (A : Type) : Type :=
| Ok (value : A)
| Raise (e : Exception).

Arguments Ok {A} value.
Arguments Raise {A} e.

Definition bind {A B : Type} (r : Result A) (k : A -> Result B) : Result B :=
  match r with
  | Ok a => k a
  | Raise e => Raise e
  end.

Notation "'do' x <- r 'in' k" := (bind r (fun x => k))
  (at level 10, x name, r at level 200, k at level 200).

(** [try: r except IndexError: handler] *)
Definition except_IndexError {A : Type} (r : Result A) (handler : Result A) : Result A :=
  match r with
  | Raise IndexError => handler
  | _ => r
  end.

Fixpoint mapM {A B : Type} (f : A -> Result B) (l : list A) : Result (list B) :=
  match l with
  | [] => Ok []
  | x :: rest => do y <- f x in do ys <- mapM f rest in Ok (y :: ys)
  end.

(** ** Python string built-ins used by the core *)

Module Py.

Definition text : Type := list ascii.

Definition lit (s : string) : text := list_ascii_of_string s.

Definition CR : ascii := ascii_of_nat 13.
Definition LF : ascii := ascii_of_nat 10.

(** [str.isspace] on one character: the code points 9-13, 28-32, 133
    and 160 are the whitespace below 256. *)
Definition isspace (c : ascii) : bool :=
  let n := nat_of_ascii c in
  ((9 <=? n) && (n <=? 13)) || ((28 <=? n) && (n <=? 32))
  || (n =? 133) || (n =? 160).

Fixpoint lstrip (s : text) : text :=
  match s with
  | [] => []
  | c :: rest => if isspace c then lstrip rest else s
  end.

Definition rstrip (s : text) : text := rev (lstrip (rev s)).

(** [s.strip()] *)
Definition strip (s : text) : text := rstrip (lstrip s).

(** Truth value of a string: [not s] is [is_empty s]. *)
Definition is_empty (s : text) : bool :=
  match s with
  | [] => true
  | _ :: _ => false
  end.

(** [s.startswith(prefix)] *)
Fixpoint startswith (s prefix : text) {struct prefix} : bool :=
  match prefix, s with
  | [], _ => true
  | _ :: _, [] => false
  | p :: prefix', c :: s' => Ascii.eqb c p && startswith s' prefix'
  end.

(** [c in s] for a one-character string [c] *)
Definition contains (c : ascii) (s : text) : bool :=
  existsb (Ascii.eqb c) s.

(** [s.split(sep)] for a one-character separator: one more piece than
    there are separators, never an empty list. *)
Fixpoint split (sep : ascii) (s : text) : list text :=
  match s with
  | [] => [[]]
  | c :: rest =>
      if Ascii.eqb c sep then [] :: split sep rest
      else match split sep rest with
           | piece :: pieces => (c :: piece) :: pieces
           | [] => [[c]]
           end
  end.

(** [s.replace(old, new)] for a non-empty [old]: the occurrences of
    [old] are found left to right without overlap; [skip] counts the
    remaining characters of the occurrence being replaced. *)
Fixpoint replace_from (old new : text) (skip : nat) (s : text) : text :=
  match s with
  | [] => []
  | c :: rest =>
      match skip with
      | S k => replace_from old new k rest
      | O =>
          if startswith s old
          then new ++ replace_from old new (length old - 1) rest
          else c :: replace_from old new 0 rest
      end
  end.

Definition replace (old new : text) (s : text) : text :=
  replace_from old new 0 s.

(** [s[i]] for [i >= 0], raising [IndexError] out of range *)
Definition getitem {A : Type} (s : list A) (i : nat) : Result A :=
  match nth_error s i with
  | Some c => Ok c
  | None => Raise IndexError
  end.

(** [s[-1]] *)
Definition getitem_last {A : Type} (s : list A) : Result A :=
  match rev s with
  | c :: _ => Ok c
  | [] => Raise IndexError
  end.

(** [len(set(l))] for a list of characters *)
Definition len_set (l : list ascii) : nat := length (nodup ascii_dec l).

(** One character of [str.upper]: the letters a-z, and the Latin-1
    letters whose capital is again below 256.  (The capitals of the
    code points 181, 223 and 255 lie outside this range and are no
    ASCII letter; they are left in place.) *)
Definition upper_char (c : ascii) : ascii :=
  let n := nat_of_ascii c in
  if ((97 <=? n) && (n <=? 122))
     || ((224 <=? n) && (n <=? 254) && negb (n =? 247))
  then ascii_of_nat (n - 32)
  else c.

(** [s.upper()] on a field value *)
Fixpoint upper (s : string) : string :=
  match s with
  | EmptyString => EmptyString
  | String c rest => String (upper_char c) (upper rest)
  end.

(** Truth value of an optional string field: set and not empty. *)
Definition truthy (o : option string) : bool :=
  match o with
  | Some s => negb (String.eqb s EmptyString)
  | None => false
  end.

(** [l.index(x)], raising [ValueError] when [x] is not in [l] *)
Fixpoint index {A : Type} `{EqDecision A} (x : A) (l : list A) : Result nat :=
  match l with
  | [] => Raise (ValueError "x is not in list")
  | y :: rest =>
      if decide (y = x) then Ok 0
      else do i <- index x rest in Ok (S i)
  end.

(** [sorted(keys)] on strings: insertion into an ordered list; on the
    distinct keys of a set every sort gives the same list. *)
Fixpoint insert_sorted (k : string) (l : list string) : list string :=
  match l with
  | [] => [k]
  | h :: rest => if String.leb k h then k :: l else h :: insert_sorted k rest
  end.

Fixpoint sorted (l : list string) : list string :=
  match l with
  | [] => []
  | k :: rest => insert_sorted k (sorted rest)
  end.

(** [l[i]] for any integer [i]: a negative index counts from the end. *)
Definition getitem_int {A : Type} (l : list A) (i : Z) : Result A :=
  if (0 <=? i)%Z then getitem l (Z.to_nat i)
  else if (- Z.of_nat (length l) <=? i)%Z
       then getitem l (Z.to_nat (Z.of_nat (length l) + i))
       else Raise IndexError.

(** [ord(c)] *)
Definition ord (c : ascii) : nat := nat_of_ascii c.

End Py.

Import Py.

(** ** src/models/config_schemas.py *)

(** Every separator of a [DelimitersConfig] is a string of length one
    ([min_length = max_length = 1]), hence a character. *)
Module DelimitersConfig.
Record t : Type := mk {
  element : ascii;
  segment : ascii;
  sub_element : ascii;
  repetition : ascii
}.
(** [DelimitersConfig()]: the field defaults *)
Definition default : t :=
  {| element := "*"%char; segment := "~"%char;
     sub_element := ":"%char; repetition := "^"%char |}.
End DelimitersConfig.

Module ParserConfig.
Record t : Type := mk {
  auto_detect_delimiters : bool;
  default_delimiters : DelimitersConfig.t;
  trim_whitespace : bool;
  preserve_line_breaks : bool;
  max_file_size_mb : Z
}.
(** [ParserConfig()]: the field defaults *)
Definition default : t :=
  {| auto_detect_delimiters := true;
     default_delimiters := DelimitersConfig.default;
     trim_whitespace := true;
     preserve_line_breaks := false;
     max_file_size_mb := 10%Z |}.
End ParserConfig.

(** ** src/parser/delimiter_detector.py *)

(** The separators are single characters, as detection and the
    configuration produce them; the repetition separator is optional. *)
Module Delimiters.
Record t : Type := mk {
  element : ascii;
  segment : ascii;
  sub_element : ascii;
  repetition : option ascii
}.
Definition from_config (config : DelimitersConfig.t) : t :=
  {| element := DelimitersConfig.element config;
     segment := DelimitersConfig.segment config;
     sub_element := DelimitersConfig.sub_element config;
     repetition := Some (DelimitersConfig.repetition config) |}.
(** [to_config]: [self.repetition or "^"] fills a missing repetition
    separator. *)
Definition to_config (self : t) : DelimitersConfig.t :=
  {| DelimitersConfig.element := element self;
     DelimitersConfig.segment := segment self;
     DelimitersConfig.sub_element := sub_element self;
     DelimitersConfig.repetition :=
       match repetition self with
       | Some r => r
       | None => "^"%char
       end |}.
End Delimiters.

Module DelimiterDetector.

Record t : Type := mk { default_delimiters : DelimitersConfig.t }.

(** [DelimiterDetector(default_delimiters)] *)
Definition init (default_delimiters : option DelimitersConfig.t) : t :=
  {| default_delimiters :=
       match default_delimiters with
       | Some d => d
       | None => DelimitersConfig.default
       end |}.

Definition ISA_PREFIX : text := lit "ISA".
Definition ISA_MIN_LENGTH : nat := 106.
Definition ELEMENT_SEPARATOR_POSITION : nat := 3.
Definition SUB_ELEMENT_SEPARATOR_POSITION : nat := 104.

Definition detect_from_isa (self : t) (isa_segment : text) : Result Delimiters.t :=
  if is_empty isa_segment then Raise InvalidISASegmentError
  else
    let isa_segment := strip isa_segment in
    if negb (startswith isa_segment ISA_PREFIX) then Raise InvalidISASegmentError
    else if length isa_segment <? ISA_MIN_LENGTH then Raise InvalidISASegmentError
    else
      except_IndexError
        (do element_separator <- getitem isa_segment ELEMENT_SEPARATOR_POSITION in
         do segment_terminator <- getitem_last isa_segment in
         do sub_element_separator <- getitem isa_segment SUB_ELEMENT_SEPARATOR_POSITION in
         let separators :=
           [element_separator; segment_terminator; sub_element_separator] in
         if negb (len_set separators =? length separators)
         then Raise DelimiterDetectionError
         else
           let repetition_separator := None in
           Ok {| Delimiters.element := element_separator;
                 Delimiters.segment := segment_terminator;
                 Delimiters.sub_element := sub_element_separator;
                 Delimiters.repetition := repetition_separator |})
        (Raise DelimiterDetectionError).

Definition common_terminators : list ascii := ["~"%char; "!"%char; "|"%char].

(** The [for terminator in common_terminators] loop with its [break]:
    the first common terminator present in the content bounds the
    header. *)
Fixpoint first_terminated (content : text) (terminators : list ascii) : option text :=
  match terminators with
  | [] => None
  | terminator :: rest =>
      if contains terminator content
      then Some (hd [] (split terminator content) ++ [terminator])
      else first_terminated content rest
  end.

Definition detect_from_file_content (self : t) (content : text) : Result Delimiters.t :=
  if is_empty content then Raise InvalidISASegmentError
  else
    let content := strip content in
    if negb (startswith content ISA_PREFIX) then Raise InvalidISASegmentError
    else
      let isa_segment := first_terminated content common_terminators in
      let isa_segment :=
        match isa_segment with
        | Some s => if is_empty s then None else Some s
        | None => None
        end in
      let isa_segment :=
        match isa_segment with
        | Some s => s
        | None =>
            if contains LF content then hd [] (split LF content)
            else firstn (ISA_MIN_LENGTH + 10) content
        end in
      detect_from_isa self isa_segment.

Definition use_default_delimiters (self : t) : Delimiters.t :=
  Delimiters.from_config (default_delimiters self).


(** [validate_delimiters]; the first test (every separator is one
    character) holds by the type of the separators. *)
Definition validate_delimiters (self : t) (delimiters : Delimiters.t) : bool :=
  let separators :=
    [Delimiters.element delimiters; Delimiters.segment delimiters;
     Delimiters.sub_element delimiters] in
  let separators :=
    match Delimiters.repetition delimiters with
    | Some r => separators ++ [r]
    | None => separators
    end in
  if negb (len_set separators =? length separators) then false
  else if negb (forallb (fun sep => (32 <=? ord sep) && (ord sep <=? 126)) separators)
  then false
  else true.

End DelimiterDetector.

(** ** src/parser/tokenizer.py *)

Module EDITokenizer.

Record t : Type := mk {
  config : ParserConfig.t;
  delimiter_detector : DelimiterDetector.t
}.

(** [EDITokenizer(config, delimiter_detector)] *)
Definition init (config : option ParserConfig.t)
    (delimiter_detector : option DelimiterDetector.t) : t :=
  let config :=
    match config with
    | Some c => c
    | None => ParserConfig.default
    end in
  {| config := config;
     delimiter_detector :=
       match delimiter_detector with
       | Some d => d
       | None =>
           DelimiterDetector.init (Some (ParserConfig.default_delimiters config))
       end |}.

(** The clean-up loop over the split pieces. *)
Fixpoint clean_segments (trim : bool) (segments : list text) : list text :=
  match segments with
  | [] => []
  | segment :: rest =>
      let segment := if trim then strip segment else segment in
      if is_empty segment then clean_segments trim rest
      else segment :: clean_segments trim rest
  end.

Definition remove_line_breaks (content : text) : text :=
  replace [CR] [] (replace [LF] [] (replace [CR; LF] [] content)).

Definition tokenize_content (self : t) (content : text)
    (delimiters : option Delimiters.t) : Result (list text) :=
  if is_empty content || is_empty (strip content) then Raise EmptyFileError
  else
    let delimiters :=
      match delimiters with
      | Some d => d
      | None =>
          if ParserConfig.auto_detect_delimiters (config self)
          then
            match DelimiterDetector.detect_from_file_content
                    (delimiter_detector self) content with
            | Ok d => d
            | Raise _ =>
                DelimiterDetector.use_default_delimiters (delimiter_detector self)
            end
          else DelimiterDetector.use_default_delimiters (delimiter_detector self)
      end in
    let content :=
      if negb (ParserConfig.preserve_line_breaks (config self))
      then remove_line_breaks content
      else content in
    let segments := split (Delimiters.segment delimiters) content in
    Ok (clean_segments (ParserConfig.trim_whitespace (config self)) segments).


(** [get_segment_count]: every exception of the tokenizer is caught. *)
Definition get_segment_count (self : t) (content : text) : nat :=
  match tokenize_content self content None with
  | Ok segments => length segments
  | Raise _ => 0
  end.

(** [extract_isa_segment]: the first segment that starts with ISA. *)
Definition extract_isa_segment (self : t) (content : text) : option text :=
  match tokenize_content self content None with
  | Ok segments => List.find (fun segment => startswith segment (lit "ISA")) segments
  | Raise _ => None
  end.

End EDITokenizer.

(** ** src/models/segments.py

    The typed segment records.  Field validation and normalisation
    happen when the parser constructs a record; the records here are
    the validated values the rest of the core receives. *)

Module ISASegment.
Record t : Type := mk {
  authorization_info_qualifier : string;
  authorization_info : string;
  security_info_qualifier : string;
  security_info : string;
  interchange_sender_qualifier : string;
  interchange_sender_id : string;
  interchange_receiver_qualifier : string;
  interchange_receiver_id : string;
  interchange_date : string;
  interchange_time : string;
  interchange_control_standards_id : string;
  interchange_control_version_number : string;
  interchange_control_number : string;
  acknowledgment_requested : string;
  test_indicator : string;
  sub_element_separator : string
}.
End ISASegment.

Module GSSegment.
Record t : Type := mk {
  functional_id_code : string;
  application_sender_code : string;
  application_receiver_code : string;
  date : string;
  time : string;
  group_control_number : string;
  responsible_agency_code : string;
  version_release_industry_id : string
}.
End GSSegment.

Module STSegment.
Record t : Type := mk {
  transaction_set_id : string;
  transaction_set_control_number : string;
  implementation_convention_reference : option string
}.
End STSegment.

Module AK1Segment.
Record t : Type := mk {
  functional_id_code : string;
  group_control_number : string;
  version_release_industry_id : option string
}.
End AK1Segment.

Module AK2Segment.
Record t : Type := mk {
  transaction_set_id : string;
  transaction_set_control_number : string;
  implementation_convention_reference : option string
}.
End AK2Segment.

Module AK3Segment.
Record t : Type := mk {
  segment_id : string;
  segment_position_in_transaction_set : Z;
  loop_identifier_code : option string;
  segment_syntax_error_code : option string
}.
End AK3Segment.

Module AK4Segment.
Record t : Type := mk {
  element_position_in_segment : Z;
  data_element_reference_number : option Z;
  data_element_syntax_error_code : string;
  copy_of_bad_data_element : option string
}.
End AK4Segment.

(** [[code for code in codes if code is not None]] *)
Definition not_None_codes (codes : list (option string)) : list string :=
  omap id codes.

Module AK5Segment.
Record t : Type := mk {
  transaction_set_ack_code : string;
  transaction_set_syntax_error_code_1 : option string;
  transaction_set_syntax_error_code_2 : option string;
  transaction_set_syntax_error_code_3 : option string;
  transaction_set_syntax_error_code_4 : option string;
  transaction_set_syntax_error_code_5 : option string
}.
Definition get_error_codes (self : t) : list string :=
  let codes :=
    [transaction_set_syntax_error_code_1 self;
     transaction_set_syntax_error_code_2 self;
     transaction_set_syntax_error_code_3 self;
     transaction_set_syntax_error_code_4 self;
     transaction_set_syntax_error_code_5 self] in
  not_None_codes codes.
End AK5Segment.

Module AK9Segment.
Record t : Type := mk {
  functional_group_ack_code : string;
  number_of_transaction_sets_included : Z;
  number_of_received_transaction_sets : Z;
  number_of_accepted_transaction_sets : Z;
  functional_group_syntax_error_code_1 : option string;
  functional_group_syntax_error_code_2 : option string;
  functional_group_syntax_error_code_3 : option string;
  functional_group_syntax_error_code_4 : option string;
  functional_group_syntax_error_code_5 : option string
}.
Definition get_error_codes (self : t) : list string :=
  let codes :=
    [functional_group_syntax_error_code_1 self;
     functional_group_syntax_error_code_2 self;
     functional_group_syntax_error_code_3 self;
     functional_group_syntax_error_code_4 self;
     functional_group_syntax_error_code_5 self] in
  not_None_codes codes.
End AK9Segment.

Module SESegment.
Record t : Type := mk {
  number_of_included_segments : Z;
  transaction_set_control_number : string
}.
End SESegment.

Module GESegment.
Record t : Type := mk {
  number_of_transaction_sets : Z;
  group_control_number : string
}.
End GESegment.

Module IEASegment.
Record t : Type := mk {
  number_of_included_groups : Z;
  interchange_control_number : string
}.
End IEASegment.

(** What [parse_segment_by_id] returns: one of the twelve record
    types; [isinstance] is a match on the constructor. *)
Inductive Segment : Type :=
| ISA (seg : ISASegment.t)
| GS (seg : GSSegment.t)
| ST (seg : STSegment.t)
| AK1 (seg : AK1Segment.t)
| AK2 (seg : AK2Segment.t)
| AK3 (seg : AK3Segment.t)
| AK4 (seg : AK4Segment.t)
| AK5 (seg : AK5Segment.t)
| AK9 (seg : AK9Segment.t)
| SE (seg : SESegment.t)
| GE (seg : GESegment.t)
| IEA (seg : IEASegment.t).

(** Model equality ([==]): same record type and equal fields. *)
#[global] Instance ISASegment_eq_dec : EqDecision ISASegment.t.
Proof. solve_decision. Defined.
#[global] Instance GSSegment_eq_dec : EqDecision GSSegment.t.
Proof. solve_decision. Defined.
#[global] Instance STSegment_eq_dec : EqDecision STSegment.t.
Proof. solve_decision. Defined.
#[global] Instance AK1Segment_eq_dec : EqDecision AK1Segment.t.
Proof. solve_decision. Defined.
#[global] Instance AK2Segment_eq_dec : EqDecision AK2Segment.t.
Proof. solve_decision. Defined.
#[global] Instance AK3Segment_eq_dec : EqDecision AK3Segment.t.
Proof. solve_decision. Defined.
#[global] Instance AK4Segment_eq_dec : EqDecision AK4Segment.t.
Proof. solve_decision. Defined.
#[global] Instance AK5Segment_eq_dec : EqDecision AK5Segment.t.
Proof. solve_decision. Defined.
#[global] Instance AK9Segment_eq_dec : EqDecision AK9Segment.t.
Proof. solve_decision. Defined.
#[global] Instance SESegment_eq_dec : EqDecision SESegment.t.
Proof. solve_decision. Defined.
#[global] Instance GESegment_eq_dec : EqDecision GESegment.t.
Proof. solve_decision. Defined.
#[global] Instance IEASegment_eq_dec : EqDecision IEASegment.t.
Proof. solve_decision. Defined.
#[global] Instance Segment_eq_dec : EqDecision Segment.
Proof. solve_decision. Defined.

(** ** Model construction

    Every model of [src/models] sets [str_strip_whitespace]: a [str]
    given for a field is stored with its leading and trailing
    whitespace removed.  A field copied from another model is trimmed
    already and is written as a plain copy; the trimming is written
    out where the core stores a text that it has formatted or looked
    up in the code tables.  The validation trims the characters with
    the Unicode property White_Space, which below 256 are the code
    points 9-13, 32, 133 and 160 (of the whitespace of [str.strip],
    the separators 28-31 stay). *)
Module Pydantic.

Definition is_whitespace (c : ascii) : bool :=
  let n := nat_of_ascii c in
  ((9 <=? n) && (n <=? 13)) || (n =? 32) || (n =? 133) || (n =? 160).

Fixpoint trim_start (s : text) : text :=
  match s with
  | [] => []
  | c :: rest => if is_whitespace c then trim_start rest else s
  end.

Definition trim (s : text) : text := rev (trim_start (rev (trim_start s))).

(** What a [str] field holds after validation. *)
Definition str_strip_whitespace (s : string) : string :=
  string_of_list_ascii (trim (list_ascii_of_string s)).

End Pydantic.

(** ** src/models/validation.py *)

Module TransactionStatus.
Inductive t : Type := ACCEPTED | PARTIALLY_ACCEPTED | REJECTED | UNKNOWN.
End TransactionStatus.

Module FunctionalGroupStatus.
Inductive t : Type := ACCEPTED | PARTIALLY_ACCEPTED | REJECTED | UNKNOWN.
#[global] Instance eq_dec : EqDecision t.
Proof. solve_decision. Defined.
End FunctionalGroupStatus.

Module ErrorSeverity.
Inductive t : Type := ERROR | WARNING | INFO.
End ErrorSeverity.

Module ErrorDetail.
Record t : Type := mk {
  segment_id : option string;
  segment_position : option Z;
  element_position : option Z;
  element_reference_number : option Z;
  error_code : string;
  error_description : string;
  severity : ErrorSeverity.t;
  bad_data_element : option string
}.
End ErrorDetail.

Module TransactionSetValidation.
Record t : Type := mk {
  transaction_set_id : string;
  transaction_control_number : string;
  status : TransactionStatus.t;
  ack_code : string;
  error_count : nat;
  errors : list ErrorDetail.t;
  syntax_error_codes : list string
}.
End TransactionSetValidation.

Module FunctionalGroupValidation.
Record t : Type := mk {
  functional_id_code : string;
  group_control_number : string;
  status : FunctionalGroupStatus.t;
  ack_code : string;
  transaction_sets_included : Z;
  transaction_sets_received : Z;
  transaction_sets_accepted : Z;
  transaction_validations : list TransactionSetValidation.t;
  group_syntax_error_codes : list string
}.
(** [sum(ts.error_count for ts in self.transaction_validations)] *)
Definition total_errors (self : t) : nat :=
  list_sum (map TransactionSetValidation.error_count (transaction_validations self)).
End FunctionalGroupValidation.

(** The [validation_timestamp] field (the clock at construction) is
    left out. *)
Module ValidationResult.
Record t : Type := mk {
  interchange_control_number : string;
  interchange_sender_id : string;
  interchange_receiver_id : string;
  functional_group : FunctionalGroupValidation.t;
  is_valid : bool
}.
End ValidationResult.

(** ** src/utils/error_code_mapper.py *)

Module ErrorCodeInfo.
Record t : Type := mk {
  code : string;
  description : string;
  severity : string;
  classification : option string
}.
End ErrorCodeInfo.

(** The code tables are loaded from [error_codes.yaml]; the mapper
    holds them as nested dictionaries: table name, then code, then
    field name. *)
Module ErrorCodeMapper.

Record t : Type := mk {
  _ak_codes : gmap string (gmap string (gmap string string))
}.

(** [d.get(key, {})] *)
Definition get_dict {V : Type} (d : gmap string (gmap string V)) (key : string)
    : gmap string V :=
  default ∅ (d !! key).

(** The shared body of the three syntax-error look-ups. *)
Definition lookup_error (self : t) (table : string) (unknown : string)
    (code : string) : ErrorCodeInfo.t :=
  let errors := get_dict (_ak_codes self) table in
  let error_data := get_dict errors code in
  if decide (error_data = ∅)
  then {| ErrorCodeInfo.code := code;
          ErrorCodeInfo.description := (unknown ++ code)%string;
          ErrorCodeInfo.severity := "error";
          ErrorCodeInfo.classification := None |}
  else {| ErrorCodeInfo.code := default code (error_data !! "code"%string);
          ErrorCodeInfo.description :=
            default "Unknown error"%string (error_data !! "description"%string);
          ErrorCodeInfo.severity :=
            default "error"%string (error_data !! "severity"%string);
          ErrorCodeInfo.classification := None |}.

Definition get_segment_error (self : t) (code : string) : ErrorCodeInfo.t :=
  lookup_error self "segment_syntax_errors" "Unknown segment syntax error: " code.

Definition get_element_error (self : t) (code : string) : ErrorCodeInfo.t :=
  lookup_error self "element_syntax_errors" "Unknown element syntax error: " code.

Definition get_transaction_set_error (self : t) (code : string) : ErrorCodeInfo.t :=
  lookup_error self "transaction_set_syntax_errors"
    "Unknown transaction set syntax error: " code.


(** The shared body of the two acknowledgment-code look-ups. *)
Definition lookup_ack (self : t) (table : string) (unknown : string)
    (code : string) : ErrorCodeInfo.t :=
  let ack_codes := get_dict (_ak_codes self) table in
  let ack_data := get_dict ack_codes code in
  if decide (ack_data = ∅)
  then {| ErrorCodeInfo.code := code;
          ErrorCodeInfo.description := (unknown ++ code)%string;
          ErrorCodeInfo.severity := "error";
          ErrorCodeInfo.classification := Some "unknown"%string |}
  else {| ErrorCodeInfo.code := default code (ack_data !! "code"%string);
          ErrorCodeInfo.description :=
            default "Unknown"%string (ack_data !! "description"%string);
          ErrorCodeInfo.severity :=
            default "error"%string (ack_data !! "severity"%string);
          ErrorCodeInfo.classification := ack_data !! "classification"%string |}.

Definition get_functional_group_ack (self : t) (code : string) : ErrorCodeInfo.t :=
  lookup_ack self "functional_group_ack_codes"
    "Unknown functional group ack code: " code.

Definition get_transaction_set_ack (self : t) (code : string) : ErrorCodeInfo.t :=
  lookup_ack self "transaction_set_ack_codes"
    "Unknown transaction set ack code: " code.

Definition is_accepted_code (self : t) (code : string) : bool :=
  let ack_info := get_transaction_set_ack self code in
  bool_decide (ErrorCodeInfo.classification ack_info = Some "accepted"%string).

Definition is_rejected_code (self : t) (code : string) : bool :=
  let ack_info := get_transaction_set_ack self code in
  bool_decide (ErrorCodeInfo.classification ack_info = Some "rejected"%string).

Definition is_partial_code (self : t) (code : string) : bool :=
  let ack_info := get_transaction_set_ack self code in
  bool_decide (ErrorCodeInfo.classification ack_info = Some "partial"%string).

End ErrorCodeMapper.

(** ** src/validation/validator.py *)

Module Validator997.

Record t : Type := mk { error_mapper : ErrorCodeMapper.t }.

Definition classify_transaction_status (self : t) (ack_code : string)
    : TransactionStatus.t :=
  let ack_code := upper ack_code in
  if String.eqb ack_code "A" then TransactionStatus.ACCEPTED
  else if existsb (String.eqb ack_code) ["E"; "P"]%string
  then TransactionStatus.PARTIALLY_ACCEPTED
  else if existsb (String.eqb ack_code) ["R"; "M"; "W"; "X"]%string
  then TransactionStatus.REJECTED
  else TransactionStatus.UNKNOWN.

Definition classify_functional_group_status (self : t) (ack_code : string)
    : FunctionalGroupStatus.t :=
  let ack_code := upper ack_code in
  if String.eqb ack_code "A" then FunctionalGroupStatus.ACCEPTED
  else if existsb (String.eqb ack_code) ["E"; "P"]%string
  then FunctionalGroupStatus.PARTIALLY_ACCEPTED
  else if String.eqb ack_code "R" then FunctionalGroupStatus.REJECTED
  else FunctionalGroupStatus.UNKNOWN.

(** The description comes from the code tables and is trimmed when the
    ErrorDetail is constructed; the other texts are copies of segment
    fields. *)
Definition build_error_detail_from_ak4 (self : t) (ak4 : AK4Segment.t)
    (ak3 : option AK3Segment.t) : ErrorDetail.t :=
  let error_info :=
    ErrorCodeMapper.get_element_error (error_mapper self)
      (AK4Segment.data_element_syntax_error_code ak4) in
  {| ErrorDetail.segment_id :=
       match ak3 with
       | Some a => Some (AK3Segment.segment_id a)
       | None => None
       end;
     ErrorDetail.segment_position :=
       match ak3 with
       | Some a => Some (AK3Segment.segment_position_in_transaction_set a)
       | None => None
       end;
     ErrorDetail.element_position := Some (AK4Segment.element_position_in_segment ak4);
     ErrorDetail.element_reference_number :=
       AK4Segment.data_element_reference_number ak4;
     ErrorDetail.error_code := AK4Segment.data_element_syntax_error_code ak4;
     ErrorDetail.error_description :=
       Pydantic.str_strip_whitespace (ErrorCodeInfo.description error_info);
     ErrorDetail.severity := ErrorSeverity.ERROR;
     ErrorDetail.bad_data_element := AK4Segment.copy_of_bad_data_element ak4 |}.

Definition build_error_detail_from_ak3 (self : t) (ak3 : AK3Segment.t)
    : ErrorDetail.t :=
  let error_code :=
    if truthy (AK3Segment.segment_syntax_error_code ak3)
    then default "8"%string (AK3Segment.segment_syntax_error_code ak3)
    else "8"%string in
  let error_info :=
    ErrorCodeMapper.get_segment_error (error_mapper self) error_code in
  {| ErrorDetail.segment_id := Some (AK3Segment.segment_id ak3);
     ErrorDetail.segment_position :=
       Some (AK3Segment.segment_position_in_transaction_set ak3);
     ErrorDetail.element_position := None;
     ErrorDetail.element_reference_number := None;
     ErrorDetail.error_code := error_code;
     ErrorDetail.error_description :=
       Pydantic.str_strip_whitespace (ErrorCodeInfo.description error_info);
     ErrorDetail.severity := ErrorSeverity.ERROR;
     ErrorDetail.bad_data_element := None |}.

(** [ak3_segments[-1] if ak3_segments else None] *)
Fixpoint last_or_None {A : Type} (l : list A) : option A :=
  match l with
  | [] => None
  | [x] => Some x
  | _ :: rest => last_or_None rest
  end.

Definition validate_transaction_set (self : t) (ak2 : AK2Segment.t)
    (ak5 : AK5Segment.t) (ak3_segments : list AK3Segment.t)
    (ak4_segments : list AK4Segment.t) : TransactionSetValidation.t :=
  let status :=
    classify_transaction_status self (AK5Segment.transaction_set_ack_code ak5) in
  let errors : list ErrorDetail.t := [] in
  (* for ak3 in ak3_segments *)
  let errors :=
    fold_left
      (fun errors ak3 =>
         if truthy (AK3Segment.segment_syntax_error_code ak3)
         then errors ++ [build_error_detail_from_ak3 self ak3]
         else errors)
      ak3_segments errors in
  let current_ak3 := last_or_None ak3_segments in
  (* for ak4 in ak4_segments *)
  let errors :=
    fold_left
      (fun errors ak4 => errors ++ [build_error_detail_from_ak4 self ak4 current_ak3])
      ak4_segments errors in
  let syntax_error_codes := AK5Segment.get_error_codes ak5 in
  (* for error_code in syntax_error_codes *)
  let errors :=
    fold_left
      (fun errors error_code =>
         let error_info :=
           ErrorCodeMapper.get_transaction_set_error (error_mapper self) error_code in
         errors ++
         [{| ErrorDetail.segment_id := None;
             ErrorDetail.segment_position := None;
             ErrorDetail.element_position := None;
             ErrorDetail.element_reference_number := None;
             ErrorDetail.error_code := error_code;
             ErrorDetail.error_description :=
               Pydantic.str_strip_whitespace (ErrorCodeInfo.description error_info);
             ErrorDetail.severity := ErrorSeverity.ERROR;
             ErrorDetail.bad_data_element := None |}])
      syntax_error_codes errors in
  {| TransactionSetValidation.transaction_set_id := AK2Segment.transaction_set_id ak2;
     TransactionSetValidation.transaction_control_number :=
       AK2Segment.transaction_set_control_number ak2;
     TransactionSetValidation.status := status;
     TransactionSetValidation.ack_code := AK5Segment.transaction_set_ack_code ak5;
     TransactionSetValidation.error_count := length errors;
     TransactionSetValidation.errors := errors;
     TransactionSetValidation.syntax_error_codes := syntax_error_codes |}.

Definition validate_functional_group (self : t) (ak1 : AK1Segment.t)
    (ak9 : AK9Segment.t) (transaction_validations : list TransactionSetValidation.t)
    : FunctionalGroupValidation.t :=
  let status :=
    classify_functional_group_status self (AK9Segment.functional_group_ack_code ak9) in
  let group_syntax_error_codes := AK9Segment.get_error_codes ak9 in
  {| FunctionalGroupValidation.functional_id_code := AK1Segment.functional_id_code ak1;
     FunctionalGroupValidation.group_control_number :=
       AK1Segment.group_control_number ak1;
     FunctionalGroupValidation.status := status;
     FunctionalGroupValidation.ack_code := AK9Segment.functional_group_ack_code ak9;
     FunctionalGroupValidation.transaction_sets_included :=
       AK9Segment.number_of_transaction_sets_included ak9;
     FunctionalGroupValidation.transaction_sets_received :=
       AK9Segment.number_of_received_transaction_sets ak9;
     FunctionalGroupValidation.transaction_sets_accepted :=
       AK9Segment.number_of_accepted_transaction_sets ak9;
     FunctionalGroupValidation.transaction_validations := transaction_validations;
     FunctionalGroupValidation.group_syntax_error_codes := group_syntax_error_codes |}.

Definition validate_997 (self : t) (isa : ISASegment.t) (ak1 : AK1Segment.t)
    (ak9 : AK9Segment.t) (transaction_validations : list TransactionSetValidation.t)
    : ValidationResult.t :=
  let fg_validation :=
    validate_functional_group self ak1 ak9 transaction_validations in
  let is_valid :=
    bool_decide (FunctionalGroupValidation.status fg_validation
                 = FunctionalGroupStatus.ACCEPTED) in
  {| ValidationResult.interchange_control_number :=
       ISASegment.interchange_control_number isa;
     ValidationResult.interchange_sender_id := ISASegment.interchange_sender_id isa;
     ValidationResult.interchange_receiver_id := ISASegment.interchange_receiver_id isa;
     ValidationResult.functional_group := fg_validation;
     ValidationResult.is_valid := is_valid |}.

End Validator997.

(** ** src/utils/validation_pipeline.py *)

Module ValidationPipeline.

(** [next((s for s in segments if isinstance(s, AK5Segment)), None)] *)
Fixpoint next_AK5 (segments : list Segment) : option AK5Segment.t :=
  match segments with
  | [] => None
  | AK5 s :: _ => Some s
  | _ :: rest => next_AK5 rest
  end.

Section Loop.

(** The loop calls [validator.validate_transaction_set]; it is written
    over that method so that the calls themselves can be observed. *)
Context {V : Type}.
Variable validate_transaction_set :
  AK2Segment.t -> AK5Segment.t -> list AK3Segment.t -> list AK4Segment.t -> V.

(** The local variables of [run_validation_pipeline] that the loop
    over [parsed_segments] reads and assigns. *)
Record Locals : Type := mkLocals {
  isa : option ISASegment.t;
  ak1 : option AK1Segment.t;
  ak9 : option AK9Segment.t;
  transaction_validations : list V;
  current_ak2 : option AK2Segment.t;
  current_ak3_segments : list AK3Segment.t;
  current_ak4_segments : list AK4Segment.t
}.

Definition initial : Locals :=
  {| isa := None; ak1 := None; ak9 := None;
     transaction_validations := [];
     current_ak2 := None;
     current_ak3_segments := [];
     current_ak4_segments := [] |}.

(** One iteration of [for seg in parsed_segments]. *)
Definition loop_body (parsed_segments : list Segment) (st : Locals)
    (seg : Segment) : Result Locals :=
  match seg with
  | ISA s =>
      Ok {| isa := Some s; ak1 := ak1 st; ak9 := ak9 st;
            transaction_validations := transaction_validations st;
            current_ak2 := current_ak2 st;
            current_ak3_segments := current_ak3_segments st;
            current_ak4_segments := current_ak4_segments st |}
  | AK1 s =>
      Ok {| isa := isa st; ak1 := Some s; ak9 := ak9 st;
            transaction_validations := transaction_validations st;
            current_ak2 := current_ak2 st;
            current_ak3_segments := current_ak3_segments st;
            current_ak4_segments := current_ak4_segments st |}
  | AK2 s =>
      do transaction_validations' <-
        match current_ak2 st with
        | Some open_ak2 =>
            do i <- index (AK2 open_ak2) parsed_segments in
            let ak5 := next_AK5 (skipn i parsed_segments) in
            match ak5 with
            | Some ak5 =>
                let ts_validation :=
                  validate_transaction_set open_ak2 ak5
                    (current_ak3_segments st) (current_ak4_segments st) in
                Ok (transaction_validations st ++ [ts_validation])
            | None => Ok (transaction_validations st)
            end
        | None => Ok (transaction_validations st)
        end in
      Ok {| isa := isa st; ak1 := ak1 st; ak9 := ak9 st;
            transaction_validations := transaction_validations';
            current_ak2 := Some s;
            current_ak3_segments := [];
            current_ak4_segments := [] |}
  | AK3 s =>
      Ok {| isa := isa st; ak1 := ak1 st; ak9 := ak9 st;
            transaction_validations := transaction_validations st;
            current_ak2 := current_ak2 st;
            current_ak3_segments := current_ak3_segments st ++ [s];
            current_ak4_segments := current_ak4_segments st |}
  | AK4 s =>
      Ok {| isa := isa st; ak1 := ak1 st; ak9 := ak9 st;
            transaction_validations := transaction_validations st;
            current_ak2 := current_ak2 st;
            current_ak3_segments := current_ak3_segments st;
            current_ak4_segments := current_ak4_segments st ++ [s] |}
  | AK5 s =>
      match current_ak2 st with
      | Some open_ak2 =>
          let ts_validation :=
            validate_transaction_set open_ak2 s
              (current_ak3_segments st) (current_ak4_segments st) in
          Ok {| isa := isa st; ak1 := ak1 st; ak9 := ak9 st;
                transaction_validations :=
                  transaction_validations st ++ [ts_validation];
                current_ak2 := None;
                current_ak3_segments := [];
                current_ak4_segments := [] |}
      | None => Ok st
      end
  | AK9 s =>
      Ok {| isa := isa st; ak1 := ak1 st; ak9 := Some s;
            transaction_validations := transaction_validations st;
            current_ak2 := current_ak2 st;
            current_ak3_segments := current_ak3_segments st;
            current_ak4_segments := current_ak4_segments st |}
  | GS _ | ST _ | SE _ | GE _ | IEA _ => Ok st
  end.

(** [for seg in remaining: ...], with [parsed_segments] the whole list
    the look-ahead reads. *)
Fixpoint loop (parsed_segments : list Segment) (st : Locals)
    (remaining : list Segment) : Result Locals :=
  match remaining with
  | [] => Ok st
  | seg :: rest =>
      do st' <- loop_body parsed_segments st seg in
      loop parsed_segments st' rest
  end.

Definition scan (parsed_segments : list Segment) : Result Locals :=
  loop parsed_segments initial parsed_segments.

End Loop.

Arguments Locals V : clear implicits.

(** One call of [validate_transaction_set], as the loop makes it. *)
Record Call : Type := mkCall {
  call_ak2 : AK2Segment.t;
  call_ak5 : AK5Segment.t;
  call_ak3_segments : list AK3Segment.t;
  call_ak4_segments : list AK4Segment.t
}.

(** The calls of [validate_transaction_set] made on a segment list, in
    order. *)
Definition finalizations (parsed_segments : list Segment) : Result (list Call) :=
  do st <- scan mkCall parsed_segments in Ok (transaction_validations st).

Definition missing_required_segments : Exception :=
  ValueError "Missing required segments (ISA, AK1, or AK9)".

(** The pipeline from the parsed segments on: the loop, the check of
    the three anchors, and [validate_997]. *)
Definition validate_parsed_segments (validator : Validator997.t)
    (parsed_segments : list Segment) : Result ValidationResult.t :=
  do st <- scan (Validator997.validate_transaction_set validator) parsed_segments in
  match isa st, ak1 st, ak9 st with
  | Some isa, Some ak1, Some ak9 =>
      Ok (Validator997.validate_997 validator isa ak1 ak9
            (transaction_validations st))
  | _, _, _ => Raise missing_required_segments
  end.

Section Pipeline.

(** [SegmentParser(delimiters).parse_segment_by_id] rests on the model
    library's field validation and is taken as given, as are the
    loaded code tables. *)
Variable parse_segment_by_id : Delimiters.t -> text -> Result Segment.
Variable error_mapper : ErrorCodeMapper.t.

Definition run_validation_pipeline (content : text) : Result ValidationResult.t :=
  let delimiter_detector := DelimiterDetector.init None in
  do delimiters <-
    DelimiterDetector.detect_from_file_content delimiter_detector content in
  let tokenizer := EDITokenizer.init None None in
  let validator := Validator997.mk error_mapper in
  do segments <- EDITokenizer.tokenize_content tokenizer content (Some delimiters) in
  do parsed_segments <-
    mapM (parse_segment_by_id delimiters)
      (filter (fun segment => negb (is_empty (strip segment))) segments) in
  validate_parsed_segments validator parsed_segments.

End Pipeline.

End ValidationPipeline.

(** ** src/models/reconciliation.py *)

Module ReconciliationStatus.
Inductive t : Type := MATCHED | MISSING_ACK | UNEXPECTED_ACK | CONTROL_NUMBER_MISMATCH.
#[global] Instance eq_dec : EqDecision t.
Proof. solve_decision. Defined.
End ReconciliationStatus.

Module OutboundTransaction.
Record t : Type := mk {
  transaction_set_id : string;
  transaction_control_number : string;
  group_control_number : string;
  functional_id_code : string
}.
End OutboundTransaction.

Module OutboundFunctionalGroup.
Record t : Type := mk {
  functional_id_code : string;
  group_control_number : string;
  transactions : list OutboundTransaction.t
}.
End OutboundFunctionalGroup.

Module TransactionReconciliation.
Record t : Type := mk {
  outbound_transaction : option OutboundTransaction.t;
  acknowledgment : option TransactionSetValidation.t;
  status : ReconciliationStatus.t;
  mismatch_reason : option string
}.
Definition is_matched (self : t) : bool :=
  bool_decide (status self = ReconciliationStatus.MATCHED).
Definition control_number (self : t) : option string :=
  match outbound_transaction self with
  | Some o => Some (OutboundTransaction.transaction_control_number o)
  | None =>
      match acknowledgment self with
      | Some a => Some (TransactionSetValidation.transaction_control_number a)
      | None => None
      end
  end.
End TransactionReconciliation.

Module FunctionalGroupReconciliation.
Record t : Type := mk {
  outbound_group : option OutboundFunctionalGroup.t;
  group_control_number : string;
  functional_id_code : string;
  transaction_reconciliations : list TransactionReconciliation.t
}.
(** [sum(1 for tr in ... if cond(tr))] *)
Definition count_if (cond : TransactionReconciliation.t -> bool)
    (l : list TransactionReconciliation.t) : nat :=
  list_sum (map (fun _ => 1) (filter cond l)).
Definition matched_count (self : t) : nat :=
  count_if TransactionReconciliation.is_matched (transaction_reconciliations self).
Definition missing_ack_count (self : t) : nat :=
  count_if
    (fun tr => bool_decide (TransactionReconciliation.status tr
                            = ReconciliationStatus.MISSING_ACK))
    (transaction_reconciliations self).
Definition unexpected_ack_count (self : t) : nat :=
  count_if
    (fun tr => bool_decide (TransactionReconciliation.status tr
                            = ReconciliationStatus.UNEXPECTED_ACK))
    (transaction_reconciliations self).
Definition total_count (self : t) : nat :=
  length (transaction_reconciliations self).
Definition is_fully_reconciled (self : t) : bool :=
  (0 <? total_count self) && (matched_count self =? total_count self).
End FunctionalGroupReconciliation.

Module ReconciliationResult.
Record t : Type := mk {
  functional_group_reconciliation : FunctionalGroupReconciliation.t;
  is_fully_reconciled : bool;
  summary : string
}.
End ReconciliationResult.

(** ** src/reconciliation/reconciler.py *)

Module Reconciler.

(** [{key(tx): tx for tx in l}]: a later entry replaces an earlier one
    with the same key. *)
Definition dict_by {A : Type} (key : A -> string) (l : list A) : gmap string A :=
  fold_left (fun d tx => <[key tx := tx]> d) l ∅.

Definition both_none : Exception :=
  ValueError "Both outbound_tx and ack_tx are None".

(** The reason is formatted here and trimmed when the
    TransactionReconciliation is constructed. *)
Definition reconcile_transaction (outbound_tx : option OutboundTransaction.t)
    (ack_tx : option TransactionSetValidation.t) : Result TransactionReconciliation.t :=
  match outbound_tx, ack_tx with
  | Some o, Some a =>
      if negb (String.eqb (OutboundTransaction.transaction_set_id o)
                 (TransactionSetValidation.transaction_set_id a))
      then
        Ok {| TransactionReconciliation.outbound_transaction := outbound_tx;
              TransactionReconciliation.acknowledgment := ack_tx;
              TransactionReconciliation.status :=
                ReconciliationStatus.CONTROL_NUMBER_MISMATCH;
              TransactionReconciliation.mismatch_reason :=
                Some (Pydantic.str_strip_whitespace
                        ("Transaction set ID mismatch: expected "
                         ++ OutboundTransaction.transaction_set_id o
                         ++ ", got "
                         ++ TransactionSetValidation.transaction_set_id a)%string) |}
      else
        Ok {| TransactionReconciliation.outbound_transaction := outbound_tx;
              TransactionReconciliation.acknowledgment := ack_tx;
              TransactionReconciliation.status := ReconciliationStatus.MATCHED;
              TransactionReconciliation.mismatch_reason := None |}
  | Some o, None =>
      Ok {| TransactionReconciliation.outbound_transaction := outbound_tx;
            TransactionReconciliation.acknowledgment := None;
            TransactionReconciliation.status := ReconciliationStatus.MISSING_ACK;
            TransactionReconciliation.mismatch_reason :=
              Some (Pydantic.str_strip_whitespace
                      ("No acknowledgment received for transaction "
                       ++ OutboundTransaction.transaction_control_number o)%string) |}
  | None, Some a =>
      Ok {| TransactionReconciliation.outbound_transaction := None;
            TransactionReconciliation.acknowledgment := ack_tx;
            TransactionReconciliation.status := ReconciliationStatus.UNEXPECTED_ACK;
            TransactionReconciliation.mismatch_reason :=
              Some (Pydantic.str_strip_whitespace
                      ("Unexpected acknowledgment for transaction "
                       ++ TransactionSetValidation.transaction_control_number a)%string) |}
  | None, None => Raise both_none
  end.

Definition reconcile_functional_group (fg_validation : FunctionalGroupValidation.t)
    (outbound_group : OutboundFunctionalGroup.t)
    : Result FunctionalGroupReconciliation.t :=
  let outbound_map :=
    dict_by OutboundTransaction.transaction_control_number
      (OutboundFunctionalGroup.transactions outbound_group) in
  let ack_map :=
    dict_by TransactionSetValidation.transaction_control_number
      (FunctionalGroupValidation.transaction_validations fg_validation) in
  let all_control_numbers : gset string := dom outbound_map ∪ dom ack_map in
  (* for control_number in sorted(all_control_numbers) *)
  do transaction_reconciliations <-
    mapM
      (fun control_number =>
         let outbound_tx := outbound_map !! control_number in
         let ack_tx := ack_map !! control_number in
         reconcile_transaction outbound_tx ack_tx)
      (sorted (elements all_control_numbers)) in
  Ok {| FunctionalGroupReconciliation.outbound_group := Some outbound_group;
        FunctionalGroupReconciliation.group_control_number :=
          FunctionalGroupValidation.group_control_number fg_validation;
        FunctionalGroupReconciliation.functional_id_code :=
          FunctionalGroupValidation.functional_id_code fg_validation;
        FunctionalGroupReconciliation.transaction_reconciliations :=
          transaction_reconciliations |}.

(** [str(n)] for a count *)
Definition str_of_nat (n : nat) : string := NilZero.string_of_uint (Nat.to_uint n).

(** [", ".join(parts)] *)
Fixpoint join (sep : string) (parts : list string) : string :=
  match parts with
  | [] => EmptyString
  | [part] => part
  | part :: rest => (part ++ sep ++ join sep rest)%string
  end.

Definition _build_summary (fg_reconciliation : FunctionalGroupReconciliation.t)
    : string :=
  let matched := FunctionalGroupReconciliation.matched_count fg_reconciliation in
  let total := FunctionalGroupReconciliation.total_count fg_reconciliation in
  let missing := FunctionalGroupReconciliation.missing_ack_count fg_reconciliation in
  let unexpected :=
    FunctionalGroupReconciliation.unexpected_ack_count fg_reconciliation in
  let parts :=
    [(str_of_nat matched ++ "/" ++ str_of_nat total ++ " transactions matched")%string] in
  let parts :=
    if 0 <? missing
    then parts ++ [(str_of_nat missing ++ " missing acknowledgments")%string]
    else parts in
  let parts :=
    if 0 <? unexpected
    then parts ++ [(str_of_nat unexpected ++ " unexpected acknowledgments")%string]
    else parts in
  join ", " parts.

(** The summary is formatted by [_build_summary] and trimmed when the
    ReconciliationResult is constructed. *)
Definition reconcile (validation_result : ValidationResult.t)
    (outbound_group : OutboundFunctionalGroup.t) : Result ReconciliationResult.t :=
  let fg_validation := ValidationResult.functional_group validation_result in
  do fg_reconciliation <- reconcile_functional_group fg_validation outbound_group in
  let summary := _build_summary fg_reconciliation in
  let is_fully_reconciled :=
    FunctionalGroupReconciliation.is_fully_reconciled fg_reconciliation in
  Ok {| ReconciliationResult.functional_group_reconciliation := fg_reconciliation;
        ReconciliationResult.is_fully_reconciled := is_fully_reconciled;
        ReconciliationResult.summary := Pydantic.str_strip_whitespace summary |}.

End Reconciler.

(** ** src/parser/element_parser.py *)

Module ElementParser.

Record t : Type := mk { delimiters : Delimiters.t }.

Definition split_segment (self : t) (segment : text) : list text :=
  if is_empty segment then []
  else split (Delimiters.element (delimiters self)) segment.

Definition get_element (self : t) (elements : list text) (position : Z)
    (required : bool) (default : option text) : Result (option text) :=
  if (Z.of_nat (length elements) <=? position)%Z
  then if required then Raise TokenizationError else Ok default
  else
    do element <- getitem_int elements position in
    let value := if is_empty element then [] else element in
    if is_empty value && required then Raise TokenizationError
    else Ok (if is_empty value then default else Some value).

Definition parse_segment_id (self : t) (segment : text) : Result text :=
  let elements := split_segment self segment in
  match elements with
  | [] => Raise TokenizationError
  | first :: _ =>
      let segment_id := strip first in
      if is_empty segment_id then Raise TokenizationError
      else Ok segment_id
  end.

Definition validate_segment_id (self : t) (segment : text) (expected_id : text)
    : Result unit :=
  do actual_id <- parse_segment_id self segment in
  if decide (actual_id = expected_id) then Ok tt
  else Raise TokenizationError.

Definition get_element_count (self : t) (segment : text) : nat :=
  length (split_segment self segment).

Definition split_composite_element (self : t) (element : text) : list text :=
  if is_empty element
     || negb (contains (Delimiters.sub_element (delimiters self)) element)
  then if is_empty element then [] else [element]
  else split (Delimiters.sub_element (delimiters self)) element.

Definition split_repeating_element (self : t) (element : text) : list text :=
  match Delimiters.repetition (delimiters self) with
  | None => if is_empty element then [] else [element]
  | Some repetition =>
      if is_empty element then []
      else if negb (contains repetition element) then [element]
      else split repetition element
  end.

End ElementParser.

(** ** src/parser/segment_parser.py *)

Module SegmentParser.

(** The twelve model classes a segment is parsed into. *)
Inductive SegmentType : Type :=
| ISASegmentT | GSSegmentT | STSegmentT | AK1SegmentT | AK2SegmentT
| AK3SegmentT | AK4SegmentT | AK5SegmentT | AK9SegmentT | SESegmentT
| GESegmentT | IEASegmentT.

Definition segment_type_map : list (text * SegmentType) :=
  [(lit "ISA", ISASegmentT); (lit "GS", GSSegmentT); (lit "ST", STSegmentT);
   (lit "AK1", AK1SegmentT); (lit "AK2", AK2SegmentT); (lit "AK3", AK3SegmentT);
   (lit "AK4", AK4SegmentT); (lit "AK5", AK5SegmentT); (lit "AK9", AK9SegmentT);
   (lit "SE", SESegmentT); (lit "GE", GESegmentT); (lit "IEA", IEASegmentT)].

(** [d.get(key)] on a dictionary written as its items (distinct keys) *)
Fixpoint dict_get {V : Type} (d : list (text * V)) (key : text) : option V :=
  match d with
  | [] => None
  | (k, v) :: rest => if decide (k = key) then Some v else dict_get rest key
  end.

Record t : Type := mk {
  delimiters : Delimiters.t;
  element_parser : ElementParser.t
}.

(** [SegmentParser(delimiters)] *)
Definition init (delimiters : Delimiters.t) : t :=
  {| delimiters := delimiters; element_parser := ElementParser.mk delimiters |}.

Section Parse.

(** The twelve [_parse_*] methods build the model records and rest on
    the model library's validation; they are taken as one function of
    the segment type and the elements, free to raise any exception. *)
Variable parser_func : SegmentType -> list text -> Result Segment.

Definition parse_segment (self : t) (segment : text) (segment_type : SegmentType)
    : Result Segment :=
  let elements := ElementParser.split_segment (element_parser self) segment in
  match parser_func segment_type elements with
  | Ok parsed => Ok parsed
  | Raise _ => Raise TokenizationError
  end.

Definition parse_segment_by_id (self : t) (segment : text) : Result Segment :=
  do segment_id <- ElementParser.parse_segment_id (element_parser self) segment in
  match dict_get segment_type_map segment_id with
  | None => Raise TokenizationError
  | Some segment_type => parse_segment self segment segment_type
  end.

End Parse.

End SegmentParser.

(** * Properties *)

(** ** Facts about the string built-ins *)

Section PyFacts.

Lemma lstrip_nil_iff (s : text) : lstrip s = [] <-> forallb isspace s = true.
Proof.
  induction s as [|c s IH]; simpl; [tauto|].
  destruct (isspace c) eqn:E; simpl; [exact IH|].
  split; intros H; discriminate H.
Qed.

Lemma lstrip_head (s : text) (c : ascii) (r : text) :
  lstrip s = c :: r -> isspace c = false.
Proof.
  induction s as [|x s IH]; simpl; [discriminate|].
  destruct (isspace x) eqn:E; [exact IH|].
  intros H; injection H as -> _; exact E.
Qed.

Lemma forallb_rev {A : Type} (p : A -> bool) (l : list A) :
  forallb p (rev l) = forallb p l.
Proof.
  induction l as [|x l IH]; simpl; [reflexivity|].
  rewrite forallb_app, IH; simpl.
  rewrite andb_true_r; apply andb_comm.
Qed.

Lemma strip_nil_iff (s : text) : strip s = [] <-> forallb isspace s = true.
Proof.
  unfold strip, rstrip; split.
  - intros H.
    apply (f_equal (@rev ascii)) in H; rewrite rev_involutive in H; simpl in H.
    apply lstrip_nil_iff in H; rewrite forallb_rev in H.
    destruct (lstrip s) as [|c r] eqn:E; [apply lstrip_nil_iff; exact E|].
    apply lstrip_head in E; simpl in H; rewrite E in H; discriminate H.
  - intros H; apply lstrip_nil_iff in H; rewrite H; reflexivity.
Qed.

Lemma is_empty_true (s : text) : is_empty s = true <-> s = [].
Proof. destruct s; simpl; split; congruence. Qed.

Lemma is_empty_strip (s : text) : is_empty (strip s) = forallb isspace s.
Proof.
  destruct (forallb isspace s) eqn:E.
  - apply is_empty_true, strip_nil_iff; exact E.
  - destruct (is_empty (strip s)) eqn:F; [|reflexivity].
    apply is_empty_true, strip_nil_iff in F; congruence.
Qed.

Lemma In_lstrip (c : ascii) (s : text) : In c (lstrip s) -> In c s.
Proof.
  induction s as [|x s IH]; simpl; [tauto|].
  destruct (isspace x); simpl; tauto.
Qed.

Lemma In_strip (c : ascii) (s : text) : In c (strip s) -> In c s.
Proof.
  unfold strip, rstrip; intros H.
  apply in_rev, In_lstrip in H; apply in_rev in H.
  apply In_lstrip; exact H.
Qed.

Lemma split_not_nil (sep : ascii) (s : text) : split sep s <> [].
Proof.
  destruct s as [|c s]; simpl; [discriminate|].
  destruct (Ascii.eqb c sep); [discriminate|].
  destruct (split sep s); discriminate.
Qed.

Lemma split_no_sep (sep : ascii) (s : text) :
  Forall (fun piece => ~ In sep piece) (split sep s).
Proof.
  induction s as [|c s IH]; simpl.
  - constructor; [simpl; tauto|constructor].
  - destruct (Ascii.eqb_spec c sep) as [->|Hne].
    + constructor; [simpl; tauto|exact IH].
    + destruct (split sep s) as [|piece pieces]; [repeat constructor; simpl; intuition|].
      inversion IH as [|? ? Hp Hps]; subst.
      constructor; [simpl; intuition|exact Hps].
Qed.

(** Replacing a one-character string by nothing drops that character. *)
Lemma replace_char (x : ascii) (s : text) :
  replace [x] [] s = filter (fun c => negb (Ascii.eqb c x)) s.
Proof.
  unfold replace.
  induction s as [|c s IH]; simpl; [reflexivity|].
  rewrite andb_true_r.
  destruct (Ascii.eqb c x); simpl; rewrite IH; reflexivity.
Qed.

Definition not_line_break (c : ascii) : bool :=
  negb (Ascii.eqb c CR) && negb (Ascii.eqb c LF).

(** Replacing the two-character string CR LF only drops line-break
    characters. *)
Lemma replace_crlf (n : nat) (s : text) :
  length s <= n ->
  filter not_line_break (replace [CR; LF] [] s) = filter not_line_break s.
Proof.
  unfold replace; revert s.
  induction n as [|n IH]; intros s Hlen.
  - destruct s; [reflexivity|simpl in Hlen; lia].
  - destruct s as [|c s]; [reflexivity|].
    simpl in Hlen.
    cbn [replace_from].
    destruct (startswith (c :: s) [CR; LF]) eqn:E.
    + destruct s as [|d s]; [simpl in E; rewrite andb_false_r in E; discriminate|].
      simpl in E. rewrite andb_true_r in E.
      apply andb_prop in E as [Ec Ed].
      apply Ascii.eqb_eq in Ec, Ed; subst c d.
      simpl. rewrite IH by (simpl in Hlen; lia).
      reflexivity.
    + simpl. rewrite IH by lia. reflexivity.
Qed.

Lemma remove_line_breaks_filter (content : text) :
  EDITokenizer.remove_line_breaks content = filter not_line_break content.
Proof.
  unfold EDITokenizer.remove_line_breaks.
  rewrite !replace_char.
  rewrite <- (replace_crlf (length content) content) by lia.
  generalize (replace [CR; LF] [] content) as r.
  induction r as [|c r IH]; simpl; [reflexivity|].
  unfold not_line_break at 1.
  destruct (Ascii.eqb c LF); simpl.
  - rewrite andb_false_r; exact IH.
  - rewrite andb_true_r.
    destruct (Ascii.eqb c CR); simpl; rewrite IH; reflexivity.
Qed.

End PyFacts.

(** ** Facts about the trimming of stored texts *)

Section ModelConstruction.

Local Open Scope string_scope.
Local Open Scope list_scope.

Lemma trim_start_suffix (l : text) : exists p, l = p ++ Pydantic.trim_start l.
Proof.
  induction l as [|c l (p & IH)]; [exists []; reflexivity|].
  cbn [Pydantic.trim_start]. destruct (Pydantic.is_whitespace c).
  - exists (c :: p). cbn [app]. rewrite <- IH. reflexivity.
  - exists []. reflexivity.
Qed.

Lemma trim_start_length (l : text) : length (Pydantic.trim_start l) <= length l.
Proof.
  destruct (trim_start_suffix l) as (p & Hp).
  rewrite Hp at 2. rewrite length_app. lia.
Qed.

(** A text that begins and ends with a character that is no
    whitespace is stored as it is. *)
Lemma trim_kept (l : text) (first last : ascii) (middle back : text) :
  l = first :: middle -> rev l = last :: back ->
  Pydantic.is_whitespace first = false -> Pydantic.is_whitespace last = false ->
  Pydantic.trim l = l.
Proof.
  intros Hl Hr Hf Hb. unfold Pydantic.trim.
  assert (Pydantic.trim_start l = l) as ->
    by (rewrite Hl; cbn [Pydantic.trim_start]; rewrite Hf; reflexivity).
  assert (Pydantic.trim_start (rev l) = rev l) as ->
    by (rewrite Hr; cbn [Pydantic.trim_start]; rewrite Hb; reflexivity).
  apply rev_involutive.
Qed.

(** A stored text that is not empty ends with a character that is no
    whitespace. *)
Lemma trim_fixed_last (l : text) :
  Pydantic.trim l = l -> l <> [] ->
  exists last back, rev l = last :: back /\ Pydantic.is_whitespace last = false.
Proof.
  intros Hfix Hne.
  destruct (rev l) as [|last back] eqn:Hrev.
  { apply (f_equal (@rev ascii)) in Hrev. rewrite rev_involutive in Hrev.
    contradiction. }
  exists last, back. split; [reflexivity|].
  destruct (Pydantic.is_whitespace last) eqn:Hws; [exfalso|reflexivity].
  destruct (trim_start_suffix l) as (p & Hp).
  assert (Hlen : length (Pydantic.trim l) < length l); [|rewrite Hfix in Hlen; lia].
  unfold Pydantic.trim. rewrite length_rev.
  destruct (Pydantic.trim_start l) as [|c z] eqn:Hz.
  - cbn. destruct l; [contradiction|cbn; lia].
  - assert (Hhead : exists tail, rev (c :: z) = last :: tail).
    { rewrite Hp, rev_app_distr in Hrev.
      destruct (rev (c :: z)) as [|c' tail] eqn:Hcz.
      - apply (f_equal (@length ascii)) in Hcz.
        rewrite length_rev in Hcz. discriminate Hcz.
      - cbn [app] in Hrev. injection Hrev as -> _. eauto. }
    destruct Hhead as (tail & Htail). rewrite Htail.
    cbn [Pydantic.trim_start]. rewrite Hws.
    pose proof (trim_start_length tail) as Hle.
    apply (f_equal (@length ascii)) in Htail. rewrite length_rev in Htail.
    cbn [length] in Htail.
    rewrite Hp, length_app. cbn [length]. lia.
Qed.

Lemma list_ascii_of_string_app (s1 s2 : string) :
  list_ascii_of_string (s1 ++ s2)%string
  = list_ascii_of_string s1 ++ list_ascii_of_string s2.
Proof.
  induction s1 as [|c s1 IH]; [reflexivity|].
  change (c :: list_ascii_of_string (s1 ++ s2)%string
          = c :: (list_ascii_of_string s1 ++ list_ascii_of_string s2)).
  rewrite IH. reflexivity.
Qed.

(** A formatted text that begins with a character that is no
    whitespace and ends with a stored, non-empty value is stored
    whole. *)
Lemma formatted_text_kept (first : ascii) (prefix value : string) :
  Pydantic.is_whitespace first = false ->
  value <> EmptyString ->
  Pydantic.str_strip_whitespace value = value ->
  Pydantic.str_strip_whitespace (String first prefix ++ value)
  = (String first prefix ++ value)%string.
Proof.
  intros Hfirst Hne Hstored.
  assert (Hfix : Pydantic.trim (list_ascii_of_string value)
                 = list_ascii_of_string value).
  { unfold Pydantic.str_strip_whitespace in Hstored.
    apply (f_equal list_ascii_of_string) in Hstored.
    rewrite list_ascii_of_string_of_list_ascii in Hstored. exact Hstored. }
  destruct (trim_fixed_last _ Hfix) as (last & back & Hrev & Hlast).
  { intros Hnil. apply Hne. rewrite <- (string_of_list_ascii_of_string value), Hnil.
    reflexivity. }
  unfold Pydantic.str_strip_whitespace.
  rewrite (trim_kept _ first last
             (list_ascii_of_string prefix ++ list_ascii_of_string value)
             (back ++ rev (list_ascii_of_string (String first prefix)))).
  - apply string_of_list_ascii_of_string.
  - rewrite list_ascii_of_string_app. reflexivity.
  - rewrite list_ascii_of_string_app, rev_app_distr, Hrev. reflexivity.
  - exact Hfirst.
  - exact Hlast.
Qed.

End ModelConstruction.

(** ** Delimiter detection *)

Section DelimiterDetection.

Lemma getitem_nth {A : Type} (s : list A) (i : nat) (d : A) :
  i < length s -> getitem s i = Ok (nth i s d).
Proof.
  intros H; unfold getitem.
  rewrite (nth_error_nth' s d H); reflexivity.
Qed.

Lemma getitem_last_last {A : Type} (s : list A) (d : A) :
  s <> [] -> getitem_last s = Ok (List.last s d).
Proof.
  intros H; unfold getitem_last.
  destruct (exists_last H) as (l & x & ->).
  rewrite rev_app_distr, last_last; reflexivity.
Qed.

Lemma len_set_three (e s b : ascii) :
  len_set [e; s; b] = 3 <-> e <> s /\ e <> b /\ s <> b.
Proof.
  unfold len_set; simpl.
  repeat (destruct (ascii_dec _ _); simpl); subst; split; intros H;
    try discriminate H; try (destruct H as (? & ? & ?); congruence);
    try tauto; repeat split; congruence.
Qed.

Example detect_minimal_isa :
  DelimiterDetector.detect_from_isa (DelimiterDetector.init None)
    (lit "ISA*00*          *00*          *ZZ*SENDER         *ZZ*RECEIVER       *230101*1200*U*00401*000000001*0*P*>~")
  = Ok {| Delimiters.element := "*"%char; Delimiters.segment := "~"%char;
          Delimiters.sub_element := ">"%char; Delimiters.repetition := None |}.
Proof. vm_compute; reflexivity. Qed.

Example detect_too_short :
  DelimiterDetector.detect_from_isa (DelimiterDetector.init None)
    (lit "ISA*00*TEST~")
  = Raise InvalidISASegmentError.
Proof. vm_compute; reflexivity. Qed.

Example detect_non_unique :
  DelimiterDetector.detect_from_isa (DelimiterDetector.init None)
    (lit "ISA*00*          *00*          *ZZ*SENDER         *ZZ*RECEIVER       *230101*1200*U*00401*000000001*0*P*~~")
  = Raise DelimiterDetectionError.
Proof. vm_compute; reflexivity. Qed.

(** C7. For a header that, once trimmed, starts with ISA, has at least
    106 characters and whose characters at offset 3, at offset 104 and
    at the last position are pairwise distinct, [detect_from_isa]
    returns exactly these three separators and no repetition
    separator; without the ISA prefix or below 106 characters it
    raises [InvalidISASegmentError]; for a well-formed header with two
    equal separators it raises [DelimiterDetectionError]. *)
Theorem detect_from_isa_spec (self : DelimiterDetector.t) (header : text) :
  let trimmed := strip header in
  let e := nth 3 trimmed Ascii.zero in
  let b := nth 104 trimmed Ascii.zero in
  let s := List.last trimmed Ascii.zero in
  (startswith trimmed (lit "ISA") = true /\ 106 <= length trimmed
   /\ e <> s /\ e <> b /\ s <> b ->
   DelimiterDetector.detect_from_isa self header
   = Ok {| Delimiters.element := e; Delimiters.segment := s;
           Delimiters.sub_element := b; Delimiters.repetition := None |})
  /\ (startswith trimmed (lit "ISA") = false \/ length trimmed < 106 ->
      DelimiterDetector.detect_from_isa self header = Raise InvalidISASegmentError)
  /\ (startswith trimmed (lit "ISA") = true /\ 106 <= length trimmed
      /\ (e = s \/ e = b \/ s = b) ->
      DelimiterDetector.detect_from_isa self header = Raise DelimiterDetectionError).
Proof.
  intros trimmed e b s.
  assert (Hwell : startswith trimmed (lit "ISA") = true -> 106 <= length trimmed ->
    DelimiterDetector.detect_from_isa self header
    = if negb (len_set [e; s; b] =? 3) then Raise DelimiterDetectionError
      else Ok {| Delimiters.element := e; Delimiters.segment := s;
                 Delimiters.sub_element := b; Delimiters.repetition := None |}).
  { intros Hp Hl. unfold DelimiterDetector.detect_from_isa.
    destruct header as [|c header]; [simpl in Hl; lia|].
    cbn [is_empty]. fold trimmed.
    change DelimiterDetector.ISA_PREFIX with (lit "ISA"). rewrite Hp.
    cbn [negb].
    destruct (Nat.ltb_spec (length trimmed) DelimiterDetector.ISA_MIN_LENGTH) as [Hlt|_];
      [unfold DelimiterDetector.ISA_MIN_LENGTH in Hlt; lia|].
    unfold DelimiterDetector.ELEMENT_SEPARATOR_POSITION,
      DelimiterDetector.SUB_ELEMENT_SEPARATOR_POSITION.
    rewrite (getitem_nth trimmed 3 Ascii.zero) by lia.
    rewrite (getitem_nth trimmed 104 Ascii.zero) by lia.
    rewrite (getitem_last_last trimmed Ascii.zero)
      by (intros E; rewrite E in Hl; simpl in Hl; lia).
    cbn [bind length]. fold e b s.
    destruct (negb (len_set [e; s; b] =? 3)); reflexivity. }
  split; [|split].
  - intros (Hp & Hl & Hes & Heb & Hsb).
    rewrite (Hwell Hp Hl).
    assert (len_set [e; s; b] = 3) as -> by (apply len_set_three; tauto).
    reflexivity.
  - intros H. unfold DelimiterDetector.detect_from_isa.
    destruct header as [|c header]; [reflexivity|].
    cbn [is_empty]. fold trimmed.
    change DelimiterDetector.ISA_PREFIX with (lit "ISA").
    destruct (startswith trimmed (lit "ISA")) eqn:Hp; [|reflexivity].
    destruct H as [H|H]; [discriminate H|].
    cbn [negb].
    destruct (Nat.ltb_spec (length trimmed) DelimiterDetector.ISA_MIN_LENGTH) as [_|Hge];
      [reflexivity|unfold DelimiterDetector.ISA_MIN_LENGTH in Hge; lia].
  - intros (Hp & Hl & Heq).
    rewrite (Hwell Hp Hl).
    destruct (Nat.eqb_spec (len_set [e; s; b]) 3) as [E|_]; [|reflexivity].
    apply len_set_three in E. exfalso. intuition congruence.
Qed.

End DelimiterDetection.

(** ** Status classification *)

Section Classification.

Local Open Scope string_scope.

Lemma upper_one_char (code : string) (c : ascii) :
  upper code = String c EmptyString ->
  exists c', code = String c' EmptyString /\ upper_char c' = c.
Proof.
  destruct code as [|c' [|d rest]]; simpl; intros H; try discriminate H.
  injection H as H; eauto.
Qed.

Ltac upper_char_cases c :=
  destruct c as [[] [] [] [] [] [] [] []]; vm_compute; intros H;
  first [discriminate H | left; reflexivity | right; reflexivity].

Lemma upper_char_A (c : ascii) : upper_char c = "A"%char -> c = "A"%char \/ c = "a"%char.
Proof. upper_char_cases c. Qed.
Lemma upper_char_E (c : ascii) : upper_char c = "E"%char -> c = "E"%char \/ c = "e"%char.
Proof. upper_char_cases c. Qed.
Lemma upper_char_P (c : ascii) : upper_char c = "P"%char -> c = "P"%char \/ c = "p"%char.
Proof. upper_char_cases c. Qed.
Lemma upper_char_R (c : ascii) : upper_char c = "R"%char -> c = "R"%char \/ c = "r"%char.
Proof. upper_char_cases c. Qed.
Lemma upper_char_M (c : ascii) : upper_char c = "M"%char -> c = "M"%char \/ c = "m"%char.
Proof. upper_char_cases c. Qed.
Lemma upper_char_W (c : ascii) : upper_char c = "W"%char -> c = "W"%char \/ c = "w"%char.
Proof. upper_char_cases c. Qed.
Lemma upper_char_X (c : ascii) : upper_char c = "X"%char -> c = "X"%char \/ c = "x"%char.
Proof. upper_char_cases c. Qed.

(** The codes that reach one of the compared letters, in either case. *)
Definition known_codes : list string :=
  ["A"; "a"; "E"; "e"; "P"; "p"; "R"; "r"; "M"; "m"; "W"; "w"; "X"; "x"].

Lemma upper_known (code : string) (c : ascii) :
  In c ["A"; "E"; "P"; "R"; "M"; "W"; "X"]%char ->
  upper code = String c EmptyString -> In code known_codes.
Proof.
  intros Hc Hu.
  destruct (upper_one_char code c Hu) as (c' & -> & Hc').
  simpl in Hc.
  destruct Hc as [<-|[<-|[<-|[<-|[<-|[<-|[<-|[]]]]]]]].
  - apply upper_char_A in Hc' as [->| ->]; simpl; tauto.
  - apply upper_char_E in Hc' as [->| ->]; simpl; tauto.
  - apply upper_char_P in Hc' as [->| ->]; simpl; tauto.
  - apply upper_char_R in Hc' as [->| ->]; simpl; tauto.
  - apply upper_char_M in Hc' as [->| ->]; simpl; tauto.
  - apply upper_char_W in Hc' as [->| ->]; simpl; tauto.
  - apply upper_char_X in Hc' as [->| ->]; simpl; tauto.
Qed.

(** C3, as the code has it.  Both classifiers ignore case and never
    fail; A gives ACCEPTED, E and P give PARTIALLY_ACCEPTED and R gives
    REJECTED at both levels; M, W and X give REJECTED for a transaction
    set but UNKNOWN for a functional group; every other code gives
    UNKNOWN at both levels. *)
Theorem classification_by_code (self : Validator997.t) (code : string) :
  (In code ["A"; "a"] ->
     Validator997.classify_transaction_status self code = TransactionStatus.ACCEPTED
     /\ Validator997.classify_functional_group_status self code
        = FunctionalGroupStatus.ACCEPTED)
  /\ (In code ["E"; "e"; "P"; "p"] ->
     Validator997.classify_transaction_status self code
       = TransactionStatus.PARTIALLY_ACCEPTED
     /\ Validator997.classify_functional_group_status self code
        = FunctionalGroupStatus.PARTIALLY_ACCEPTED)
  /\ (In code ["R"; "r"] ->
     Validator997.classify_transaction_status self code = TransactionStatus.REJECTED
     /\ Validator997.classify_functional_group_status self code
        = FunctionalGroupStatus.REJECTED)
  /\ (In code ["M"; "m"; "W"; "w"; "X"; "x"] ->
     Validator997.classify_transaction_status self code = TransactionStatus.REJECTED
     /\ Validator997.classify_functional_group_status self code
        = FunctionalGroupStatus.UNKNOWN)
  /\ (~ In code known_codes ->
     Validator997.classify_transaction_status self code = TransactionStatus.UNKNOWN
     /\ Validator997.classify_functional_group_status self code
        = FunctionalGroupStatus.UNKNOWN).
Proof.
  split; [|split; [|split; [|split]]]; intros H.
  1-4: simpl in H; repeat (destruct H as [<-|H]; [split; reflexivity|]);
    destruct H.
  split.
  - unfold Validator997.classify_transaction_status.
    destruct (String.eqb_spec (upper code) "A") as [E|_].
    { exfalso; apply H, (upper_known code "A"%char); simpl; tauto. }
    cbn [existsb].
    destruct (String.eqb_spec (upper code) "E") as [E|_].
    { exfalso; apply H, (upper_known code "E"%char); simpl; tauto. }
    destruct (String.eqb_spec (upper code) "P") as [E|_].
    { exfalso; apply H, (upper_known code "P"%char); simpl; tauto. }
    destruct (String.eqb_spec (upper code) "R") as [E|_].
    { exfalso; apply H, (upper_known code "R"%char); simpl; tauto. }
    destruct (String.eqb_spec (upper code) "M") as [E|_].
    { exfalso; apply H, (upper_known code "M"%char); simpl; tauto. }
    destruct (String.eqb_spec (upper code) "W") as [E|_].
    { exfalso; apply H, (upper_known code "W"%char); simpl; tauto. }
    destruct (String.eqb_spec (upper code) "X") as [E|_].
    { exfalso; apply H, (upper_known code "X"%char); simpl; tauto. }
    reflexivity.
  - unfold Validator997.classify_functional_group_status.
    destruct (String.eqb_spec (upper code) "A") as [E|_].
    { exfalso; apply H, (upper_known code "A"%char); simpl; tauto. }
    cbn [existsb].
    destruct (String.eqb_spec (upper code) "E") as [E|_].
    { exfalso; apply H, (upper_known code "E"%char); simpl; tauto. }
    destruct (String.eqb_spec (upper code) "P") as [E|_].
    { exfalso; apply H, (upper_known code "P"%char); simpl; tauto. }
    destruct (String.eqb_spec (upper code) "R") as [E|_].
    { exfalso; apply H, (upper_known code "R"%char); simpl; tauto. }
    reflexivity.
Qed.

(** C3 as stated fails at group level: M (like W and X) is classified
    UNKNOWN there, while the transaction level classifies it REJECTED. *)
Lemma group_status_M_is_unknown :
  let self := Validator997.mk (ErrorCodeMapper.mk ∅) in
  Validator997.classify_functional_group_status self "M" = FunctionalGroupStatus.UNKNOWN
  /\ Validator997.classify_functional_group_status self "W" = FunctionalGroupStatus.UNKNOWN
  /\ Validator997.classify_functional_group_status self "X" = FunctionalGroupStatus.UNKNOWN
  /\ Validator997.classify_transaction_status self "M" = TransactionStatus.REJECTED
  /\ FunctionalGroupStatus.UNKNOWN <> FunctionalGroupStatus.REJECTED.
Proof. repeat split; discriminate. Qed.

End Classification.

(** ** Reconciliation *)

Section Reconciliation.

Definition string_le (a b : string) : Prop := String.leb a b = true.

Lemma insert_sorted_perm (k : string) (l : list string) :
  Permutation (insert_sorted k l) (k :: l).
Proof.
  induction l as [|h l IH]; simpl; [reflexivity|].
  destruct (String.leb k h); [reflexivity|].
  rewrite IH; apply perm_swap.
Qed.

Lemma sorted_perm (l : list string) : Permutation (sorted l) l.
Proof.
  induction l as [|k l IH]; simpl; [reflexivity|].
  rewrite insert_sorted_perm, IH; reflexivity.
Qed.

Lemma insert_sorted_HdRel (k x : string) (l : list string) :
  string_le x k -> HdRel string_le x l -> HdRel string_le x (insert_sorted k l).
Proof.
  intros Hxk Hx; destruct l as [|h l]; simpl; [constructor; exact Hxk|].
  destruct (String.leb k h); constructor; [exact Hxk|].
  inversion Hx; assumption.
Qed.

Lemma insert_sorted_Sorted (k : string) (l : list string) :
  Sorted string_le l -> Sorted string_le (insert_sorted k l).
Proof.
  induction l as [|h l IH]; simpl; intros Hs.
  - repeat constructor.
  - destruct (String.leb k h) eqn:E.
    + constructor; [exact Hs|constructor; exact E].
    + inversion Hs as [|? ? Hl Hh]; subst.
      constructor; [apply IH; exact Hl|].
      apply insert_sorted_HdRel; [|exact Hh].
      destruct (String.leb_total k h) as [H|H]; [congruence|exact H].
Qed.

Lemma sorted_Sorted (l : list string) : Sorted string_le (sorted l).
Proof.
  induction l as [|k l IH]; simpl; [constructor|].
  apply insert_sorted_Sorted; exact IH.
Qed.

(** The dictionary built from a list holds a key exactly when some
    entry of the list has it, and holds an entry of the list under it. *)
Lemma fold_insert_lookup {A : Type} (key : A -> string) (l : list A)
    (m : gmap string A) (k : string) (tx : A) :
  fold_left (fun d tx => <[key tx := tx]> d) l m !! k = Some tx ->
  m !! k = Some tx \/ (In tx l /\ key tx = k).
Proof.
  revert m; induction l as [|x l IH]; simpl; intros m H; [left; exact H|].
  apply IH in H as [H|[H1 H2]]; [|right; tauto].
  destruct (decide (key x = k)) as [E|E].
  - rewrite <- E, lookup_insert_eq in H. injection H as <-. right; tauto.
  - rewrite lookup_insert_ne in H by exact E. left; exact H.
Qed.

Lemma fold_insert_is_Some {A : Type} (key : A -> string) (l : list A)
    (m : gmap string A) (k : string) :
  is_Some (fold_left (fun d tx => <[key tx := tx]> d) l m !! k) <->
  is_Some (m !! k) \/ exists tx, In tx l /\ key tx = k.
Proof.
  revert m; induction l as [|x l IH]; simpl; intros m.
  - split; [tauto|]. intros [H|(tx & [] & _)]; exact H.
  - rewrite IH. split.
    + intros [H|(tx & H1 & H2)]; [|right; eauto].
      destruct (decide (key x = k)) as [E|E]; [right; eauto|].
      rewrite lookup_insert_ne in H by exact E. left; exact H.
    + intros [H|(tx & [->|H1] & H2)]; [| |right; eauto].
      * left. destruct (decide (key x = k)) as [E|E].
        -- rewrite <- E, lookup_insert_eq; eauto.
        -- rewrite lookup_insert_ne by exact E; exact H.
      * left. rewrite <- H2, lookup_insert_eq; eauto.
Qed.

Lemma dict_by_lookup {A : Type} (key : A -> string) (l : list A) (k : string) (tx : A) :
  Reconciler.dict_by key l !! k = Some tx -> In tx l /\ key tx = k.
Proof.
  intros H; apply fold_insert_lookup in H as [H|H]; [|exact H].
  rewrite lookup_empty in H; discriminate H.
Qed.

Lemma dict_by_is_Some {A : Type} (key : A -> string) (l : list A) (k : string) :
  is_Some (Reconciler.dict_by key l !! k) <-> exists tx, In tx l /\ key tx = k.
Proof.
  unfold Reconciler.dict_by; rewrite fold_insert_is_Some, lookup_empty.
  split; [intros [[x H]|H]; [discriminate H|exact H]|tauto].
Qed.

(** What the claim says of one key and the record produced for it;
    the reason is the formatted text as the record stores it, trimmed. *)
Definition classified (outbound_map : gmap string OutboundTransaction.t)
    (ack_map : gmap string TransactionSetValidation.t)
    (control_number : string) (r : TransactionReconciliation.t) : Prop :=
  match outbound_map !! control_number, ack_map !! control_number with
  | Some o, Some a =>
      if decide (OutboundTransaction.transaction_set_id o
                 = TransactionSetValidation.transaction_set_id a)
      then r = {| TransactionReconciliation.outbound_transaction := Some o;
                  TransactionReconciliation.acknowledgment := Some a;
                  TransactionReconciliation.status := ReconciliationStatus.MATCHED;
                  TransactionReconciliation.mismatch_reason := None |}
      else r = {| TransactionReconciliation.outbound_transaction := Some o;
                  TransactionReconciliation.acknowledgment := Some a;
                  TransactionReconciliation.status :=
                    ReconciliationStatus.CONTROL_NUMBER_MISMATCH;
                  TransactionReconciliation.mismatch_reason :=
                    Some (Pydantic.str_strip_whitespace
                            ("Transaction set ID mismatch: expected "
                             ++ OutboundTransaction.transaction_set_id o
                             ++ ", got "
                             ++ TransactionSetValidation.transaction_set_id a)%string) |}
  | Some o, None =>
      r = {| TransactionReconciliation.outbound_transaction := Some o;
             TransactionReconciliation.acknowledgment := None;
             TransactionReconciliation.status := ReconciliationStatus.MISSING_ACK;
             TransactionReconciliation.mismatch_reason :=
               Some (Pydantic.str_strip_whitespace
                       ("No acknowledgment received for transaction "
                        ++ OutboundTransaction.transaction_control_number o)%string) |}
  | None, Some a =>
      r = {| TransactionReconciliation.outbound_transaction := None;
             TransactionReconciliation.acknowledgment := Some a;
             TransactionReconciliation.status := ReconciliationStatus.UNEXPECTED_ACK;
             TransactionReconciliation.mismatch_reason :=
               Some (Pydantic.str_strip_whitespace
                       ("Unexpected acknowledgment for transaction "
                        ++ TransactionSetValidation.transaction_control_number a)%string) |}
  | None, None => False
  end.

Lemma reconcile_keys (outbound_map : gmap string OutboundTransaction.t)
    (ack_map : gmap string TransactionSetValidation.t) (keys : list string) :
  Forall (fun k => is_Some (outbound_map !! k) \/ is_Some (ack_map !! k)) keys ->
  exists recs,
    mapM (fun control_number =>
            Reconciler.reconcile_transaction (outbound_map !! control_number)
              (ack_map !! control_number)) keys = Ok recs
    /\ Forall2 (classified outbound_map ack_map) keys recs.
Proof.
  induction 1 as [|k keys Hk _ (recs & Hm & Hf)]; simpl.
  - exists []; split; [reflexivity|constructor].
  - rewrite Hm.
    assert (exists r, Reconciler.reconcile_transaction (outbound_map !! k) (ack_map !! k)
                      = Ok r /\ classified outbound_map ack_map k r) as (r & Hr & Hc).
    { unfold classified, Reconciler.reconcile_transaction.
      destruct (outbound_map !! k) as [o|], (ack_map !! k) as [a|].
      - destruct (String.eqb_spec (OutboundTransaction.transaction_set_id o)
                    (TransactionSetValidation.transaction_set_id a)) as [E|E];
          simpl; destruct (decide _); try contradiction; eauto.
      - eauto.
      - eauto.
      - destruct Hk as [[x Hx]|[x Hx]]; discriminate Hx. }
    rewrite Hr; simpl. exists (r :: recs); split; [reflexivity|].
    constructor; assumption.
Qed.

(** C5. [reconcile_functional_group] never raises; it produces one
    record per control number held by the outbound map or the
    acknowledgment map, in sorted order without repetition, and each
    record is classified as the claim says, its reason naming the
    control number or both transaction set IDs in the text the record
    stores; both sides absent is the error of [reconcile_transaction],
    never a record. *)
Theorem reconcile_functional_group_spec (fg_validation : FunctionalGroupValidation.t)
    (outbound_group : OutboundFunctionalGroup.t) :
  let outbound_map :=
    Reconciler.dict_by OutboundTransaction.transaction_control_number
      (OutboundFunctionalGroup.transactions outbound_group) in
  let ack_map :=
    Reconciler.dict_by TransactionSetValidation.transaction_control_number
      (FunctionalGroupValidation.transaction_validations fg_validation) in
  exists (keys : list string) (recs : list TransactionReconciliation.t),
    Reconciler.reconcile_functional_group fg_validation outbound_group
    = Ok {| FunctionalGroupReconciliation.outbound_group := Some outbound_group;
            FunctionalGroupReconciliation.group_control_number :=
              FunctionalGroupValidation.group_control_number fg_validation;
            FunctionalGroupReconciliation.functional_id_code :=
              FunctionalGroupValidation.functional_id_code fg_validation;
            FunctionalGroupReconciliation.transaction_reconciliations := recs |}
    /\ Sorted string_le keys
    /\ List.NoDup keys
    /\ (forall k, In k keys <->
          (exists o, In o (OutboundFunctionalGroup.transactions outbound_group)
                     /\ OutboundTransaction.transaction_control_number o = k)
          \/ (exists a, In a (FunctionalGroupValidation.transaction_validations
                                fg_validation)
                        /\ TransactionSetValidation.transaction_control_number a = k))
    /\ Forall2 (classified outbound_map ack_map) keys recs
    /\ Reconciler.reconcile_transaction None None = Raise Reconciler.both_none.
Proof.
  intros outbound_map ack_map.
  set (all := (dom outbound_map ∪ dom ack_map : gset string)).
  assert (Hin : forall k, In k (sorted (elements all)) <->
                          is_Some (outbound_map !! k) \/ is_Some (ack_map !! k)).
  { intros k. rewrite <- (elem_of_dom outbound_map), <- (elem_of_dom ack_map).
    rewrite <- elem_of_union. fold all. rewrite <- elem_of_elements, list_elem_of_In.
    split; apply Permutation_in; [|symmetry]; apply sorted_perm. }
  destruct (reconcile_keys outbound_map ack_map (sorted (elements all)))
    as (recs & Hm & Hf).
  { apply List.Forall_forall; intros k Hk; apply Hin; exact Hk. }
  exists (sorted (elements all)), recs.
  split; [|split; [|split; [|split; [|split]]]].
  - unfold Reconciler.reconcile_functional_group.
    fold outbound_map ack_map all. rewrite Hm; reflexivity.
  - apply sorted_Sorted.
  - apply (Permutation_NoDup (l := elements all)); [symmetry; apply sorted_perm|].
    apply NoDup_ListNoDup, NoDup_elements.
  - intros k. rewrite Hin. unfold outbound_map, ack_map.
    rewrite !dict_by_is_Some. reflexivity.
  - exact Hf.
  - reflexivity.
Qed.

Lemma count_if_length (cond : TransactionReconciliation.t -> bool)
    (l : list TransactionReconciliation.t) :
  FunctionalGroupReconciliation.count_if cond l = length (filter cond l).
Proof.
  unfold FunctionalGroupReconciliation.count_if.
  induction (filter cond l) as [|x f IH]; simpl; [reflexivity|].
  rewrite IH; reflexivity.
Qed.

Lemma filter_all_length {A : Type} (p : A -> bool) (l : list A) :
  length (filter p l) = length l <-> forallb p l = true.
Proof.
  induction l as [|x l IH]; simpl; [tauto|].
  pose proof (filter_length_le p l) as Hle.
  destruct (p x); simpl.
  - rewrite <- IH; lia.
  - split; [lia|discriminate].
Qed.

(** C6. [is_fully_reconciled] holds exactly when there is at least one
    transaction reconciliation and the matched count equals the total;
    that is, exactly when the list is not empty and every record is
    MATCHED.  It is false for a total of zero, and reconciling an
    empty outbound group against an empty acknowledgment gives a
    result that is not fully reconciled. *)
Theorem is_fully_reconciled_spec (r : FunctionalGroupReconciliation.t) :
  (FunctionalGroupReconciliation.is_fully_reconciled r = true <->
     0 < FunctionalGroupReconciliation.total_count r
     /\ FunctionalGroupReconciliation.matched_count r
        = FunctionalGroupReconciliation.total_count r)
  /\ (FunctionalGroupReconciliation.total_count r = 0 ->
      FunctionalGroupReconciliation.is_fully_reconciled r = false)
  /\ (FunctionalGroupReconciliation.is_fully_reconciled r = true <->
      FunctionalGroupReconciliation.transaction_reconciliations r <> []
      /\ Forall (fun tr => TransactionReconciliation.status tr
                           = ReconciliationStatus.MATCHED)
           (FunctionalGroupReconciliation.transaction_reconciliations r))
  /\ (forall fg_validation outbound_group,
        OutboundFunctionalGroup.transactions outbound_group = [] ->
        FunctionalGroupValidation.transaction_validations fg_validation = [] ->
        exists r',
          Reconciler.reconcile_functional_group fg_validation outbound_group = Ok r'
          /\ FunctionalGroupReconciliation.total_count r' = 0
          /\ FunctionalGroupReconciliation.is_fully_reconciled r' = false).
Proof.
  assert (Hiff : FunctionalGroupReconciliation.is_fully_reconciled r = true <->
     0 < FunctionalGroupReconciliation.total_count r
     /\ FunctionalGroupReconciliation.matched_count r
        = FunctionalGroupReconciliation.total_count r).
  { unfold FunctionalGroupReconciliation.is_fully_reconciled.
    rewrite andb_true_iff, Nat.ltb_lt, Nat.eqb_eq; reflexivity. }
  split; [exact Hiff|split; [|split]].
  - intros H0. apply not_true_is_false. intros E.
    apply Hiff in E; lia.
  - rewrite Hiff.
    unfold FunctionalGroupReconciliation.matched_count,
      FunctionalGroupReconciliation.total_count.
    rewrite count_if_length, filter_all_length, forallb_forall, List.Forall_forall.
    split; intros [Hn Ha]; split.
    + intros E; rewrite E in Hn; simpl in Hn; lia.
    + intros tr Htr. specialize (Ha tr Htr).
      unfold TransactionReconciliation.is_matched in Ha.
      apply bool_decide_eq_true in Ha; exact Ha.
    + destruct (FunctionalGroupReconciliation.transaction_reconciliations r);
        [contradiction|simpl; lia].
    + intros tr Htr. apply bool_decide_eq_true, Ha, Htr.
  - intros fg og Ho Ha.
    unfold Reconciler.reconcile_functional_group. rewrite Ho, Ha.
    eexists; split; [reflexivity|split; reflexivity].
Qed.

(** The three mismatches of the reconciliation, on one group: 5678 is
    sent and not acknowledged, 9999 is acknowledged and was not sent,
    0001 is acknowledged under another transaction set ID. *)
Example reconcile_mixed :
  let sent id cn := OutboundTransaction.mk id cn "1" "PO" in
  let acked id cn :=
    TransactionSetValidation.mk id cn TransactionStatus.ACCEPTED "A" 0 [] [] in
  let fg :=
    FunctionalGroupValidation.mk "PO" "1" FunctionalGroupStatus.ACCEPTED "A" 2 2 2
      [acked "9999" "9999"; acked "856" "0001"]%string [] in
  let og :=
    OutboundFunctionalGroup.mk "PO" "1" [sent "850" "5678"; sent "850" "0001"]%string in
  exists r,
    Reconciler.reconcile (ValidationResult.mk "000000001" "S" "R" fg true) og = Ok r
    /\ map (fun tr => (TransactionReconciliation.control_number tr,
                       TransactionReconciliation.status tr,
                       TransactionReconciliation.mismatch_reason tr))
         (FunctionalGroupReconciliation.transaction_reconciliations
            (ReconciliationResult.functional_group_reconciliation r))
       = [(Some "0001", ReconciliationStatus.CONTROL_NUMBER_MISMATCH,
           Some "Transaction set ID mismatch: expected 850, got 856");
          (Some "5678", ReconciliationStatus.MISSING_ACK,
           Some "No acknowledgment received for transaction 5678");
          (Some "9999", ReconciliationStatus.UNEXPECTED_ACK,
           Some "Unexpected acknowledgment for transaction 9999")]%string
    /\ ReconciliationResult.is_fully_reconciled r = false
    /\ ReconciliationResult.summary r
       = "0/3 transactions matched, 1 missing acknowledgments, 1 unexpected acknowledgments"%string.
Proof. eexists; split; [vm_compute; reflexivity|]. repeat split. Qed.

End Reconciliation.

(** ** The reason texts as stored *)

Section StoredReasons.

Local Open Scope string_scope.
Local Open Scope list_scope.

Lemma string_app_assoc (s1 s2 s3 : string) :
  (s1 ++ (s2 ++ s3) = (s1 ++ s2) ++ s3)%string.
Proof.
  induction s1 as [|c s1 IH]; [reflexivity|].
  change (String c (s1 ++ (s2 ++ s3)) = String c ((s1 ++ s2) ++ s3))%string.
  rewrite IH. reflexivity.
Qed.

(** A value as a model stores it: trimmed; here also not empty. *)
Definition stored (value : string) : Prop :=
  value <> EmptyString /\ Pydantic.str_strip_whitespace value = value.

(** For control numbers and transaction set IDs that are not empty
    the trimming keeps the three reason texts whole, so each names the
    control number, or both transaction set IDs, in full. *)
Lemma reasons_name_stored_values (o : OutboundTransaction.t)
    (a : TransactionSetValidation.t) :
  (stored (OutboundTransaction.transaction_control_number o) ->
   Reconciler.reconcile_transaction (Some o) None
   = Ok {| TransactionReconciliation.outbound_transaction := Some o;
           TransactionReconciliation.acknowledgment := None;
           TransactionReconciliation.status := ReconciliationStatus.MISSING_ACK;
           TransactionReconciliation.mismatch_reason :=
             Some ("No acknowledgment received for transaction "
                   ++ OutboundTransaction.transaction_control_number o)%string |})
  /\ (stored (TransactionSetValidation.transaction_control_number a) ->
      Reconciler.reconcile_transaction None (Some a)
      = Ok {| TransactionReconciliation.outbound_transaction := None;
              TransactionReconciliation.acknowledgment := Some a;
              TransactionReconciliation.status := ReconciliationStatus.UNEXPECTED_ACK;
              TransactionReconciliation.mismatch_reason :=
                Some ("Unexpected acknowledgment for transaction "
                      ++ TransactionSetValidation.transaction_control_number a)%string |})
  /\ (stored (TransactionSetValidation.transaction_set_id a) ->
      OutboundTransaction.transaction_set_id o
      <> TransactionSetValidation.transaction_set_id a ->
      Reconciler.reconcile_transaction (Some o) (Some a)
      = Ok {| TransactionReconciliation.outbound_transaction := Some o;
              TransactionReconciliation.acknowledgment := Some a;
              TransactionReconciliation.status :=
                ReconciliationStatus.CONTROL_NUMBER_MISMATCH;
              TransactionReconciliation.mismatch_reason :=
                Some ("Transaction set ID mismatch: expected "
                      ++ OutboundTransaction.transaction_set_id o
                      ++ ", got "
                      ++ TransactionSetValidation.transaction_set_id a)%string |}).
Proof.
  split; [|split].
  - intros [Hne Hst]. cbn [Reconciler.reconcile_transaction].
    rewrite (formatted_text_kept "N" _ _ eq_refl Hne Hst). reflexivity.
  - intros [Hne Hst]. cbn [Reconciler.reconcile_transaction].
    rewrite (formatted_text_kept "U" _ _ eq_refl Hne Hst). reflexivity.
  - intros [Hne Hst] Hdiff. cbn [Reconciler.reconcile_transaction].
    destruct (String.eqb_spec (OutboundTransaction.transaction_set_id o)
                (TransactionSetValidation.transaction_set_id a)) as [E|_];
      [contradiction|].
    cbn [negb].
    rewrite (string_app_assoc (OutboundTransaction.transaction_set_id o)),
      string_app_assoc.
    change ("Transaction set ID mismatch: expected "
            ++ (OutboundTransaction.transaction_set_id o ++ ", got "))%string
      with (String "T" ("ransaction set ID mismatch: expected "
                        ++ (OutboundTransaction.transaction_set_id o ++ ", got ")))%string.
    rewrite (formatted_text_kept "T" _ _ eq_refl Hne Hst). reflexivity.
Qed.
End StoredReasons.

(** ** Tokenization *)

Section Tokenization.

Lemma blank_iff (content : text) :
  is_empty content || is_empty (strip content) = forallb isspace content.
Proof.
  rewrite is_empty_strip.
  destruct content; reflexivity.
Qed.

Lemma clean_segments_filter (trim : bool) (pieces : list text) :
  EDITokenizer.clean_segments trim pieces
  = filter (fun piece => negb (is_empty piece))
      (map (fun piece => if trim then strip piece else piece) pieces).
Proof.
  induction pieces as [|p pieces IH]; simpl; [reflexivity|].
  rewrite IH.
  destruct (is_empty (if trim then strip p else p)); reflexivity.
Qed.

(** The delimiters [tokenize_content] works with: the caller's, the
    detected ones, or the configured defaults. *)
Definition delimiters_used (self : EDITokenizer.t) (content : text)
    (delimiters : option Delimiters.t) : Delimiters.t :=
  match delimiters with
  | Some d => d
  | None =>
      if ParserConfig.auto_detect_delimiters (EDITokenizer.config self)
      then
        match DelimiterDetector.detect_from_file_content
                (EDITokenizer.delimiter_detector self) content with
        | Ok d => d
        | Raise _ =>
            DelimiterDetector.use_default_delimiters
              (EDITokenizer.delimiter_detector self)
        end
      else DelimiterDetector.use_default_delimiters
             (EDITokenizer.delimiter_detector self)
  end.

Lemma tokenize_content_unfold (self : EDITokenizer.t) (content : text)
    (delimiters : option Delimiters.t) :
  EDITokenizer.tokenize_content self content delimiters
  = if forallb isspace content then Raise EmptyFileError
    else
      Ok (filter (fun piece => negb (is_empty piece))
            (map (fun piece =>
                    if ParserConfig.trim_whitespace (EDITokenizer.config self)
                    then strip piece else piece)
               (split (Delimiters.segment (delimiters_used self content delimiters))
                  (if ParserConfig.preserve_line_breaks (EDITokenizer.config self)
                   then content else filter not_line_break content)))).
Proof.
  unfold EDITokenizer.tokenize_content.
  rewrite blank_iff.
  destruct (forallb isspace content); [reflexivity|].
  rewrite clean_segments_filter, remove_line_breaks_filter.
  fold (delimiters_used self content delimiters).
  destruct (ParserConfig.preserve_line_breaks (EDITokenizer.config self)); reflexivity.
Qed.

(** A document as lines, each closed by a line ending of some style,
    and a last piece without line ending. *)
Inductive LineEnding : Type := Windows | Unix | Mac.

Definition ending_text (e : LineEnding) : text :=
  match e with
  | Windows => [CR; LF]
  | Unix => [LF]
  | Mac => [CR]
  end.

Fixpoint render (style : nat -> LineEnding) (i : nat) (lines : list text)
    (last_piece : text) : text :=
  match lines with
  | [] => last_piece
  | line :: rest =>
      line ++ ending_text (style i) ++ render style (S i) rest last_piece
  end.

Lemma render_no_line_breaks (style : nat -> LineEnding) (i : nat)
    (lines : list text) (last_piece : text) :
  filter not_line_break (render style i lines last_piece)
  = filter not_line_break (concat lines ++ last_piece).
Proof.
  revert i; induction lines as [|line rest IH]; intros i; simpl; [reflexivity|].
  rewrite <- app_assoc, !filter_app, IH, filter_app.
  destruct (style i); reflexivity.
Qed.

Lemma render_blank (style : nat -> LineEnding) (i : nat)
    (lines : list text) (last_piece : text) :
  forallb isspace (render style i lines last_piece)
  = forallb isspace (concat lines ++ last_piece).
Proof.
  revert i; induction lines as [|line rest IH]; intros i; simpl; [reflexivity|].
  rewrite <- app_assoc, !forallb_app, IH, forallb_app.
  destruct (style i); reflexivity.
Qed.

Example tokenize_mixed_endings :
  let self := EDITokenizer.init None None in
  let d := DelimiterDetector.use_default_delimiters (EDITokenizer.delimiter_detector self) in
  EDITokenizer.tokenize_content self
    ((lit "ST*997*0001~") ++ [LF] ++ (lit "AK1*PO*1234~") ++ [CR; LF]
     ++ (lit "AK9*A*1*1*1~") ++ [CR] ++ (lit " SE*4*0001~~"))
    (Some d)
  = Ok [lit "ST*997*0001"; lit "AK1*PO*1234"; lit "AK9*A*1*1*1"; lit "SE*4*0001"].
Proof. vm_compute; reflexivity. Qed.

Example tokenize_accepted_sample :
  EDITokenizer.tokenize_content (EDITokenizer.init None None)
    (lit "ISA*00*          *00*          *ZZ*SENDER         *ZZ*RECEIVER       *230101*1200*U*00401*000000001*0*P*>~GS*FA*SENDER*RECEIVER*20230101*1200*1*X*004010~ST*997*0001~AK1*PO*1234~AK9*A*1*1*1~SE*4*0001~GE*1*1~IEA*1*000000001~")
    None
  = Ok [lit "ISA*00*          *00*          *ZZ*SENDER         *ZZ*RECEIVER       *230101*1200*U*00401*000000001*0*P*>";
        lit "GS*FA*SENDER*RECEIVER*20230101*1200*1*X*004010";
        lit "ST*997*0001"; lit "AK1*PO*1234"; lit "AK9*A*1*1*1";
        lit "SE*4*0001"; lit "GE*1*1"; lit "IEA*1*000000001"].
Proof. vm_compute; reflexivity. Qed.

(** C8. [tokenize_content] raises [EmptyFileError] exactly for empty
    or all-whitespace content.  Otherwise, with [preserve_line_breaks]
    off, it drops every line-break character, splits on the segment
    terminator, trims each piece when [trim_whitespace] is on and
    drops the empty pieces.  Every returned segment is non-empty and
    free of the terminator, and documents that differ only in the
    style of their line endings give the same segments. *)
Theorem tokenize_content_spec (self : EDITokenizer.t) :
  (forall content delimiters,
     EDITokenizer.tokenize_content self content delimiters = Raise EmptyFileError
     <-> content = [] \/ forallb isspace content = true)
  /\ (forall content d,
        ParserConfig.preserve_line_breaks (EDITokenizer.config self) = false ->
        forallb isspace content = false ->
        EDITokenizer.tokenize_content self content (Some d)
        = Ok (filter (fun piece => negb (is_empty piece))
                (map (fun piece =>
                        if ParserConfig.trim_whitespace (EDITokenizer.config self)
                        then strip piece else piece)
                   (split (Delimiters.segment d)
                      (filter not_line_break content)))))
  /\ (forall content delimiters segments,
        EDITokenizer.tokenize_content self content delimiters = Ok segments ->
        Forall (fun segment =>
                  segment <> []
                  /\ ~ In (Delimiters.segment (delimiters_used self content delimiters))
                          segment)
          segments)
  /\ (forall d style1 style2 lines last_piece,
        ParserConfig.preserve_line_breaks (EDITokenizer.config self) = false ->
        EDITokenizer.tokenize_content self (render style1 0 lines last_piece) (Some d)
        = EDITokenizer.tokenize_content self (render style2 0 lines last_piece) (Some d)).
Proof.
  split; [|split; [|split]].
  - intros content delimiters. rewrite tokenize_content_unfold.
    destruct (forallb isspace content) eqn:E.
    + split; [right; reflexivity|reflexivity].
    + split; [discriminate|].
      intros [->|H]; [discriminate E|discriminate H].
  - intros content d Hp Hb. rewrite tokenize_content_unfold, Hb, Hp. reflexivity.
  - intros content delimiters segments. rewrite tokenize_content_unfold.
    destruct (forallb isspace content); [discriminate|].
    intros H; injection H as <-.
    apply List.Forall_forall. intros segment Hin.
    apply filter_In in Hin as [Hin Hne].
    split; [intros ->; discriminate Hne|].
    apply in_map_iff in Hin as (piece & <- & Hpiece).
    pose proof (split_no_sep
      (Delimiters.segment (delimiters_used self content delimiters))
      (if ParserConfig.preserve_line_breaks (EDITokenizer.config self)
       then content else filter not_line_break content)) as Hs.
    rewrite List.Forall_forall in Hs. specialize (Hs piece Hpiece).
    destruct (ParserConfig.trim_whitespace (EDITokenizer.config self));
      [intros Hc; apply Hs, In_strip, Hc|exact Hs].
  - intros d style1 style2 lines last_piece Hp.
    rewrite !tokenize_content_unfold, Hp, !render_blank, !render_no_line_breaks.
    reflexivity.
Qed.

(** C10. Without caller-supplied delimiters and with auto-detection
    on, a failed detection, whatever the exception, is absorbed:
    tokenization goes on with the configured default delimiters, so on
    content that is not blank it returns segments.  A tokenizer built
    without a detector of its own takes the defaults of its
    configuration, which are [*], [~], [:] and [^] unless configured
    otherwise. *)
Theorem detection_failure_uses_defaults (self : EDITokenizer.t) (content : text)
    (e : Exception) :
  ParserConfig.auto_detect_delimiters (EDITokenizer.config self) = true ->
  DelimiterDetector.detect_from_file_content
    (EDITokenizer.delimiter_detector self) content = Raise e ->
  EDITokenizer.tokenize_content self content None
  = EDITokenizer.tokenize_content self content
      (Some (DelimiterDetector.use_default_delimiters
               (EDITokenizer.delimiter_detector self)))
  /\ (forallb isspace content = false ->
      exists segments, EDITokenizer.tokenize_content self content None = Ok segments)
  /\ (forall config,
        DelimiterDetector.use_default_delimiters
          (EDITokenizer.delimiter_detector (EDITokenizer.init (Some config) None))
        = Delimiters.from_config (ParserConfig.default_delimiters config))
  /\ DelimiterDetector.use_default_delimiters
       (EDITokenizer.delimiter_detector (EDITokenizer.init None None))
     = {| Delimiters.element := "*"%char; Delimiters.segment := "~"%char;
          Delimiters.sub_element := ":"%char; Delimiters.repetition := Some "^"%char |}.
Proof.
  intros Hauto Hfail.
  split; [|split; [|split]].
  - rewrite !tokenize_content_unfold.
    unfold delimiters_used. rewrite Hauto, Hfail. reflexivity.
  - intros Hb. rewrite tokenize_content_unfold, Hb. eauto.
  - reflexivity.
  - reflexivity.
Qed.

Lemma detection_failure_uses_defaults_witness :
  let self := EDITokenizer.init None None in
  let content := lit "GS*FA*SENDER~ST*997*0001~" in
  EDITokenizer.tokenize_content self content None
  = EDITokenizer.tokenize_content self content
      (Some (DelimiterDetector.use_default_delimiters
               (EDITokenizer.delimiter_detector self)))
  /\ EDITokenizer.tokenize_content self content None
     = Ok [lit "GS*FA*SENDER"; lit "ST*997*0001"].
Proof.
  split.
  - apply (detection_failure_uses_defaults (EDITokenizer.init None None)
             (lit "GS*FA*SENDER~ST*997*0001~") InvalidISASegmentError);
      reflexivity.
  - reflexivity.
Defined.

End Tokenization.

(** ** The loop of the validation pipeline *)

Section PipelineLoop.

Import ValidationPipeline.

Lemma index_first {A : Type} `{EqDecision A} (x : A) (pre suf : list A) :
  ~ In x pre ->
  index x (pre ++ x :: suf) = Ok (length pre)
  /\ skipn (length pre) (pre ++ x :: suf) = x :: suf.
Proof.
  induction pre as [|y pre IH]; simpl; intros Hn.
  - destruct (decide (x = x)); [split; reflexivity|contradiction].
  - destruct (decide (y = x)) as [->|_]; [exfalso; apply Hn; left; reflexivity|].
    destruct IH as [-> ->]; [tauto|]. split; reflexivity.
Qed.

Lemma index_In {A : Type} `{EqDecision A} (x : A) (l : list A) :
  In x l -> exists i, index x l = Ok i.
Proof.
  induction l as [|y l IH]; simpl; [tauto|].
  intros Hin. destruct (decide (y = x)) as [_|Hne]; [eauto|].
  destruct IH as (i & ->); [destruct Hin; [contradiction|assumption]|].
  simpl; eauto.
Qed.

(** [isinstance] tests as partial projections. *)
Definition as_ISA (seg : Segment) : option ISASegment.t :=
  match seg with ISA s => Some s | _ => None end.
Definition as_AK1 (seg : Segment) : option AK1Segment.t :=
  match seg with AK1 s => Some s | _ => None end.
Definition as_AK2 (seg : Segment) : option AK2Segment.t :=
  match seg with AK2 s => Some s | _ => None end.
Definition as_AK3 (seg : Segment) : option AK3Segment.t :=
  match seg with AK3 s => Some s | _ => None end.
Definition as_AK4 (seg : Segment) : option AK4Segment.t :=
  match seg with AK4 s => Some s | _ => None end.
Definition as_AK9 (seg : Segment) : option AK9Segment.t :=
  match seg with AK9 s => Some s | _ => None end.

(** The last segment of one type in a list, after an earlier one [acc]. *)
Definition last_of {A : Type} (pick : Segment -> option A) (acc : option A)
    (segs : list Segment) : option A :=
  fold_left (fun acc seg => match pick seg with Some s => Some s | None => acc end)
    segs acc.

Lemma last_of_None {A : Type} (pick : Segment -> option A) (segs : list Segment) :
  (forall seg, In seg segs -> pick seg = None) -> last_of pick None segs = None.
Proof.
  unfold last_of. induction segs as [|seg segs IH]; simpl; intros H; [reflexivity|].
  rewrite (H seg) by (left; reflexivity).
  apply IH; intros s Hs; apply H; right; exact Hs.
Qed.

Lemma last_of_Some {A : Type} (pick : Segment -> option A) (segs : list Segment)
    (acc : option A) :
  is_Some acc \/ (exists seg, In seg segs /\ is_Some (pick seg)) ->
  is_Some (last_of pick acc segs).
Proof.
  unfold last_of. revert acc; induction segs as [|seg segs IH]; simpl; intros acc H.
  - destruct H as [H|(seg & [] & _)]; exact H.
  - apply IH. destruct (pick seg) as [s|] eqn:E; [left; eauto|].
    destruct H as [H|(seg' & [->|Hin] & Hs)]; [left; exact H| |right; eauto].
    rewrite E in Hs; destruct Hs as [x Hx]; discriminate Hx.
Qed.

Section AnyValidator.

Context {V : Type}.
Variable validate : AK2Segment.t -> AK5Segment.t -> list AK3Segment.t
                    -> list AK4Segment.t -> V.

Lemma loop_app (all : list Segment) (st : Locals V) (l1 l2 : list Segment) :
  loop validate all st (l1 ++ l2)
  = do st' <- loop validate all st l1 in loop validate all st' l2.
Proof.
  revert st; induction l1 as [|seg l1 IH]; intros st; simpl; [reflexivity|].
  destruct (loop_body validate all st seg) as [st'|e]; simpl; [apply IH|reflexivity].
Qed.

(** The loop never raises: the open AK2 is always a segment of the
    list, so the look-ahead finds it.  It ends with the last ISA, AK1
    and AK9 of the list. *)
Lemma loop_total (all : list Segment) (rest pre : list Segment) (st : Locals V) :
  all = pre ++ rest ->
  (forall a, current_ak2 st = Some a -> In (AK2 a) pre) ->
  exists st',
    loop validate all st rest = Ok st'
    /\ isa st' = last_of as_ISA (isa st) rest
    /\ ak1 st' = last_of as_AK1 (ak1 st) rest
    /\ ak9 st' = last_of as_AK9 (ak9 st) rest.
Proof.
  revert pre st; induction rest as [|seg rest IH]; intros pre st Hall Hopen.
  - exists st; repeat split; reflexivity.
  - assert (Hall' : all = (pre ++ [seg]) ++ rest)
      by (rewrite <- app_assoc; exact Hall).
    assert (Hstep : exists st1,
      loop_body validate all st seg = Ok st1
      /\ (forall a, current_ak2 st1 = Some a -> In (AK2 a) (pre ++ [seg]))
      /\ isa st1 = match as_ISA seg with Some s => Some s | None => isa st end
      /\ ak1 st1 = match as_AK1 seg with Some s => Some s | None => ak1 st end
      /\ ak9 st1 = match as_AK9 seg with Some s => Some s | None => ak9 st end).
    { destruct seg; simpl;
        try (eexists; split; [reflexivity|]; simpl; repeat split;
             intros a Ha; apply in_or_app; left; apply Hopen; exact Ha).
      - (* AK2 *)
        destruct (current_ak2 st) as [open_ak2|] eqn:Ecur.
        + destruct (index_In (AK2 open_ak2) all) as (i & Hi).
          { rewrite Hall; apply in_or_app; left; apply Hopen; reflexivity. }
          rewrite Hi; simpl.
          destruct (next_AK5 (skipn i all)); simpl;
            (eexists; split; [reflexivity|]; simpl; repeat split;
             intros a Ha; injection Ha as <-; apply in_or_app; right; left; reflexivity).
        + simpl. eexists; split; [reflexivity|]; simpl; repeat split.
          intros a Ha; injection Ha as <-; apply in_or_app; right; left; reflexivity.
      - (* AK5 *)
        destruct (current_ak2 st) as [open_ak2|] eqn:Ecur.
        + eexists; split; [reflexivity|]; simpl; repeat split. discriminate.
        + eexists; split; [reflexivity|]; simpl; repeat split.
          rewrite Ecur; discriminate. }
    destruct Hstep as (st1 & Hst1 & Hopen1 & Hisa & Hak1 & Hak9).
    destruct (IH (pre ++ [seg]) st1 Hall' Hopen1) as (st' & Hloop & Hi & H1 & H9).
    exists st'. simpl. rewrite Hst1; simpl.
    split; [exact Hloop|].
    unfold last_of in *; simpl.
    rewrite <- Hisa, <- Hak1, <- Hak9. tauto.
Qed.

Lemma scan_total (segs : list Segment) :
  exists st',
    scan validate segs = Ok st'
    /\ isa st' = last_of as_ISA None segs
    /\ ak1 st' = last_of as_AK1 None segs
    /\ ak9 st' = last_of as_AK9 None segs.
Proof.
  apply (loop_total segs segs [] (initial (V := V))); [reflexivity|].
  intros a Ha; discriminate Ha.
Qed.

End AnyValidator.

(** If the parsed segments hold no ISA, or no AK1, or no AK9, the
    pipeline raises the missing-required-segments error and returns no
    result: from the parsed segments on, and hence for every content
    whose detection, tokenization and parsing succeed with such
    segments. *)
Lemma missing_anchor_at_end (validator : Validator997.t) (segs : list Segment) :
  (forall s, ~ In (ISA s) segs) \/ (forall s, ~ In (AK1 s) segs)
  \/ (forall s, ~ In (AK9 s) segs) ->
  validate_parsed_segments validator segs = Raise missing_required_segments
  /\ (forall parse_segment_by_id content delimiters segments,
        DelimiterDetector.detect_from_file_content (DelimiterDetector.init None)
          content = Ok delimiters ->
        EDITokenizer.tokenize_content (EDITokenizer.init None None) content
          (Some delimiters) = Ok segments ->
        mapM (parse_segment_by_id delimiters)
          (filter (fun segment => negb (is_empty (strip segment))) segments)
        = Ok segs ->
        run_validation_pipeline parse_segment_by_id
          (Validator997.error_mapper validator) content
        = Raise missing_required_segments).
Proof.
  intros Hmissing.
  assert (Hraise : validate_parsed_segments validator segs
                   = Raise missing_required_segments).
  { unfold validate_parsed_segments.
    destruct (scan_total (Validator997.validate_transaction_set validator) segs)
      as (st & -> & Hisa & Hak1 & Hak9); simpl.
    destruct Hmissing as [H|[H|H]].
    - rewrite Hisa, last_of_None; [reflexivity|].
      intros [s| | | | | | | | | | |] Hin; try reflexivity. destruct (H s Hin).
    - rewrite Hak1, last_of_None; [destruct (isa st); reflexivity|].
      intros [|  | |s | | | | | | | |] Hin; try reflexivity. destruct (H s Hin).
    - rewrite Hak9, last_of_None;
        [destruct (isa st); [destruct (ak1 st)|]; reflexivity|].
      intros [|  | | | | | | |s | | |] Hin; try reflexivity. destruct (H s Hin). }
  split; [exact Hraise|].
  intros parse content delimiters segments Hd Ht Hp.
  unfold run_validation_pipeline. rewrite Hd; simpl. rewrite Ht; simpl.
  rewrite Hp; simpl. destruct validator; exact Hraise.
Qed.

(** With the three anchors present the pipeline returns a result. *)
Lemma anchors_present_returns (validator : Validator997.t) (segs : list Segment)
    (i : ISASegment.t) (a1 : AK1Segment.t) (a9 : AK9Segment.t) :
  In (ISA i) segs -> In (AK1 a1) segs -> In (AK9 a9) segs ->
  exists result, validate_parsed_segments validator segs = Ok result.
Proof.
  intros Hi H1 H9. unfold validate_parsed_segments.
  destruct (scan_total (Validator997.validate_transaction_set validator) segs)
    as (st & -> & Hisa & Hak1 & Hak9); simpl.
  destruct (last_of_Some as_ISA segs None) as [x Hx]; [right; exists (ISA i); split; [exact Hi|simpl; eauto]|].
  destruct (last_of_Some as_AK1 segs None) as [y Hy]; [right; exists (AK1 a1); split; [exact H1|simpl; eauto]|].
  destruct (last_of_Some as_AK9 segs None) as [z Hz]; [right; exists (AK9 a9); split; [exact H9|simpl; eauto]|].
  rewrite Hisa, Hx, Hak1, Hy, Hak9, Hz. eauto.
Qed.

End PipelineLoop.

(** ** Well-formed acknowledgment loops *)

Section WellFormedLoops.

Import ValidationPipeline.

(** The segments of a list by type, in order. *)
Definition ak2_of (segs : list Segment) : list AK2Segment.t := omap as_AK2 segs.
Definition ak3_of (segs : list Segment) : list AK3Segment.t := omap as_AK3 segs.
Definition ak4_of (segs : list Segment) : list AK4Segment.t := omap as_AK4 segs.

(** A note inside an AK2 loop: an AK3 or an AK4. *)
Inductive Note : Type :=
| NoteAK3 (s : AK3Segment.t)
| NoteAK4 (s : AK4Segment.t).

Definition note_segment (n : Note) : Segment :=
  match n with
  | NoteAK3 s => AK3 s
  | NoteAK4 s => AK4 s
  end.

(** An AK2 loop as the standard writes it: AK2, notes, AK5. *)
Record Ak2Loop : Type := mkAk2Loop {
  loop_ak2 : AK2Segment.t;
  loop_notes : list Note;
  loop_ak5 : AK5Segment.t
}.

Definition render_loop (l : Ak2Loop) : list Segment :=
  AK2 (loop_ak2 l) :: map note_segment (loop_notes l) ++ [AK5 (loop_ak5 l)].

(** A functional-group response: AK1, its AK2 loops, AK9. *)
Record GroupResponse : Type := mkGroupResponse {
  group_ak1 : AK1Segment.t;
  group_loops : list Ak2Loop;
  group_ak9 : AK9Segment.t
}.

Definition render_group (g : GroupResponse) : list Segment :=
  AK1 (group_ak1 g) :: flat_map render_loop (group_loops g) ++ [AK9 (group_ak9 g)].

(** The envelope segments, which the loop passes over. *)
Inductive Envelope : Type :=
| EnvGS (s : GSSegment.t)
| EnvST (s : STSegment.t)
| EnvSE (s : SESegment.t)
| EnvGE (s : GESegment.t)
| EnvIEA (s : IEASegment.t).

Definition envelope_segment (e : Envelope) : Segment :=
  match e with
  | EnvGS s => GS s
  | EnvST s => ST s
  | EnvSE s => SE s
  | EnvGE s => GE s
  | EnvIEA s => IEA s
  end.

Section AnyValidator.

Context {V : Type}.
Variable validate : AK2Segment.t -> AK5Segment.t -> list AK3Segment.t
                    -> list AK4Segment.t -> V.

Definition validate_loop (l : Ak2Loop) : V :=
  validate (loop_ak2 l) (loop_ak5 l)
    (ak3_of (map note_segment (loop_notes l)))
    (ak4_of (map note_segment (loop_notes l))).

Lemma loop_envelopes (all : list Segment) (st : Locals V) (envs : list Envelope) :
  loop validate all st (map envelope_segment envs) = Ok st.
Proof.
  induction envs as [|e envs IH]; simpl; [reflexivity|].
  destruct e; simpl; exact IH.
Qed.

Lemma loop_notes_open (all : list Segment) (notes : list Note)
    (i : option ISASegment.t) (a1 : option AK1Segment.t) (a9 : option AK9Segment.t)
    (tvs : list V) (cur : option AK2Segment.t)
    (c3 : list AK3Segment.t) (c4 : list AK4Segment.t) :
  loop validate all (@mkLocals V i a1 a9 tvs cur c3 c4) (map note_segment notes)
  = Ok (@mkLocals V i a1 a9 tvs cur
          (c3 ++ ak3_of (map note_segment notes))
          (c4 ++ ak4_of (map note_segment notes))).
Proof.
  revert c3 c4; induction notes as [|n notes IH]; intros c3 c4; simpl.
  - rewrite !app_nil_r; reflexivity.
  - destruct n; simpl; rewrite IH; simpl; rewrite <- app_assoc; reflexivity.
Qed.

(** A well-formed loop met with no AK2 open is finalized once, with
    its own AK5 and its own notes, and leaves no AK2 open. *)
Lemma loop_render_loop (all : list Segment) (l : Ak2Loop)
    (i : option ISASegment.t) (a1 : option AK1Segment.t) (a9 : option AK9Segment.t)
    (tvs : list V) :
  loop validate all (@mkLocals V i a1 a9 tvs None [] []) (render_loop l)
  = Ok (@mkLocals V i a1 a9 (tvs ++ [validate_loop l]) None [] []).
Proof.
  unfold render_loop. cbn [loop loop_body current_ak2 bind].
  cbn [isa ak1 ak9 transaction_validations].
  rewrite loop_app, loop_notes_open. reflexivity.
Qed.

Lemma loop_render_loops (all : list Segment) (ls : list Ak2Loop)
    (i : option ISASegment.t) (a1 : option AK1Segment.t) (a9 : option AK9Segment.t)
    (tvs : list V) :
  loop validate all (@mkLocals V i a1 a9 tvs None [] []) (flat_map render_loop ls)
  = Ok (@mkLocals V i a1 a9 (tvs ++ map validate_loop ls) None [] []).
Proof.
  revert tvs; induction ls as [|l ls IH]; intros tvs; cbn [flat_map map].
  - rewrite app_nil_r; reflexivity.
  - rewrite loop_app, loop_render_loop. cbn [bind].
    rewrite IH, <- app_assoc. reflexivity.
Qed.

Lemma loop_render_group (all : list Segment) (g : GroupResponse)
    (i : option ISASegment.t) (a1 : option AK1Segment.t) (a9 : option AK9Segment.t)
    (tvs : list V) :
  loop validate all (@mkLocals V i a1 a9 tvs None [] []) (render_group g)
  = Ok (@mkLocals V i (Some (group_ak1 g)) (Some (group_ak9 g))
          (tvs ++ map validate_loop (group_loops g)) None [] []).
Proof.
  unfold render_group. cbn [loop loop_body bind].
  cbn [isa ak1 ak9 transaction_validations current_ak2
       current_ak3_segments current_ak4_segments].
  rewrite loop_app, loop_render_loops. reflexivity.
Qed.

End AnyValidator.

End WellFormedLoops.

(** ** Error details of a transaction set *)

Section ErrorDetails.

Import ValidationPipeline.

Local Open Scope string_scope.
Local Open Scope list_scope.

Lemma fold_append_map {A B : Type} (f : A -> B) (l : list A) (acc : list B) :
  fold_left (fun errors x => errors ++ [f x]) l acc = acc ++ map f l.
Proof.
  revert acc; induction l as [|x l IH]; intros acc; simpl.
  - rewrite app_nil_r; reflexivity.
  - rewrite IH, <- app_assoc; reflexivity.
Qed.

Lemma fold_append_filter {A B : Type} (p : A -> bool) (f : A -> B) (l : list A)
    (acc : list B) :
  fold_left (fun errors x => if p x then errors ++ [f x] else errors) l acc
  = acc ++ map f (filter p l).
Proof.
  revert acc; induction l as [|x l IH]; intros acc; simpl.
  - rewrite app_nil_r; reflexivity.
  - rewrite IH. destruct (p x); simpl; [rewrite <- app_assoc|]; reflexivity.
Qed.

(** C2, as the code has it.  In a well-formed AK2 loop the loop hands
    the captured AK3 and AK4 segments to [validate_transaction_set],
    which emits, after the details of the AK3 segments that carry a
    syntax error code and before those of the AK5 codes, exactly one
    ErrorDetail per captured AK4, in order.  Its segment tag and
    position are those of the last AK3 captured in the whole loop, the
    same for every AK4 (none if the loop has no AK3); its element
    position, element reference number, error code and copy of the
    bad data element are the AK4's, and its description is the
    resolver's for that code, stored trimmed as every text of an
    ErrorDetail is. *)
Theorem ak4_details_use_last_ak3 (self : Validator997.t) (l : Ak2Loop) :
  let ak3s := ak3_of (map note_segment (loop_notes l)) in
  let ak4s := ak4_of (map note_segment (loop_notes l)) in
  let tsv :=
    Validator997.validate_transaction_set self (loop_ak2 l) (loop_ak5 l) ak3s ak4s in
  scan (Validator997.validate_transaction_set self) (render_loop l)
  = Ok (@mkLocals _ None None None [tsv] None [] [])
  /\ TransactionSetValidation.errors tsv
     = map (Validator997.build_error_detail_from_ak3 self)
         (filter (fun ak3 => truthy (AK3Segment.segment_syntax_error_code ak3)) ak3s)
       ++ map (fun ak4 =>
                 {| ErrorDetail.segment_id :=
                      option_map AK3Segment.segment_id
                        (Validator997.last_or_None ak3s);
                    ErrorDetail.segment_position :=
                      option_map AK3Segment.segment_position_in_transaction_set
                        (Validator997.last_or_None ak3s);
                    ErrorDetail.element_position :=
                      Some (AK4Segment.element_position_in_segment ak4);
                    ErrorDetail.element_reference_number :=
                      AK4Segment.data_element_reference_number ak4;
                    ErrorDetail.error_code :=
                      AK4Segment.data_element_syntax_error_code ak4;
                    ErrorDetail.error_description :=
                      Pydantic.str_strip_whitespace
                        (ErrorCodeInfo.description
                           (ErrorCodeMapper.get_element_error
                              (Validator997.error_mapper self)
                              (AK4Segment.data_element_syntax_error_code ak4)));
                    ErrorDetail.severity := ErrorSeverity.ERROR;
                    ErrorDetail.bad_data_element :=
                      AK4Segment.copy_of_bad_data_element ak4 |})
            ak4s
       ++ map (fun error_code =>
                 {| ErrorDetail.segment_id := None;
                    ErrorDetail.segment_position := None;
                    ErrorDetail.element_position := None;
                    ErrorDetail.element_reference_number := None;
                    ErrorDetail.error_code := error_code;
                    ErrorDetail.error_description :=
                      Pydantic.str_strip_whitespace
                        (ErrorCodeInfo.description
                           (ErrorCodeMapper.get_transaction_set_error
                              (Validator997.error_mapper self) error_code));
                    ErrorDetail.severity := ErrorSeverity.ERROR;
                    ErrorDetail.bad_data_element := None |})
            (AK5Segment.get_error_codes (loop_ak5 l))
  /\ TransactionSetValidation.error_count tsv
     = length (TransactionSetValidation.errors tsv).
Proof.
  intros ak3s ak4s tsv. split; [|split].
  - unfold scan, initial. rewrite loop_render_loop. reflexivity.
  - unfold tsv, Validator997.validate_transaction_set.
    cbn [TransactionSetValidation.errors].
    rewrite fold_append_filter, (fold_append_map _ ak4s), fold_append_map.
    cbn [app]. rewrite <- app_assoc. reflexivity.
  - reflexivity.
Qed.

(** C2 as stated fails: an AK4 does not take its segment context from
    the AK3 most recently seen when it appeared.  In the loop
    AK2, AK3 N1/2, AK4 1, AK3 REF/8, AK4 3, AK5 the first AK4 is
    reported against REF/8; in the loop AK2, AK4 1, AK3 N1/2, AK5 the
    AK4, which no AK3 precedes, is reported against N1/2. *)
Lemma ak4_context_is_last_ak3_of_loop :
  let self := Validator997.mk (ErrorCodeMapper.mk ∅) in
  let a := AK2Segment.mk "850" "5678" None in
  let x := AK5Segment.mk "R" None None None None None in
  let p1 := AK3Segment.mk "N1" 2 None None in
  let p2 := AK3Segment.mk "REF" 8 None None in
  let q1 := AK4Segment.mk 1 (Some 66%Z) "1" None in
  let q2 := AK4Segment.mk 3 (Some 128%Z) "7" None in
  let context (e : ErrorDetail.t) :=
    (ErrorDetail.segment_id e, ErrorDetail.segment_position e,
     ErrorDetail.element_position e) in
  (exists tsv,
     scan (Validator997.validate_transaction_set self)
       [AK2 a; AK3 p1; AK4 q1; AK3 p2; AK4 q2; AK5 x]
     = Ok (@mkLocals _ None None None [tsv] None [] [])
     /\ map context (TransactionSetValidation.errors tsv)
        = [(Some "REF", Some 8%Z, Some 1%Z); (Some "REF", Some 8%Z, Some 3%Z)])
  /\ (exists tsv,
     scan (Validator997.validate_transaction_set self)
       [AK2 a; AK4 q1; AK3 p1; AK5 x]
     = Ok (@mkLocals _ None None None [tsv] None [] [])
     /\ map context (TransactionSetValidation.errors tsv)
        = [(Some "N1", Some 2%Z, Some 1%Z)]).
Proof.
  split; eexists; split; reflexivity.
Qed.

End ErrorDetails.

(** ** Documents with two functional-group responses *)

Section TwoGroups.

Import ValidationPipeline.

Local Open Scope string_scope.
Local Open Scope list_scope.

(** C4, as the code has it.  For a document with two AK1..AK9 loops
    the pipeline keeps one functional group: its identifiers are those
    of the second AK1, its acknowledgment code, counts and group error
    codes those of the second AK9, and its transaction validations are
    the AK2 loops of both groups, in document order. *)
Theorem two_groups_are_merged (validator : Validator997.t) (i : ISASegment.t)
    (g1 g2 : GroupResponse) (env0 env1 env2 : list Envelope) :
  let document :=
    ISA i :: map envelope_segment env0 ++ render_group g1
    ++ map envelope_segment env1 ++ render_group g2 ++ map envelope_segment env2 in
  let validated :=
    map (validate_loop (Validator997.validate_transaction_set validator)) in
  validate_parsed_segments validator document
  = Ok (Validator997.validate_997 validator i (group_ak1 g2) (group_ak9 g2)
          (validated (group_loops g1 ++ group_loops g2)))
  /\ (forall result, validate_parsed_segments validator document = Ok result ->
      let fg := ValidationResult.functional_group result in
      FunctionalGroupValidation.functional_id_code fg
        = AK1Segment.functional_id_code (group_ak1 g2)
      /\ FunctionalGroupValidation.group_control_number fg
         = AK1Segment.group_control_number (group_ak1 g2)
      /\ FunctionalGroupValidation.ack_code fg
         = AK9Segment.functional_group_ack_code (group_ak9 g2)
      /\ FunctionalGroupValidation.transaction_validations fg
         = validated (group_loops g1) ++ validated (group_loops g2)).
Proof.
  intros document validated.
  assert (H : validate_parsed_segments validator document
    = Ok (Validator997.validate_997 validator i (group_ak1 g2) (group_ak9 g2)
            (validated (group_loops g1 ++ group_loops g2)))).
  { unfold validate_parsed_segments, scan, initial, document.
    cbn [loop loop_body bind isa ak1 ak9 transaction_validations current_ak2
         current_ak3_segments current_ak4_segments].
    rewrite loop_app, loop_envelopes. cbn [bind].
    rewrite loop_app, loop_render_group. cbn [bind].
    rewrite loop_app, loop_envelopes. cbn [bind].
    rewrite loop_app, loop_render_group. cbn [bind].
    rewrite loop_envelopes. cbn [bind isa ak1 ak9 transaction_validations app].
    unfold validated. rewrite map_app. reflexivity. }
  split; [exact H|].
  intros result Hr. rewrite H in Hr. injection Hr as <-.
  cbn. unfold validated. rewrite map_app. repeat split; reflexivity.
Qed.

(** C4 as stated fails: the two groups are not kept apart.  For the
    document ISA, AK1 PO/1234, AK2 850/0001, AK5 A, AK9 A,
    AK1 SH/5678, AK2 856/0002, AK5 R, AK9 R the single group of the
    result is SH/5678 with code R, and it holds the transaction
    850/0001 of the first group next to 856/0002. *)
Lemma second_group_absorbs_first :
  let validator := Validator997.mk (ErrorCodeMapper.mk ∅) in
  let isa :=
    ISASegment.mk "00" "" "00" "" "ZZ" "SENDER" "ZZ" "RECEIVER" "230101" "1200"
      "U" "00401" "000000001" "0" "P" ">" in
  let ak5 code := AK5Segment.mk code None None None None None in
  let ak9 code := AK9Segment.mk code 1 1 1 None None None None None in
  let document :=
    [ISA isa;
     AK1 (AK1Segment.mk "PO" "1234" None);
     AK2 (AK2Segment.mk "850" "0001" None); AK5 (ak5 "A"); AK9 (ak9 "A");
     AK1 (AK1Segment.mk "SH" "5678" None);
     AK2 (AK2Segment.mk "856" "0002" None); AK5 (ak5 "R"); AK9 (ak9 "R")] in
  exists result,
    validate_parsed_segments validator document = Ok result
    /\ FunctionalGroupValidation.functional_id_code
         (ValidationResult.functional_group result) = "SH"
    /\ FunctionalGroupValidation.group_control_number
         (ValidationResult.functional_group result) = "5678"
    /\ FunctionalGroupValidation.ack_code
         (ValidationResult.functional_group result) = "R"
    /\ map (fun tsv =>
              (TransactionSetValidation.transaction_set_id tsv,
               TransactionSetValidation.transaction_control_number tsv,
               TransactionSetValidation.ack_code tsv))
         (FunctionalGroupValidation.transaction_validations
            (ValidationResult.functional_group result))
       = [("850", "0001", "A"); ("856", "0002", "R")].
Proof.
  eexists. split; [vm_compute; reflexivity|]. repeat split; reflexivity.
Qed.

End TwoGroups.

(** ** Which AK5 closes which AK2 *)

Section LoopClosing.

Import ValidationPipeline.

Local Open Scope string_scope.
Local Open Scope list_scope.

Definition is_AK2_or_AK5 (seg : Segment) : bool :=
  match seg with
  | AK2 _ | AK5 _ => true
  | _ => false
  end.

(** The segments seen while the AK2 before [rest] is open: those up to
    the next AK2 or AK5. *)
Fixpoint loop_segments (rest : list Segment) : list Segment :=
  match rest with
  | [] => []
  | seg :: rest' => if is_AK2_or_AK5 seg then [] else seg :: loop_segments rest'
  end.

(** The finalization of the AK2 before [rest]: by the first AK5 of
    [rest], with the AK3 and AK4 segments seen while it is open; none
    when no AK5 follows. *)
Definition closing (a : AK2Segment.t) (rest : list Segment) : list Call :=
  match next_AK5 rest with
  | Some x =>
      [mkCall a x (ak3_of (loop_segments rest)) (ak4_of (loop_segments rest))]
  | None => []
  end.

Fixpoint loops_by_first_AK5 (segs : list Segment) : list Call :=
  match segs with
  | [] => []
  | AK2 a :: rest => closing a rest ++ loops_by_first_AK5 rest
  | _ :: rest => loops_by_first_AK5 rest
  end.

(** What the open AK2 of a state will be finalized with. *)
Definition pending (st : Locals Call) (rest : list Segment) : list Call :=
  match current_ak2 st, next_AK5 rest with
  | Some a, Some x =>
      [mkCall a x
         (current_ak3_segments st ++ ak3_of (loop_segments rest))
         (current_ak4_segments st ++ ak4_of (loop_segments rest))]
  | _, _ => []
  end.

Lemma ak2_of_app (l1 l2 : list Segment) :
  ak2_of (l1 ++ l2) = ak2_of l1 ++ ak2_of l2.
Proof. apply omap_app. Qed.

Lemma In_ak2_of (a : AK2Segment.t) (l : list Segment) :
  In (AK2 a) l -> In a (ak2_of l).
Proof.
  induction l as [|seg l IH]; simpl; [tauto|].
  intros [->|H]; [left; reflexivity|].
  destruct seg; simpl; auto.
Qed.

Lemma fresh_AK2 (pre rest : list Segment) (b : AK2Segment.t) :
  List.NoDup (ak2_of (pre ++ AK2 b :: rest)) -> ~ In (AK2 b) pre.
Proof.
  rewrite ak2_of_app. cbn. intros Hn Hin.
  apply NoDup_remove_2 in Hn. apply Hn, in_or_app. left.
  apply In_ak2_of, Hin.
Qed.

(** The look-ahead made for the open AK2 of a state reads the first
    AK5 of the segments still to come. *)
Definition lookahead_ok (all : list Segment) (st : Locals Call)
    (rest : list Segment) : Prop :=
  forall a, current_ak2 st = Some a ->
    exists i, index (AK2 a) all = Ok i /\ next_AK5 (skipn i all) = next_AK5 rest.

(** A segment that neither opens nor closes a loop: the rest of the
    list decides, from the state [H] speaks of. *)
Ltac passes_over IH prefix Hall Hnd H :=
  let st' := fresh "st'" in
  let Hl := fresh "Hl" in
  let Ht := fresh "Ht" in
  destruct (IH prefix _ Hall Hnd H) as (st' & Hl & Ht);
  exists st'; split; [exact Hl|];
  rewrite Ht; unfold pending;
  cbn [current_ak2 current_ak3_segments current_ak4_segments
       transaction_validations next_AK5 loop_segments is_AK2_or_AK5
       loops_by_first_AK5 ak3_of ak4_of omap as_AK3 as_AK4];
  reflexivity.

Lemma loop_calls (all rest pre : list Segment) (st : Locals Call) :
  all = pre ++ rest ->
  List.NoDup (ak2_of all) ->
  lookahead_ok all st rest ->
  exists st',
    loop mkCall all st rest = Ok st'
    /\ transaction_validations st'
       = transaction_validations st ++ pending st rest ++ loops_by_first_AK5 rest.
Proof.
  revert pre st; induction rest as [|seg rest IH]; intros pre st Hall Hnd Hla.
  - exists st. split; [reflexivity|].
    unfold pending. destruct (current_ak2 st); simpl; rewrite app_nil_r; reflexivity.
  - assert (Hall' : all = (pre ++ [seg]) ++ rest)
      by (rewrite <- app_assoc; exact Hall).
    destruct st as [i a1 a9 tvs cur c3 c4].
    assert (Hkeep : is_AK2_or_AK5 seg = false ->
      lookahead_ok all (@mkLocals Call i a1 a9 tvs cur c3 c4) (seg :: rest) ->
      forall i' a1' a9' c3' c4',
        lookahead_ok all (@mkLocals Call i' a1' a9' tvs cur c3' c4') rest).
    { intros Hseg H i' a1' a9' c3' c4' a Ha.
      destruct (H a Ha) as (k & Hk & Hn). exists k. split; [exact Hk|].
      rewrite Hn. destruct seg; try reflexivity; discriminate Hseg. }
    unfold pending; cbn [current_ak2 current_ak3_segments current_ak4_segments
                         transaction_validations].
    destruct seg as [s|s|s|s|b|s|s|x|s|s|s|s];
      cbn [loop loop_body bind isa ak1 ak9 current_ak2 current_ak3_segments
           current_ak4_segments transaction_validations].
    + (* ISA *) passes_over IH (pre ++ [ISA s]) Hall' Hnd (Hkeep eq_refl Hla (Some s) a1 a9 c3 c4).
    + (* GS *) passes_over IH (pre ++ [GS s]) Hall' Hnd (Hkeep eq_refl Hla i a1 a9 c3 c4).
    + (* ST *) passes_over IH (pre ++ [ST s]) Hall' Hnd (Hkeep eq_refl Hla i a1 a9 c3 c4).
    + (* AK1 *) passes_over IH (pre ++ [AK1 s]) Hall' Hnd (Hkeep eq_refl Hla i (Some s) a9 c3 c4).
    + (* AK2 b *)
      assert (Hnew : forall tvs',
                lookahead_ok all (@mkLocals Call i a1 a9 tvs' (Some b) [] []) rest).
      { intros tvs' a Ha. cbn in Ha. injection Ha as <-.
        exists (length pre). rewrite Hall.
        destruct (index_first (AK2 b) pre rest) as [-> ->];
          [apply (fresh_AK2 pre rest); rewrite <- Hall; exact Hnd|].
        split; reflexivity. }
      assert (Hbody : exists tvs',
        (do transaction_validations' <-
           match cur with
           | Some open_ak2 =>
               do k <- index (AK2 open_ak2) all in
               match next_AK5 (skipn k all) with
               | Some ak5 => Ok (tvs ++ [mkCall open_ak2 ak5 c3 c4])
               | None => Ok tvs
               end
           | None => Ok tvs
           end in
         Ok (@mkLocals Call i a1 a9 transaction_validations' (Some b) [] []))
        = Ok (@mkLocals Call i a1 a9 tvs' (Some b) [] [])
        /\ tvs' = tvs ++ match cur, next_AK5 rest with
                         | Some a, Some x => [mkCall a x c3 c4]
                         | _, _ => []
                         end).
      { destruct cur as [a|].
        - destruct (Hla a eq_refl) as (k & Hk & Hn).
          rewrite Hk. cbn [bind]. rewrite Hn. cbn [next_AK5].
          destruct (next_AK5 rest); eexists; split; try reflexivity.
          rewrite app_nil_r; reflexivity.
        - eexists; split; [reflexivity|]. rewrite app_nil_r; reflexivity. }
      destruct Hbody as (tvs' & Hbody & Htvs').
      destruct (IH (pre ++ [AK2 b]) _ Hall' Hnd (Hnew tvs')) as (st' & Hl & Ht).
      exists st'. split.
      * rewrite Hbody. cbn [bind]. exact Hl.
      * rewrite Ht, Htvs'. unfold pending.
        cbn [current_ak2 current_ak3_segments current_ak4_segments
             transaction_validations next_AK5 loop_segments is_AK2_or_AK5
             loops_by_first_AK5 ak3_of ak4_of omap app].
        unfold closing.
        destruct cur as [a|], (next_AK5 rest) as [x|];
          cbn [app]; rewrite <- ?app_assoc, ?app_nil_r; reflexivity.
    + (* AK3 s *)
      edestruct (IH (pre ++ [_]) _ Hall' Hnd (Hkeep eq_refl Hla i a1 a9 (c3 ++ [s]) c4))
        as (st' & Hl & Ht).
      exists st'; split; [exact Hl|].
      rewrite Ht. unfold pending.
      cbn [current_ak2 current_ak3_segments current_ak4_segments
           transaction_validations next_AK5 loop_segments is_AK2_or_AK5
           loops_by_first_AK5 ak3_of ak4_of omap as_AK3 as_AK4].
      rewrite <- !app_assoc. reflexivity.
    + (* AK4 s *)
      edestruct (IH (pre ++ [_]) _ Hall' Hnd (Hkeep eq_refl Hla i a1 a9 c3 (c4 ++ [s])))
        as (st' & Hl & Ht).
      exists st'; split; [exact Hl|].
      rewrite Ht. unfold pending.
      cbn [current_ak2 current_ak3_segments current_ak4_segments
           transaction_validations next_AK5 loop_segments is_AK2_or_AK5
           loops_by_first_AK5 ak3_of ak4_of omap as_AK3 as_AK4].
      rewrite <- !app_assoc. reflexivity.
    + (* AK5 x *)
      destruct cur as [a|].
      * edestruct (IH (pre ++ [AK5 x])
                     (@mkLocals Call i a1 a9 (tvs ++ [mkCall a x c3 c4]) None [] [])
                     Hall' Hnd) as (st' & Hl & Ht).
        { intros a' Ha'; discriminate Ha'. }
        exists st'; split; [exact Hl|].
        rewrite Ht. unfold pending.
        cbn [current_ak2 current_ak3_segments current_ak4_segments
             transaction_validations next_AK5 loop_segments is_AK2_or_AK5
             loops_by_first_AK5 ak3_of ak4_of omap app].
        rewrite !app_nil_r, <- app_assoc. reflexivity.
      * edestruct (IH (pre ++ [AK5 x])
                     (@mkLocals Call i a1 a9 tvs None c3 c4)
                     Hall' Hnd) as (st' & Hl & Ht).
        { intros a' Ha'; discriminate Ha'. }
        exists st'; split; [exact Hl|].
        rewrite Ht. unfold pending.
        cbn [current_ak2 transaction_validations loops_by_first_AK5 app].
        reflexivity.
    + (* AK9 *) passes_over IH (pre ++ [AK9 s]) Hall' Hnd (Hkeep eq_refl Hla i a1 (Some s) c3 c4).
    + (* SE *) passes_over IH (pre ++ [SE s]) Hall' Hnd (Hkeep eq_refl Hla i a1 a9 c3 c4).
    + (* GE *) passes_over IH (pre ++ [GE s]) Hall' Hnd (Hkeep eq_refl Hla i a1 a9 c3 c4).
    + (* IEA *) passes_over IH (pre ++ [IEA s]) Hall' Hnd (Hkeep eq_refl Hla i a1 a9 c3 c4).
Qed.


Lemma scan_calls (segs : list Segment) :
  List.NoDup (ak2_of segs) ->
  finalizations segs = Ok (loops_by_first_AK5 segs).
Proof.
  intros Hnd. unfold finalizations, scan.
  destruct (loop_calls segs segs [] (initial (V := Call)) eq_refl Hnd)
    as (st' & Hl & Ht).
  - intros a Ha; discriminate Ha.
  - rewrite Hl. cbn [bind]. rewrite Ht. reflexivity.
Qed.

(** The calls of the loop do not depend on the validator: its
    validations are the calls, validated. *)
Section Naturality.

Context {V : Type}.
Variable validate : AK2Segment.t -> AK5Segment.t -> list AK3Segment.t
                    -> list AK4Segment.t -> V.

Definition apply_call (c : Call) : V :=
  validate (call_ak2 c) (call_ak5 c) (call_ak3_segments c) (call_ak4_segments c).

Definition validated_locals (st : Locals Call) : Locals V :=
  {| isa := isa st; ak1 := ak1 st; ak9 := ak9 st;
     transaction_validations := map apply_call (transaction_validations st);
     current_ak2 := current_ak2 st;
     current_ak3_segments := current_ak3_segments st;
     current_ak4_segments := current_ak4_segments st |}.

Lemma loop_body_validated (all : list Segment) (st : Locals Call) (seg : Segment) :
  loop_body validate all (validated_locals st) seg
  = do st' <- loop_body mkCall all st seg in Ok (validated_locals st').
Proof.
  destruct st as [i a1 a9 tvs cur c3 c4].
  destruct seg; try reflexivity; unfold validated_locals; cbn.
  - destruct cur as [a|]; [|reflexivity]. cbn.
    destruct (index (AK2 a) all) as [k|e]; [|reflexivity]. cbn.
    destruct (next_AK5 (skipn k all)); cbn; [rewrite map_app|]; reflexivity.
  - destruct cur as [a|]; cbn; [rewrite map_app|]; reflexivity.
Qed.

Lemma loop_validated (all : list Segment) (st : Locals Call) (rest : list Segment) :
  loop validate all (validated_locals st) rest
  = do st' <- loop mkCall all st rest in Ok (validated_locals st').
Proof.
  revert st; induction rest as [|seg rest IH]; intros st; [reflexivity|].
  cbn [loop]. rewrite loop_body_validated.
  destruct (loop_body mkCall all st seg) as [st1|e]; [|reflexivity].
  cbn [bind]. apply IH.
Qed.

Lemma scan_validated (segs : list Segment) :
  scan validate segs
  = do st' <- scan mkCall segs in Ok (validated_locals st').
Proof. apply (loop_validated segs (initial (V := Call)) segs). Qed.

End Naturality.

Lemma finalized_ak2_sublist (segs : list Segment) :
  sublist (map call_ak2 (loops_by_first_AK5 segs)) (ak2_of segs).
Proof.
  induction segs as [|seg segs IH]; [constructor|].
  destruct seg; cbn; try exact IH.
  unfold closing. destruct (next_AK5 segs); cbn; constructor; exact IH.
Qed.

(** C1, as the code has it.  On a segment list whose AK2 segments are
    pairwise distinct, the loop finalizes an AK2 exactly when an AK5
    occurs after it: once, with the first AK5 after it, and with the
    AK3 and AK4 segments seen between it and the next AK2 or AK5.  An
    AK2 that no AK5 follows is not finalized, no AK2 is finalized
    twice, and the validations of the pipeline are these
    finalizations in the order of their AK2 segments.  (One AK5 may
    close several loops: every AK2 since the AK5 before it.) *)
Theorem loops_closed_by_first_AK5 (segs : list Segment) :
  List.NoDup (ak2_of segs) ->
  finalizations segs = Ok (loops_by_first_AK5 segs)
  /\ List.NoDup (map call_ak2 (loops_by_first_AK5 segs))
  /\ (forall validator,
        exists st,
          scan (Validator997.validate_transaction_set validator) segs = Ok st
          /\ transaction_validations st
             = map (apply_call (Validator997.validate_transaction_set validator))
                 (loops_by_first_AK5 segs)).
Proof.
  intros Hnd. pose proof (scan_calls segs Hnd) as Hcalls.
  split; [exact Hcalls|split].
  - apply NoDup_ListNoDup.
    apply (sublist_NoDup _ (ak2_of segs));
      [apply NoDup_ListNoDup; exact Hnd|apply finalized_ak2_sublist].
  - intros validator. rewrite scan_validated.
    unfold finalizations in Hcalls.
    destruct (scan mkCall segs) as [st|e]; [|discriminate Hcalls].
    cbn in Hcalls. injection Hcalls as Hcalls.
    eexists; split; [reflexivity|]. cbn. rewrite Hcalls. reflexivity.
Qed.

Lemma loops_closed_by_first_AK5_witness :
  let a := AK2Segment.mk "850" "0001" None in
  let b := AK2Segment.mk "850" "0002" None in
  let p := AK3Segment.mk "N1" 2 None (Some "8") in
  let q := AK4Segment.mk 1 (Some 66%Z) "1" None in
  let x := AK5Segment.mk "R" (Some "5") None None None None in
  let y := AK5Segment.mk "A" None None None None None in
  finalizations [AK2 a; AK3 p; AK4 q; AK5 x; AK2 b; AK5 y]
  = Ok [mkCall a x [p] [q]; mkCall b y [] []].
Proof.
  apply (loops_closed_by_first_AK5
           [AK2 (AK2Segment.mk "850" "0001" None);
            AK3 (AK3Segment.mk "N1" 2 None (Some "8"));
            AK4 (AK4Segment.mk 1 (Some 66%Z) "1" None);
            AK5 (AK5Segment.mk "R" (Some "5") None None None None);
            AK2 (AK2Segment.mk "850" "0002" None);
            AK5 (AK5Segment.mk "A" None None None None None)]).
  cbn. repeat constructor; cbn; intuition discriminate.
Defined.

(** C1 as stated fails.  In AK2 0001, AK2 0002, AK5 the one AK5
    closes both loops; in AK2 0001, AK5, AK2 0002 the second AK2 is
    never finalized. *)
Lemma one_AK5_closes_two_loops :
  let a := AK2Segment.mk "850" "0001" None in
  let b := AK2Segment.mk "850" "0002" None in
  let x := AK5Segment.mk "A" None None None None None in
  finalizations [AK2 a; AK2 b; AK5 x] = Ok [mkCall a x [] []; mkCall b x [] []]
  /\ finalizations [AK2 a; AK5 x; AK2 b] = Ok [mkCall a x [] []].
Proof. split; reflexivity. Qed.

(** With a repeated AK2 segment the look-ahead starts at its first
    occurrence: the second 0001 below is closed with the AK5 that
    precedes it. *)
Example repeated_AK2_looks_back :
  let a := AK2Segment.mk "850" "0001" None in
  let b := AK2Segment.mk "850" "0002" None in
  let x := AK5Segment.mk "A" None None None None None in
  let y := AK5Segment.mk "R" None None None None None in
  finalizations [AK2 a; AK5 x; AK2 a; AK2 b; AK5 y]
  = Ok [mkCall a x [] []; mkCall a x [] []; mkCall b y [] []].
Proof. reflexivity. Qed.

End LoopClosing.

(** * Further properties of the core *)

(** ** Delimiter detection, continued *)

Section DetectionMore.

Lemma detect_from_isa_inv (self : DelimiterDetector.t) (header : text)
    (d : Delimiters.t) :
  DelimiterDetector.detect_from_isa self header = Ok d ->
  startswith (strip header) (lit "ISA") = true
  /\ 106 <= length (strip header)
  /\ getitem (strip header) 3 = Ok (Delimiters.element d)
  /\ getitem_last (strip header) = Ok (Delimiters.segment d)
  /\ getitem (strip header) 104 = Ok (Delimiters.sub_element d)
  /\ Delimiters.repetition d = None
  /\ Delimiters.element d <> Delimiters.segment d
  /\ Delimiters.element d <> Delimiters.sub_element d
  /\ Delimiters.segment d <> Delimiters.sub_element d.
Proof.
  unfold DelimiterDetector.detect_from_isa.
  destruct (is_empty header); [discriminate|].
  change DelimiterDetector.ISA_PREFIX with (lit "ISA").
  destruct (startswith (strip header) (lit "ISA")); [|discriminate].
  cbn [negb].
  destruct (Nat.ltb_spec (length (strip header)) DelimiterDetector.ISA_MIN_LENGTH)
    as [|Hlen]; [discriminate|].
  unfold DelimiterDetector.ELEMENT_SEPARATOR_POSITION,
    DelimiterDetector.SUB_ELEMENT_SEPARATOR_POSITION.
  destruct (getitem (strip header) 3) as [e|[]]; try discriminate.
  destruct (getitem_last (strip header)) as [s|[]]; try discriminate.
  destruct (getitem (strip header) 104) as [b|[]]; try discriminate.
  cbn [bind length].
  destruct (Nat.eqb_spec (len_set [e; s; b]) 3) as [E|]; [|discriminate].
  cbn. intros H; injection H as <-. cbn.
  apply len_set_three in E.
  unfold DelimiterDetector.ISA_MIN_LENGTH in Hlen. tauto.
Qed.

Lemma detect_from_isa_cases (self : DelimiterDetector.t) (header : text) :
  DelimiterDetector.detect_from_isa self header = Raise InvalidISASegmentError
  \/ DelimiterDetector.detect_from_isa self header = Raise DelimiterDetectionError
  \/ exists d, DelimiterDetector.detect_from_isa self header = Ok d.
Proof.
  unfold DelimiterDetector.detect_from_isa.
  destruct (is_empty header); [tauto|].
  destruct (negb _); [tauto|].
  destruct (Nat.ltb_spec (length (strip header)) DelimiterDetector.ISA_MIN_LENGTH)
    as [|Hlen]; [tauto|].
  unfold DelimiterDetector.ISA_MIN_LENGTH in Hlen.
  unfold DelimiterDetector.ELEMENT_SEPARATOR_POSITION,
    DelimiterDetector.SUB_ELEMENT_SEPARATOR_POSITION.
  rewrite (getitem_nth (strip header) 3 Ascii.zero) by lia.
  rewrite (getitem_nth (strip header) 104 Ascii.zero) by lia.
  rewrite (getitem_last_last (strip header) Ascii.zero)
    by (intros E; rewrite E in Hlen; simpl in Hlen; lia).
  cbn [bind]. destruct (negb _); cbn; eauto.
Qed.

Lemma detect_from_isa_errors (self : DelimiterDetector.t) (header : text)
    (e : Exception) :
  DelimiterDetector.detect_from_isa self header = Raise e ->
  e = InvalidISASegmentError \/ e = DelimiterDetectionError.
Proof.
  destruct (detect_from_isa_cases self header) as [->|[->|(d & ->)]];
    intros H; [injection H as <-; tauto|injection H as <-; tauto|discriminate H].
Qed.

(** The header [detect_from_file_content] cuts out of the content. *)
Definition isa_segment_of (content : text) : text :=
  match DelimiterDetector.first_terminated content
          DelimiterDetector.common_terminators with
  | Some s => if is_empty s then
                (if contains LF content then hd [] (split LF content)
                 else firstn (DelimiterDetector.ISA_MIN_LENGTH + 10) content)
              else s
  | None =>
      if contains LF content then hd [] (split LF content)
      else firstn (DelimiterDetector.ISA_MIN_LENGTH + 10) content
  end.

Lemma detect_from_file_content_unfold (self : DelimiterDetector.t) (content : text) :
  DelimiterDetector.detect_from_file_content self content
  = if startswith (strip content) (lit "ISA")
    then DelimiterDetector.detect_from_isa self (isa_segment_of (strip content))
    else Raise InvalidISASegmentError.
Proof.
  unfold DelimiterDetector.detect_from_file_content, isa_segment_of.
  change DelimiterDetector.ISA_PREFIX with (lit "ISA").
  destruct content as [|c content]; [reflexivity|]. cbn [is_empty].
  destruct (startswith (strip (c :: content)) (lit "ISA")); [|reflexivity].
  cbn [negb].
  destruct (DelimiterDetector.first_terminated _ _) as [s|]; [|reflexivity].
  destruct (is_empty s); reflexivity.
Qed.

Definition printable (c : ascii) : bool := (32 <=? ord c) && (ord c <=? 126).

(** X1. Whatever [detect_from_isa] or [detect_from_file_content]
    returns has three pairwise distinct separators and no repetition
    separator, and [validate_delimiters] accepts it exactly when the
    three separators are printable ASCII. *)
Theorem detected_delimiters_distinct (self : DelimiterDetector.t) (input : text)
    (d : Delimiters.t) :
  DelimiterDetector.detect_from_isa self input = Ok d
  \/ DelimiterDetector.detect_from_file_content self input = Ok d ->
  Delimiters.element d <> Delimiters.segment d
  /\ Delimiters.element d <> Delimiters.sub_element d
  /\ Delimiters.segment d <> Delimiters.sub_element d
  /\ Delimiters.repetition d = None
  /\ (DelimiterDetector.validate_delimiters self d = true <->
      printable (Delimiters.element d) = true
      /\ printable (Delimiters.segment d) = true
      /\ printable (Delimiters.sub_element d) = true).
Proof.
  intros H.
  assert (exists header, DelimiterDetector.detect_from_isa self header = Ok d)
    as (header & Hd).
  { destruct H as [H|H]; [eauto|].
    rewrite detect_from_file_content_unfold in H.
    destruct (startswith _ _); [eauto|discriminate]. }
  apply detect_from_isa_inv in Hd as (_ & _ & _ & _ & _ & Hr & Hes & Heb & Hsb).
  repeat (split; [assumption|]).
  unfold DelimiterDetector.validate_delimiters. rewrite Hr.
  assert (len_set [Delimiters.element d; Delimiters.segment d;
                   Delimiters.sub_element d] = 3) as ->
    by (apply len_set_three; tauto).
  cbn [length Nat.eqb negb forallb]. fold (printable (Delimiters.element d)).
  fold (printable (Delimiters.segment d)) (printable (Delimiters.sub_element d)).
  destruct (printable (Delimiters.element d)),
    (printable (Delimiters.segment d)), (printable (Delimiters.sub_element d));
    cbn; intuition discriminate.
Qed.

Lemma detected_delimiters_distinct_witness :
  let d := {| Delimiters.element := "*"%char; Delimiters.segment := "~"%char;
              Delimiters.sub_element := ">"%char; Delimiters.repetition := None |} in
  Delimiters.element d <> Delimiters.segment d
  /\ Delimiters.element d <> Delimiters.sub_element d
  /\ Delimiters.segment d <> Delimiters.sub_element d
  /\ Delimiters.repetition d = None
  /\ (DelimiterDetector.validate_delimiters (DelimiterDetector.init None) d = true <->
      printable (Delimiters.element d) = true
      /\ printable (Delimiters.segment d) = true
      /\ printable (Delimiters.sub_element d) = true).
Proof.
  apply (detected_delimiters_distinct (DelimiterDetector.init None)
           (lit "ISA*00*          *00*          *ZZ*SENDER         *ZZ*RECEIVER       *230101*1200*U*00401*000000001*0*P*>~GS*FA~")).
  right. vm_compute. reflexivity.
Defined.

Lemma lstrip_snoc (s : text) (c : ascii) :
  isspace c = false -> exists y, lstrip (s ++ [c]) = y ++ [c].
Proof.
  intros Hc. induction s as [|x s IH]; simpl.
  - rewrite Hc. exists []. reflexivity.
  - destruct (isspace x); [exact IH|]. exists (x :: s). reflexivity.
Qed.

Lemma strip_snoc (s : text) (c : ascii) :
  isspace c = false -> exists y, strip (s ++ [c]) = y ++ [c].
Proof.
  intros Hc. unfold strip, rstrip.
  destruct (lstrip_snoc s c Hc) as (y & ->). exists y.
  rewrite rev_app_distr. cbn. rewrite Hc. cbn. rewrite rev_involutive. reflexivity.
Qed.

Lemma getitem_last_snoc {A : Type} (y : list A) (c : A) :
  getitem_last (y ++ [c]) = Ok c.
Proof. unfold getitem_last. rewrite rev_app_distr. reflexivity. Qed.

Lemma first_terminated_Some (content : text) (t : ascii) (before : list ascii) :
  Forall (fun u => contains u content = false) before ->
  contains t content = true ->
  forall after,
  DelimiterDetector.first_terminated content (before ++ t :: after)
  = Some (hd [] (split t content) ++ [t]).
Proof.
  intros Hb Ht after. induction Hb as [|u before Hu _ IH]; simpl.
  - rewrite Ht. reflexivity.
  - rewrite Hu. exact IH.
Qed.

(** X2. When detection from file content succeeds, the segment
    terminator is the first of [~], [!] and [|] that occurs anywhere
    in the trimmed content, whatever the header holds at its end. *)
Theorem detected_terminator_is_first_common (self : DelimiterDetector.t)
    (content : text) (d : Delimiters.t) :
  DelimiterDetector.detect_from_file_content self content = Ok d ->
  let c := strip content in
  (contains "~"%char c = true -> Delimiters.segment d = "~"%char)
  /\ (contains "~"%char c = false -> contains "!"%char c = true ->
      Delimiters.segment d = "!"%char)
  /\ (contains "~"%char c = false -> contains "!"%char c = false ->
      contains "|"%char c = true -> Delimiters.segment d = "|"%char).
Proof.
  intros H c. rewrite detect_from_file_content_unfold in H. fold c in H.
  destruct (startswith c (lit "ISA")); [|discriminate].
  assert (G : forall t before after,
    DelimiterDetector.common_terminators = before ++ t :: after ->
    isspace t = false ->
    Forall (fun u => contains u c = false) before ->
    contains t c = true -> Delimiters.segment d = t).
  { intros t before after Hct Hsp Hb Ht.
    unfold isa_segment_of in H. rewrite Hct in H.
    rewrite (first_terminated_Some c t before Hb Ht) in H.
    destruct (hd [] (split t c) ++ [t]) as [|x l] eqn:E;
      [destruct (hd [] (split t c)); discriminate E|].
    cbn [is_empty] in H. rewrite <- E in H.
    apply detect_from_isa_inv in H as (_ & _ & _ & Hlast & _).
    destruct (strip_snoc (hd [] (split t c)) t Hsp) as (y & Hy).
    rewrite Hy, getitem_last_snoc in Hlast. congruence. }
  split; [|split].
  - intros H1. apply (G "~"%char [] ["!"%char; "|"%char]); auto.
  - intros H1 H2. apply (G "!"%char ["~"%char] ["|"%char]); auto.
  - intros H1 H2 H3. apply (G "|"%char ["~"%char; "!"%char] []); auto.
Qed.

Lemma detected_terminator_is_first_common_witness :
  exists d,
    DelimiterDetector.detect_from_file_content (DelimiterDetector.init None)
      (lit "ISA|00|          |00|          |ZZ|SENDER         |ZZ|RECEIVER       |230101|1200|U|00401|000000001|0|P|:!GS|FA~1!")
    = Ok d
    /\ Delimiters.segment d = "~"%char.
Proof.
  eexists. split; [vm_compute; reflexivity|].
  apply (detected_terminator_is_first_common (DelimiterDetector.init None)
           (lit "ISA|00|          |00|          |ZZ|SENDER         |ZZ|RECEIVER       |230101|1200|U|00401|000000001|0|P|:!GS|FA~1!"));
    vm_compute; reflexivity.
Defined.

(** X3. [to_config] and [from_config] are inverse on configurations,
    and on delimiters up to the repetition separator, which
    [to_config] fills with [^] when it is missing. *)
Theorem delimiters_config_round_trip (config : DelimitersConfig.t) (d : Delimiters.t) :
  Delimiters.to_config (Delimiters.from_config config) = config
  /\ Delimiters.from_config (Delimiters.to_config d)
     = {| Delimiters.element := Delimiters.element d;
          Delimiters.segment := Delimiters.segment d;
          Delimiters.sub_element := Delimiters.sub_element d;
          Delimiters.repetition :=
            Some (match Delimiters.repetition d with
                  | Some r => r
                  | None => "^"%char
                  end) |}
  /\ (Delimiters.from_config (Delimiters.to_config d) = d <->
      Delimiters.repetition d <> None).
Proof.
  destruct config, d as [e s b [r|]]; cbn.
  - split; [reflexivity|split; [reflexivity|]].
    split; [discriminate|reflexivity].
  - split; [reflexivity|split; [reflexivity|]].
    split; intros H; [discriminate H|exfalso; apply H; reflexivity].
Qed.

End DetectionMore.

(** ** Splitting and joining *)

Section SplitJoin.

(** [sep.join(parts)] for a one-character separator *)
Fixpoint join_text (sep : ascii) (parts : list text) : text :=
  match parts with
  | [] => []
  | [part] => part
  | part :: rest => part ++ sep :: join_text sep rest
  end.

Lemma join_split (sep : ascii) (s : text) : join_text sep (split sep s) = s.
Proof.
  induction s as [|c s IH]; [reflexivity|]. cbn [split].
  pose proof (split_not_nil sep s) as Hne.
  destruct (Ascii.eqb_spec c sep) as [->|_].
  - destruct (split sep s) as [|p ps]; [contradiction|].
    change (join_text sep ([] :: p :: ps)) with ([] ++ sep :: join_text sep (p :: ps)).
    rewrite IH. reflexivity.
  - destruct (split sep s) as [|p ps]; [contradiction|].
    destruct ps as [|q ps].
    + cbn in IH. cbn. rewrite IH. reflexivity.
    + change (join_text sep ((c :: p) :: q :: ps))
        with (c :: (p ++ sep :: join_text sep (q :: ps))).
      change (join_text sep (p :: q :: ps))
        with (p ++ sep :: join_text sep (q :: ps)) in IH.
      rewrite IH. reflexivity.
Qed.

Lemma split_no_sep_id (sep : ascii) (s : text) :
  ~ In sep s -> split sep s = [s].
Proof.
  induction s as [|c s IH]; [reflexivity|]. intros Hn. cbn [split].
  destruct (Ascii.eqb_spec c sep) as [->|_]; [exfalso; apply Hn; left; reflexivity|].
  rewrite IH by (intros H; apply Hn; right; exact H). reflexivity.
Qed.

Lemma split_app_sep (sep : ascii) (p rest : text) :
  ~ In sep p -> split sep (p ++ sep :: rest) = p :: split sep rest.
Proof.
  induction p as [|c p IH]; intros Hn; cbn [app split].
  - rewrite Ascii.eqb_refl. reflexivity.
  - destruct (Ascii.eqb_spec c sep) as [->|_]; [exfalso; apply Hn; left; reflexivity|].
    rewrite IH by (intros H; apply Hn; right; exact H). reflexivity.
Qed.

Lemma split_join (sep : ascii) (parts : list text) :
  parts <> [] -> Forall (fun part => ~ In sep part) parts ->
  split sep (join_text sep parts) = parts.
Proof.
  intros Hne Hf. induction Hf as [|p parts Hp Hf IH]; [contradiction|].
  destruct parts as [|q parts].
  - cbn. apply split_no_sep_id, Hp.
  - change (join_text sep (p :: q :: parts))
      with (p ++ sep :: join_text sep (q :: parts)).
    rewrite split_app_sep by exact Hp.
    rewrite IH by discriminate. reflexivity.
Qed.

End SplitJoin.

(** ** Tokenization, continued *)

Section TokenizationMore.

(** A document written segment by segment, each followed by the
    terminator. *)
Definition terminated (terminator : ascii) (segments : list text) : text :=
  concat (map (fun segment => segment ++ [terminator]) segments).

Lemma split_terminated (t : ascii) (segments : list text) :
  Forall (fun segment => ~ In t segment) segments ->
  split t (terminated t segments) = segments ++ [[]].
Proof.
  unfold terminated. induction 1 as [|s segments Hs _ IH]; [reflexivity|].
  cbn [map concat app]. rewrite <- app_assoc. cbn [app].
  rewrite split_app_sep by exact Hs. rewrite IH. reflexivity.
Qed.

Lemma filter_id {A : Type} (p : A -> bool) (l : list A) :
  forallb p l = true -> filter p l = l.
Proof.
  induction l as [|x l IH]; [reflexivity|]. cbn.
  destruct (p x); [|discriminate]. intros H. rewrite IH by exact H. reflexivity.
Qed.

(** X4. Writing segments out with the terminator and tokenizing the
    result gives the segments back, provided each is non-empty, free
    of the terminator and (when trimming is on) free of surrounding
    whitespace, the document is not blank and, unless line breaks are
    preserved, it holds no line-break character. *)
Theorem tokenize_terminated (self : EDITokenizer.t) (d : Delimiters.t)
    (segments : list text) :
  let content := terminated (Delimiters.segment d) segments in
  Forall (fun segment =>
            segment <> [] /\ ~ In (Delimiters.segment d) segment
            /\ (ParserConfig.trim_whitespace (EDITokenizer.config self) = true ->
                strip segment = segment))
    segments ->
  forallb isspace content = false ->
  ParserConfig.preserve_line_breaks (EDITokenizer.config self) = true
  \/ forallb not_line_break content = true ->
  EDITokenizer.tokenize_content self content (Some d) = Ok segments.
Proof.
  intros content Hsegs Hblank Hlb.
  rewrite tokenize_content_unfold, Hblank. cbn [delimiters_used].
  assert ((if ParserConfig.preserve_line_breaks (EDITokenizer.config self)
           then content else filter not_line_break content) = content) as ->.
  { destruct Hlb as [->|H]; [reflexivity|].
    rewrite (filter_id _ _ H). destruct (ParserConfig.preserve_line_breaks _); reflexivity. }
  unfold content. rewrite split_terminated
    by (eapply Forall_impl; [|exact Hsegs]; cbn; tauto).
  rewrite map_app, filter_app. cbn [map filter].
  assert (is_empty (if ParserConfig.trim_whitespace (EDITokenizer.config self)
                    then strip [] else []) = true) as ->
    by (destruct (ParserConfig.trim_whitespace _); reflexivity).
  cbn [negb]. rewrite app_nil_r. f_equal.
  clear Hblank Hlb. clear content.
  induction Hsegs as [|s segs (Hne & _ & Hst) _ IH]; [reflexivity|].
  cbn [map filter].
  assert ((if ParserConfig.trim_whitespace (EDITokenizer.config self)
           then strip s else s) = s) as ->
    by (destruct (ParserConfig.trim_whitespace _); [apply Hst; reflexivity|reflexivity]).
  destruct s; [contradiction|]. cbn [is_empty negb]. rewrite IH. reflexivity.
Qed.

Lemma tokenize_terminated_witness :
  let self := EDITokenizer.init None None in
  let d := DelimiterDetector.use_default_delimiters (EDITokenizer.delimiter_detector self) in
  EDITokenizer.tokenize_content self (lit "ST*997*0001~AK1*PO*1234~") (Some d)
  = Ok [lit "ST*997*0001"; lit "AK1*PO*1234"].
Proof.
  apply (tokenize_terminated (EDITokenizer.init None None)
           (DelimiterDetector.use_default_delimiters
              (EDITokenizer.delimiter_detector (EDITokenizer.init None None)))
           [lit "ST*997*0001"; lit "AK1*PO*1234"]).
  - repeat constructor; try discriminate; cbn; intuition discriminate.
  - reflexivity.
  - right. reflexivity.
Defined.

Lemma detect_not_blank (self : DelimiterDetector.t) (content : text)
    (d : Delimiters.t) :
  DelimiterDetector.detect_from_file_content self content = Ok d ->
  forallb isspace content = false.
Proof.
  rewrite detect_from_file_content_unfold. intros H.
  rewrite <- is_empty_strip.
  destruct (strip content); [discriminate H|reflexivity].
Qed.

(** X5. Content on which delimiter detection succeeds is never
    rejected by the tokenizer: with the detected delimiters, or with
    none given and auto-detection on, [tokenize_content] returns
    segments, and both calls return the same ones when the tokenizer
    uses that detector. *)
Theorem detected_content_tokenizes (self : EDITokenizer.t) (content : text)
    (d : Delimiters.t) :
  DelimiterDetector.detect_from_file_content (EDITokenizer.delimiter_detector self)
    content = Ok d ->
  (exists segments,
     EDITokenizer.tokenize_content self content (Some d) = Ok segments)
  /\ (ParserConfig.auto_detect_delimiters (EDITokenizer.config self) = true ->
      EDITokenizer.tokenize_content self content None
      = EDITokenizer.tokenize_content self content (Some d)).
Proof.
  intros Hd. pose proof (detect_not_blank _ _ _ Hd) as Hb. split.
  - rewrite tokenize_content_unfold, Hb. eauto.
  - intros Hauto. rewrite !tokenize_content_unfold.
    unfold delimiters_used. rewrite Hauto, Hd. reflexivity.
Qed.

Lemma detected_content_tokenizes_witness :
  let self := EDITokenizer.init None None in
  let content :=
    lit "ISA*00*          *00*          *ZZ*SENDER         *ZZ*RECEIVER       *230101*1200*U*00401*000000001*0*P*>~GS*FA~" in
  exists segments, EDITokenizer.tokenize_content self content None = Ok segments.
Proof.
  destruct (detected_content_tokenizes (EDITokenizer.init None None)
    (lit "ISA*00*          *00*          *ZZ*SENDER         *ZZ*RECEIVER       *230101*1200*U*00401*000000001*0*P*>~GS*FA~")
    {| Delimiters.element := "*"%char; Delimiters.segment := "~"%char;
       Delimiters.sub_element := ">"%char; Delimiters.repetition := None |})
    as [(segments & Hs) Hsame]; [vm_compute; reflexivity|].
  exists segments. rewrite <- Hs. apply Hsame. reflexivity.
Defined.

(** X6. [get_segment_count] and [extract_isa_segment] never fail: on
    blank content they return 0 and nothing; otherwise the count is
    the number of segments [tokenize_content] returns, and an
    extracted segment is one of them, starts with ISA and is preceded
    only by segments that do not. *)
Theorem tokenizer_helpers_absorb_errors (self : EDITokenizer.t) (content : text) :
  (forallb isspace content = true ->
   EDITokenizer.get_segment_count self content = 0
   /\ EDITokenizer.extract_isa_segment self content = None)
  /\ (forall segments,
        EDITokenizer.tokenize_content self content None = Ok segments ->
        EDITokenizer.get_segment_count self content = length segments
        /\ (forall isa,
              EDITokenizer.extract_isa_segment self content = Some isa ->
              exists before after,
                segments = before ++ isa :: after
                /\ startswith isa (lit "ISA") = true
                /\ Forall (fun s => startswith s (lit "ISA") = false) before)
        /\ (EDITokenizer.extract_isa_segment self content = None ->
            Forall (fun s => startswith s (lit "ISA") = false) segments)).
Proof.
  unfold EDITokenizer.get_segment_count, EDITokenizer.extract_isa_segment.
  split.
  - intros Hb. rewrite tokenize_content_unfold, Hb. split; reflexivity.
  - intros segments ->. split; [reflexivity|]. split.
    + intros isa. induction segments as [|s segments IH]; [discriminate|].
      cbn [List.find]. destruct (startswith s (lit "ISA")) eqn:E.
      * intros H; injection H as <-. exists [], segments. repeat split; auto.
      * intros H. destruct (IH H) as (before & after & -> & Hi & Hb).
        exists (s :: before), after. repeat split; auto.
    + induction segments as [|s segments IH]; [constructor|].
      cbn [List.find]. destruct (startswith s (lit "ISA")) eqn:E; [discriminate|].
      intros H. constructor; auto.
Qed.

End TokenizationMore.

(** ** The element parser *)

Section ElementParsing.

Lemma contains_false_iff (c : ascii) (s : text) :
  contains c s = false <-> ~ In c s.
Proof.
  unfold contains. induction s as [|x s IH]; cbn; [tauto|].
  destruct (Ascii.eqb_spec c x) as [->|Hne]; cbn.
  - split; [discriminate|intros H; exfalso; apply H; left; reflexivity].
  - rewrite IH. split; [intros H [E|E]; [congruence|contradiction]|tauto].
Qed.

Lemma split_length (sep : ascii) (s : text) :
  length (split sep s) = S (count_occ ascii_dec s sep).
Proof.
  induction s as [|c s IH]; [reflexivity|]. cbn [split count_occ].
  destruct (Ascii.eqb_spec c sep) as [->|Hne].
  - destruct (ascii_dec sep sep); [|contradiction]. cbn. rewrite IH. reflexivity.
  - destruct (ascii_dec c sep); [contradiction|].
    pose proof (split_not_nil sep s).
    destruct (split sep s); [contradiction|]. exact IH.
Qed.

Lemma lstrip_idem (s : text) : lstrip (lstrip s) = lstrip s.
Proof.
  induction s as [|c s IH]; [reflexivity|]. cbn.
  destruct (isspace c) eqn:E; [exact IH|]. cbn. rewrite E. reflexivity.
Qed.

Lemma strip_idem (s : text) : strip (strip s) = strip s.
Proof.
  unfold strip. set (t := lstrip s).
  assert (Ht : lstrip t = t) by apply lstrip_idem.
  assert (Hl : lstrip (rstrip t) = rstrip t).
  { destruct t as [|c t'] eqn:Et; [reflexivity|].
    assert (Hc : isspace c = false) by (apply (lstrip_head s c t'); exact Et).
    unfold rstrip. cbn [rev].
    destruct (lstrip_snoc (rev t') c Hc) as (y & ->).
    rewrite rev_app_distr. cbn. rewrite Hc. reflexivity. }
  rewrite Hl. unfold rstrip. rewrite rev_involutive, lstrip_idem. reflexivity.
Qed.

Lemma getitem_int_nat {A : Type} (l : list A) (n : nat) :
  getitem_int l (Z.of_nat n) = getitem l n.
Proof.
  unfold getitem_int.
  destruct (Z.leb_spec 0 (Z.of_nat n)); [|lia]. rewrite Nat2Z.id. reflexivity.
Qed.

(** X7. [get_element] at a position counted from the start returns
    the element there when it exists and is not empty; a missing and
    an empty element are treated alike: [TokenizationError] when
    required, the default otherwise, and never an empty string.  A
    negative position is not refused: within the list it reads from
    the end, beyond it the [IndexError] of the list escapes. *)
Theorem get_element_spec (self : ElementParser.t) (elements : list text)
    (required : bool) (default : option text) :
  (forall n : nat,
     ElementParser.get_element self elements (Z.of_nat n) required default
     = match nth_error elements n with
       | Some (c :: value) => Ok (Some (c :: value))
       | _ => if required then Raise TokenizationError else Ok default
       end)
  /\ (forall position : Z,
        (- Z.of_nat (length elements) <= position < 0)%Z ->
        ElementParser.get_element self elements position required default
        = ElementParser.get_element self elements
            (Z.of_nat (length elements) + position) required default)
  /\ (forall position : Z,
        (position < - Z.of_nat (length elements))%Z ->
        ElementParser.get_element self elements position required default
        = Raise IndexError).
Proof.
  split; [|split].
  - intros n. unfold ElementParser.get_element. rewrite getitem_int_nat.
    unfold getitem.
    destruct (Z.leb_spec (Z.of_nat (length elements)) (Z.of_nat n)) as [Hge|Hlt].
    + rewrite (proj2 (nth_error_None elements n)) by lia. reflexivity.
    + destruct (nth_error elements n) as [[|c value]|] eqn:E; cbn.
      * destruct required; reflexivity.
      * reflexivity.
      * apply nth_error_None in E. lia.
  - intros position Hp. unfold ElementParser.get_element.
    destruct (Z.leb_spec (Z.of_nat (length elements)) position); [lia|].
    destruct (Z.leb_spec (Z.of_nat (length elements))
                (Z.of_nat (length elements) + position)); [lia|].
    unfold getitem_int.
    destruct (Z.leb_spec 0 position); [lia|].
    destruct (Z.leb_spec (- Z.of_nat (length elements)) position); [|lia].
    destruct (Z.leb_spec 0 (Z.of_nat (length elements) + position)); [|lia].
    reflexivity.
  - intros position Hp. unfold ElementParser.get_element.
    destruct (Z.leb_spec (Z.of_nat (length elements)) position); [lia|].
    unfold getitem_int.
    destruct (Z.leb_spec 0 position); [lia|].
    destruct (Z.leb_spec (- Z.of_nat (length elements)) position); [lia|].
    reflexivity.
Qed.

(** X8. Joining the elements [split_segment] returns gives the segment
    back, and splitting a non-empty join of separator-free elements
    gives the elements back; an empty segment has no element, any
    other one element more than it has separators. *)
Theorem split_segment_join (self : ElementParser.t) :
  let sep := Delimiters.element (ElementParser.delimiters self) in
  (forall segment,
     join_text sep (ElementParser.split_segment self segment) = segment)
  /\ (forall elements,
        Forall (fun element => ~ In sep element) elements ->
        join_text sep elements <> [] ->
        ElementParser.split_segment self (join_text sep elements) = elements)
  /\ (forall segment,
        ElementParser.get_element_count self segment
        = if is_empty segment then 0
          else S (count_occ ascii_dec segment sep)).
Proof.
  intros sep. unfold ElementParser.get_element_count, ElementParser.split_segment.
  fold sep. split; [|split].
  - intros [|c s]; [reflexivity|]. cbn [is_empty]. apply join_split.
  - intros elements Hf Hne.
    destruct (join_text sep elements) as [|c s] eqn:E; [contradiction|].
    cbn [is_empty]. rewrite <- E. apply split_join; [|exact Hf].
    intros ->. discriminate E.
  - intros [|c s]; [reflexivity|]. cbn [is_empty]. apply split_length.
Qed.

Lemma parse_segment_id_unfold (self : ElementParser.t) (segment : text) :
  ElementParser.parse_segment_id self segment
  = (if forallb isspace
          (hd [] (split (Delimiters.element (ElementParser.delimiters self)) segment))
     then Raise TokenizationError
     else Ok (strip (hd [] (split (Delimiters.element (ElementParser.delimiters self))
                              segment)))).
Proof.
  unfold ElementParser.parse_segment_id, ElementParser.split_segment.
  set (sep := Delimiters.element (ElementParser.delimiters self)).
  destruct segment as [|c s]; [reflexivity|]. cbn [is_empty].
  pose proof (split_not_nil sep (c :: s)).
  destruct (split sep (c :: s)) as [|first rest]; [contradiction|].
  cbn [hd]. rewrite is_empty_strip. reflexivity.
Qed.

(** X9. [parse_segment_id] returns the trimmed text before the first
    element separator, and raises [TokenizationError] exactly when
    that text is blank (an empty segment included).  A returned tag is
    not empty, carries no surrounding whitespace and no separator, and
    [validate_segment_id] accepts exactly the segments with the
    expected tag. *)
Theorem parse_segment_id_spec (self : ElementParser.t) (segment : text) :
  let sep := Delimiters.element (ElementParser.delimiters self) in
  let tag := hd [] (split sep segment) in
  ElementParser.parse_segment_id self segment
  = (if forallb isspace tag then Raise TokenizationError else Ok (strip tag))
  /\ (forall segment_id,
        ElementParser.parse_segment_id self segment = Ok segment_id ->
        segment_id <> [] /\ strip segment_id = segment_id /\ ~ In sep segment_id)
  /\ (forall expected_id,
        ElementParser.validate_segment_id self segment expected_id = Ok tt
        <-> ElementParser.parse_segment_id self segment = Ok expected_id).
Proof.
  intros sep tag.
  assert (H : ElementParser.parse_segment_id self segment
    = (if forallb isspace tag then Raise TokenizationError else Ok (strip tag))).
  { apply parse_segment_id_unfold. }
  split; [exact H|split].
  - intros segment_id. rewrite H.
    destruct (forallb isspace tag) eqn:E; [discriminate|].
    intros Hid; injection Hid as <-. split; [|split].
    + intros Hn. apply strip_nil_iff in Hn. congruence.
    + apply strip_idem.
    + intros Hin. apply In_strip in Hin.
      pose proof (split_no_sep sep segment) as Hs. unfold tag in Hin.
      destruct (split sep segment) as [|first rest]; [destruct Hin|].
      inversion Hs; subst. contradiction.
  - intros expected_id. unfold ElementParser.validate_segment_id.
    destruct (ElementParser.parse_segment_id self segment) as [actual|e]; cbn.
    + destruct (decide (actual = expected_id)) as [->|Hne].
      * split; reflexivity.
      * split; [discriminate|]. intros Heq; injection Heq as ->. contradiction.
    + split; discriminate.
Qed.

(** X10. Splitting a composite or repeating element loses nothing:
    joining the pieces with the separator gives the element back.  An
    element without the separator is returned whole, and with the
    repetition separator unset every non-empty element is. *)
Theorem split_sub_elements (self : ElementParser.t) (element : text) :
  let sub := Delimiters.sub_element (ElementParser.delimiters self) in
  join_text sub (ElementParser.split_composite_element self element) = element
  /\ (element <> [] -> ~ In sub element ->
      ElementParser.split_composite_element self element = [element])
  /\ (Delimiters.repetition (ElementParser.delimiters self) = None ->
      ElementParser.split_repeating_element self element
      = if is_empty element then [] else [element])
  /\ (forall r,
        Delimiters.repetition (ElementParser.delimiters self) = Some r ->
        join_text r (ElementParser.split_repeating_element self element) = element
        /\ (element <> [] -> ~ In r element ->
            ElementParser.split_repeating_element self element = [element])).
Proof.
  intros sub.
  unfold ElementParser.split_composite_element, ElementParser.split_repeating_element.
  fold sub. split; [|split; [|split]].
  - destruct element as [|c s]; [reflexivity|]. cbn [is_empty orb].
    destruct (contains sub (c :: s)); cbn [negb]; [apply join_split|reflexivity].
  - intros Hne Hn. destruct element as [|c s]; [contradiction|]. cbn [is_empty orb].
    apply contains_false_iff in Hn. rewrite Hn. reflexivity.
  - intros ->. reflexivity.
  - intros r ->. split.
    + destruct element as [|c s]; [reflexivity|]. cbn [is_empty].
      destruct (contains r (c :: s)); cbn [negb]; [apply join_split|reflexivity].
    + intros Hne Hn. destruct element as [|c s]; [contradiction|]. cbn [is_empty].
      apply contains_false_iff in Hn. rewrite Hn. reflexivity.
Qed.

End ElementParsing.

(** ** The segment parser *)

Section SegmentParsing.

Definition known_tags : list text :=
  [lit "ISA"; lit "GS"; lit "ST"; lit "AK1"; lit "AK2"; lit "AK3"; lit "AK4";
   lit "AK5"; lit "AK9"; lit "SE"; lit "GE"; lit "IEA"].

Lemma dict_get_None {V : Type} (d : list (text * V)) (key : text) :
  SegmentParser.dict_get d key = None <-> ~ In key (map fst d).
Proof.
  induction d as [|[k v] d IH]; cbn; [tauto|].
  destruct (decide (k = key)) as [->|Hne].
  - split; [discriminate|intros H; exfalso; apply H; left; reflexivity].
  - rewrite IH. split; [intros H [E|E]; [contradiction|auto]|tauto].
Qed.

Variable parser_func : SegmentParser.SegmentType -> list text -> Result Segment.

Lemma parse_segment_by_id_raises (self : SegmentParser.t) (segment : text)
    (e : Exception) :
  SegmentParser.parse_segment_by_id parser_func self segment = Raise e ->
  e = TokenizationError.
Proof.
  unfold SegmentParser.parse_segment_by_id.
  rewrite parse_segment_id_unfold.
  destruct (forallb isspace _); cbn [bind]; [congruence|].
  destruct (SegmentParser.dict_get SegmentParser.segment_type_map _); [|congruence].
  unfold SegmentParser.parse_segment. destruct (parser_func _ _); congruence.
Qed.

(** The segment ID that selects each record type. *)
Definition tag_of (segment_type : SegmentParser.SegmentType) : text :=
  match segment_type with
  | SegmentParser.ISASegmentT => lit "ISA"
  | SegmentParser.GSSegmentT => lit "GS"
  | SegmentParser.STSegmentT => lit "ST"
  | SegmentParser.AK1SegmentT => lit "AK1"
  | SegmentParser.AK2SegmentT => lit "AK2"
  | SegmentParser.AK3SegmentT => lit "AK3"
  | SegmentParser.AK4SegmentT => lit "AK4"
  | SegmentParser.AK5SegmentT => lit "AK5"
  | SegmentParser.AK9SegmentT => lit "AK9"
  | SegmentParser.SESegmentT => lit "SE"
  | SegmentParser.GESegmentT => lit "GE"
  | SegmentParser.IEASegmentT => lit "IEA"
  end.

(** X11. [parse_segment_by_id] fails with [TokenizationError] and
    nothing else, whatever exception the record construction raises;
    it refuses every segment whose tag is not, letter for letter, one
    of the twelve known tags, without calling a record parser; and a
    segment with the tag of a record type is parsed by the parser of
    that very type, applied to the elements of the segment. *)
Theorem parse_segment_by_id_errors (self : SegmentParser.t) (segment : text) :
  (forall e,
     SegmentParser.parse_segment_by_id parser_func self segment = Raise e ->
     e = TokenizationError)
  /\ (forall segment_id,
        ElementParser.parse_segment_id (SegmentParser.element_parser self) segment
        = Ok segment_id ->
        ~ In segment_id known_tags ->
        SegmentParser.parse_segment_by_id parser_func self segment
        = Raise TokenizationError)
  /\ (forall segment_type,
        ElementParser.parse_segment_id (SegmentParser.element_parser self) segment
        = Ok (tag_of segment_type) ->
        SegmentParser.parse_segment_by_id parser_func self segment
        = SegmentParser.parse_segment parser_func self segment segment_type
        /\ SegmentParser.parse_segment parser_func self segment segment_type
           = match parser_func segment_type
                     (ElementParser.split_segment (SegmentParser.element_parser self)
                        segment) with
             | Ok parsed => Ok parsed
             | Raise _ => Raise TokenizationError
             end)
  /\ (forall segment_id,
        In segment_id known_tags
        <-> exists segment_type, tag_of segment_type = segment_id).
Proof.
  split; [intros e; apply parse_segment_by_id_raises|].
  unfold SegmentParser.parse_segment_by_id. split; [|split].
  - intros segment_id -> Hn. cbn [bind].
    assert (SegmentParser.dict_get SegmentParser.segment_type_map segment_id = None)
      as -> by (apply dict_get_None; exact Hn).
    reflexivity.
  - intros segment_type ->. cbn [bind].
    split; [|reflexivity].
    assert (SegmentParser.dict_get SegmentParser.segment_type_map (tag_of segment_type)
            = Some segment_type) as ->
      by (destruct segment_type; vm_compute; reflexivity).
    reflexivity.
  - intros segment_id. split.
    + intros Hin. unfold known_tags in Hin. cbn [In] in Hin.
      repeat (destruct Hin as [<-|Hin];
              [first [ exists SegmentParser.ISASegmentT; reflexivity
                     | exists SegmentParser.GSSegmentT; reflexivity
                     | exists SegmentParser.STSegmentT; reflexivity
                     | exists SegmentParser.AK1SegmentT; reflexivity
                     | exists SegmentParser.AK2SegmentT; reflexivity
                     | exists SegmentParser.AK3SegmentT; reflexivity
                     | exists SegmentParser.AK4SegmentT; reflexivity
                     | exists SegmentParser.AK5SegmentT; reflexivity
                     | exists SegmentParser.AK9SegmentT; reflexivity
                     | exists SegmentParser.SESegmentT; reflexivity
                     | exists SegmentParser.GESegmentT; reflexivity
                     | exists SegmentParser.IEASegmentT; reflexivity ]|]).
      destruct Hin.
    + intros [segment_type <-]. unfold known_tags.
      destruct segment_type; cbn [In tag_of]; tauto.
Qed.

End SegmentParsing.

(** ** The validator, continued *)

Section ValidatorMore.

Import ValidationPipeline.

Local Open Scope string_scope.
Local Open Scope list_scope.

Lemma upper_A_iff (code : string) : upper code = "A" <-> In code ["A"; "a"].
Proof.
  split.
  - intros H. destruct (upper_one_char code "A"%char H) as (c & -> & Hc).
    apply upper_char_A in Hc as [->| ->]; cbn; tauto.
  - intros [<-|[<-|[]]]; reflexivity.
Qed.

Lemma group_accepted_iff (self : Validator997.t) (code : string) :
  Validator997.classify_functional_group_status self code
  = FunctionalGroupStatus.ACCEPTED
  <-> In code ["A"; "a"].
Proof.
  rewrite <- upper_A_iff.
  unfold Validator997.classify_functional_group_status.
  destruct (String.eqb_spec (upper code) "A") as [E|E]; [tauto|].
  split; [|contradiction].
  destruct (existsb _ _); [discriminate|].
  destruct (String.eqb _ _); discriminate.
Qed.

Lemma validate_997_is_valid (self : Validator997.t) (isa : ISASegment.t)
    (ak1 : AK1Segment.t) (ak9 : AK9Segment.t)
    (transaction_validations : list TransactionSetValidation.t) :
  ValidationResult.is_valid
    (Validator997.validate_997 self isa ak1 ak9 transaction_validations) = true
  <-> In (AK9Segment.functional_group_ack_code ak9) ["A"; "a"].
Proof.
  rewrite <- (group_accepted_iff self).
  cbn -[In Validator997.classify_functional_group_status].
  apply bool_decide_eq_true.
Qed.

(** X12. The overall validity flag of [validate_997] is decided by the
    AK9 acknowledgment code alone: it is true exactly for the code A
    in either case, whatever the transaction-set validations hold; the
    AK9 counts are copied as they are. *)
Theorem is_valid_iff_group_code_A (self : Validator997.t) (isa : ISASegment.t)
    (ak1 : AK1Segment.t) (ak9 : AK9Segment.t)
    (transaction_validations : list TransactionSetValidation.t) :
  let result := Validator997.validate_997 self isa ak1 ak9 transaction_validations in
  let fg := ValidationResult.functional_group result in
  (ValidationResult.is_valid result = true
   <-> In (AK9Segment.functional_group_ack_code ak9) ["A"; "a"])
  /\ (ValidationResult.is_valid result = true
      <-> FunctionalGroupValidation.status fg = FunctionalGroupStatus.ACCEPTED)
  /\ FunctionalGroupValidation.transaction_validations fg = transaction_validations
  /\ FunctionalGroupValidation.transaction_sets_included fg
     = AK9Segment.number_of_transaction_sets_included ak9
  /\ FunctionalGroupValidation.transaction_sets_received fg
     = AK9Segment.number_of_received_transaction_sets ak9
  /\ FunctionalGroupValidation.transaction_sets_accepted fg
     = AK9Segment.number_of_accepted_transaction_sets ak9.
Proof.
  split; [apply validate_997_is_valid|].
  cbn -[In Validator997.classify_functional_group_status].
  rewrite bool_decide_eq_true.
  split; [reflexivity|repeat split].
Qed.

Lemma omap_id_length (codes : list (option string)) :
  length (not_None_codes codes) <= length codes.
Proof.
  unfold not_None_codes. induction codes as [|[c|] codes IH]; cbn; lia.
Qed.

(** X13. The error count of a transaction-set validation is the number
    of AK3 segments that carry a syntax error code, plus the number of
    AK4 segments, plus the number of syntax error codes set on the AK5
    (at most five); it always equals the length of the error list, and
    every detail has severity ERROR.  The status comes from the AK5
    code alone. *)
Theorem error_count_formula (self : Validator997.t) (ak2 : AK2Segment.t)
    (ak5 : AK5Segment.t) (ak3_segments : list AK3Segment.t)
    (ak4_segments : list AK4Segment.t) :
  let tsv :=
    Validator997.validate_transaction_set self ak2 ak5 ak3_segments ak4_segments in
  TransactionSetValidation.error_count tsv
  = length (filter (fun ak3 => truthy (AK3Segment.segment_syntax_error_code ak3))
              ak3_segments)
    + length ak4_segments + length (AK5Segment.get_error_codes ak5)
  /\ TransactionSetValidation.error_count tsv
     = length (TransactionSetValidation.errors tsv)
  /\ TransactionSetValidation.error_count tsv
     <= length ak3_segments + length ak4_segments + 5
  /\ Forall (fun e => ErrorDetail.severity e = ErrorSeverity.ERROR)
       (TransactionSetValidation.errors tsv)
  /\ TransactionSetValidation.status tsv
     = Validator997.classify_transaction_status self
         (AK5Segment.transaction_set_ack_code ak5)
  /\ TransactionSetValidation.syntax_error_codes tsv = AK5Segment.get_error_codes ak5.
Proof.
  intros tsv.
  assert (Herr : TransactionSetValidation.errors tsv
    = map (Validator997.build_error_detail_from_ak3 self)
        (filter (fun ak3 => truthy (AK3Segment.segment_syntax_error_code ak3))
           ak3_segments)
      ++ map (fun ak4 => Validator997.build_error_detail_from_ak4 self ak4
                           (Validator997.last_or_None ak3_segments)) ak4_segments
      ++ map (fun error_code =>
                {| ErrorDetail.segment_id := None;
                   ErrorDetail.segment_position := None;
                   ErrorDetail.element_position := None;
                   ErrorDetail.element_reference_number := None;
                   ErrorDetail.error_code := error_code;
                   ErrorDetail.error_description :=
                     Pydantic.str_strip_whitespace
                       (ErrorCodeInfo.description
                          (ErrorCodeMapper.get_transaction_set_error
                             (Validator997.error_mapper self) error_code));
                   ErrorDetail.severity := ErrorSeverity.ERROR;
                   ErrorDetail.bad_data_element := None |})
           (AK5Segment.get_error_codes ak5)).
  { unfold tsv, Validator997.validate_transaction_set.
    cbn [TransactionSetValidation.errors].
    rewrite fold_append_filter, (fold_append_map _ ak4_segments), fold_append_map.
    cbn [app]. rewrite <- app_assoc. reflexivity. }
  assert (Hcount : TransactionSetValidation.error_count tsv
                   = length (TransactionSetValidation.errors tsv)) by reflexivity.
  split; [|split; [exact Hcount|split; [|split; [|split; reflexivity]]]].
  - rewrite Hcount, Herr, !length_app, !length_map. lia.
  - rewrite Hcount, Herr, !length_app, !length_map.
    pose proof (filter_length_le
      (fun ak3 => truthy (AK3Segment.segment_syntax_error_code ak3)) ak3_segments).
    pose proof (omap_id_length
      [AK5Segment.transaction_set_syntax_error_code_1 ak5;
       AK5Segment.transaction_set_syntax_error_code_2 ak5;
       AK5Segment.transaction_set_syntax_error_code_3 ak5;
       AK5Segment.transaction_set_syntax_error_code_4 ak5;
       AK5Segment.transaction_set_syntax_error_code_5 ak5]) as H5.
    cbn [length] in H5. unfold AK5Segment.get_error_codes. lia.
  - rewrite Herr. rewrite !List.Forall_app. repeat split;
      apply List.Forall_forall; intros e He; apply in_map_iff in He as (x & <- & _);
      reflexivity.
Qed.

End ValidatorMore.

(** ** The pipeline, continued *)

Section PipelineMore.

Import ValidationPipeline.

Local Open Scope string_scope.
Local Open Scope list_scope.

(** [x] is picked from the last segment of [segs] that [pick] accepts. *)
Definition is_last {A : Type} (pick : Segment -> option A) (segs : list Segment)
    (x : A) : Prop :=
  exists pre seg post,
    segs = pre ++ seg :: post /\ pick seg = Some x
    /\ Forall (fun s => pick s = None) post.

Lemma last_of_snoc {A : Type} (pick : Segment -> option A) (acc : option A)
    (segs : list Segment) (seg : Segment) :
  last_of pick acc (segs ++ [seg])
  = match pick seg with Some s => Some s | None => last_of pick acc segs end.
Proof. unfold last_of. rewrite fold_left_app. reflexivity. Qed.

Lemma last_of_is_last {A : Type} (pick : Segment -> option A)
    (segs : list Segment) (x : A) :
  last_of pick None segs = Some x -> is_last pick segs x.
Proof.
  induction segs as [|seg segs IH] using rev_ind; [discriminate|].
  rewrite last_of_snoc. destruct (pick seg) as [s|] eqn:E.
  - intros H; injection H as ->. exists segs, seg, []. repeat split; auto.
  - intros H. destruct (IH H) as (pre & s & post & -> & Hs & Hp).
    exists pre, s, (post ++ [seg]). rewrite <- app_assoc. repeat split; auto.
    apply List.Forall_app; split; [exact Hp|repeat constructor; exact E].
Qed.

(** X14. A result of the pipeline is built from the last ISA, the last
    AK1 and the last AK9 of the parsed segments: earlier ones are
    overwritten, and the result is valid exactly when that last AK9
    carries the code A in either case. *)
Theorem result_from_last_anchors (validator : Validator997.t) (segs : list Segment)
    (result : ValidationResult.t) :
  validate_parsed_segments validator segs = Ok result ->
  exists isa ak1 ak9,
    is_last as_ISA segs isa /\ is_last as_AK1 segs ak1 /\ is_last as_AK9 segs ak9
    /\ ValidationResult.interchange_control_number result
       = ISASegment.interchange_control_number isa
    /\ ValidationResult.interchange_sender_id result
       = ISASegment.interchange_sender_id isa
    /\ ValidationResult.interchange_receiver_id result
       = ISASegment.interchange_receiver_id isa
    /\ FunctionalGroupValidation.functional_id_code
         (ValidationResult.functional_group result)
       = AK1Segment.functional_id_code ak1
    /\ FunctionalGroupValidation.group_control_number
         (ValidationResult.functional_group result)
       = AK1Segment.group_control_number ak1
    /\ FunctionalGroupValidation.ack_code (ValidationResult.functional_group result)
       = AK9Segment.functional_group_ack_code ak9
    /\ FunctionalGroupValidation.group_syntax_error_codes
         (ValidationResult.functional_group result)
       = AK9Segment.get_error_codes ak9
    /\ (ValidationResult.is_valid result = true
        <-> In (AK9Segment.functional_group_ack_code ak9) ["A"; "a"]).
Proof.
  unfold validate_parsed_segments.
  destruct (scan_total (Validator997.validate_transaction_set validator) segs)
    as (st & -> & Hisa & Hak1 & Hak9). cbn [bind].
  destruct (isa st) as [i|] eqn:Ei; [|discriminate].
  destruct (ak1 st) as [a1|] eqn:E1; [|discriminate].
  destruct (ak9 st) as [a9|] eqn:E9; [|discriminate].
  intros H; injection H as <-.
  exists i, a1, a9.
  split; [apply last_of_is_last; congruence|].
  split; [apply last_of_is_last; congruence|].
  split; [apply last_of_is_last; congruence|].
  repeat (split; [reflexivity|]).
  apply (validate_997_is_valid validator i a1 a9 (transaction_validations st)).
Qed.

Lemma result_from_last_anchors_witness :
  let validator := Validator997.mk (ErrorCodeMapper.mk ∅) in
  let isa n :=
    ISASegment.mk "00" "" "00" "" "ZZ" "SENDER" "ZZ" "RECEIVER" "230101" "1200"
      "U" "00401" n "0" "P" ">" in
  let ak9 code := AK9Segment.mk code 1 1 1 None None None None None in
  exists result,
    validate_parsed_segments validator
      [ISA (isa "000000001"); AK1 (AK1Segment.mk "PO" "1" None); AK9 (ak9 "R");
       ISA (isa "000000002"); AK1 (AK1Segment.mk "SH" "2" None); AK9 (ak9 "a")]
    = Ok result
    /\ exists isa',
         is_last as_ISA
           [ISA (isa "000000001"); AK1 (AK1Segment.mk "PO" "1" None); AK9 (ak9 "R");
            ISA (isa "000000002"); AK1 (AK1Segment.mk "SH" "2" None); AK9 (ak9 "a")]
           isa'
         /\ ValidationResult.interchange_control_number result
            = ISASegment.interchange_control_number isa'.
Proof.
  cbv zeta. eexists. split; [vm_compute; reflexivity|].
  match goal with
  | |- exists isa', _ /\ ValidationResult.interchange_control_number ?r = _ =>
      destruct (result_from_last_anchors (Validator997.mk (ErrorCodeMapper.mk ∅))
        [ISA (ISASegment.mk "00" "" "00" "" "ZZ" "SENDER" "ZZ" "RECEIVER" "230101"
                "1200" "U" "00401" "000000001" "0" "P" ">");
         AK1 (AK1Segment.mk "PO" "1" None);
         AK9 (AK9Segment.mk "R" 1 1 1 None None None None None);
         ISA (ISASegment.mk "00" "" "00" "" "ZZ" "SENDER" "ZZ" "RECEIVER" "230101"
                "1200" "U" "00401" "000000002" "0" "P" ">");
         AK1 (AK1Segment.mk "SH" "2" None);
         AK9 (AK9Segment.mk "a" 1 1 1 None None None None None)]
        r) as (i & a1 & a9 & Hi & _ & _ & Hicn & _); [vm_compute; reflexivity|]
  end.
  exists i. split; [exact Hi|exact Hicn].
Defined.

(** X15. Every transaction-set validation in a result of the pipeline
    has an error count equal to the length of its error list, so the
    total of the group is the number of error details in the result. *)
Theorem result_error_counts (validator : Validator997.t) (segs : list Segment)
    (result : ValidationResult.t) :
  validate_parsed_segments validator segs = Ok result ->
  let fg := ValidationResult.functional_group result in
  Forall (fun tsv => TransactionSetValidation.error_count tsv
                     = length (TransactionSetValidation.errors tsv))
    (FunctionalGroupValidation.transaction_validations fg)
  /\ FunctionalGroupValidation.total_errors fg
     = length (concat (map TransactionSetValidation.errors
                         (FunctionalGroupValidation.transaction_validations fg))).
Proof.
  unfold validate_parsed_segments. rewrite scan_validated.
  destruct (scan mkCall segs) as [st|e]; [|discriminate]. cbn [bind].
  destruct (isa _) as [i|]; [|discriminate].
  destruct (ak1 _) as [a1|]; [|discriminate].
  destruct (ak9 _) as [a9|]; [|discriminate].
  intros H; injection H as <-. cbn.
  unfold FunctionalGroupValidation.total_errors. cbn.
  induction (transaction_validations st) as [|c calls (IH1 & IH2)]; cbn.
  - split; [constructor|reflexivity].
  - split; [constructor; [reflexivity|exact IH1]|].
    rewrite length_app, <- IH2. reflexivity.
Qed.

Lemma result_error_counts_witness :
  let validator := Validator997.mk (ErrorCodeMapper.mk ∅) in
  let isa :=
    ISASegment.mk "00" "" "00" "" "ZZ" "SENDER" "ZZ" "RECEIVER" "230101" "1200"
      "U" "00401" "000000001" "0" "P" ">" in
  exists result,
    validate_parsed_segments validator
      [ISA isa; AK1 (AK1Segment.mk "PO" "1" None);
       AK2 (AK2Segment.mk "850" "5678" None);
       AK3 (AK3Segment.mk "N1" 2 None (Some "8"));
       AK4 (AK4Segment.mk 1 (Some 66%Z) "1" None);
       AK5 (AK5Segment.mk "R" (Some "5") None None None None);
       AK9 (AK9Segment.mk "R" 1 1 0 None None None None None)]
    = Ok result
    /\ FunctionalGroupValidation.total_errors (ValidationResult.functional_group result)
       = 3.
Proof.
  cbv zeta. eexists. split; [vm_compute; reflexivity|].
  match goal with
  | |- FunctionalGroupValidation.total_errors (ValidationResult.functional_group ?r) = _ =>
      destruct (result_error_counts (Validator997.mk (ErrorCodeMapper.mk ∅))
        [ISA (ISASegment.mk "00" "" "00" "" "ZZ" "SENDER" "ZZ" "RECEIVER" "230101"
                "1200" "U" "00401" "000000001" "0" "P" ">");
         AK1 (AK1Segment.mk "PO" "1" None);
         AK2 (AK2Segment.mk "850" "5678" None);
         AK3 (AK3Segment.mk "N1" 2 None (Some "8"));
         AK4 (AK4Segment.mk 1 (Some 66%Z) "1" None);
         AK5 (AK5Segment.mk "R" (Some "5") None None None None);
         AK9 (AK9Segment.mk "R" 1 1 0 None None None None None)]
        r) as [_ Ht]; [vm_compute; reflexivity|]
  end.
  rewrite Ht. reflexivity.
Defined.

End PipelineMore.

(** ** What the loop never reads *)

Section EnvelopeBlind.

Import ValidationPipeline.

(** The segments the loop acts on: all but GS, ST, SE, GE and IEA. *)
Definition acted_on (seg : Segment) : bool :=
  match seg with
  | GS _ | ST _ | SE _ | GE _ | IEA _ => false
  | _ => true
  end.

Lemma next_AK5_filter (segs : list Segment) :
  next_AK5 (filter acted_on segs) = next_AK5 segs.
Proof.
  induction segs as [|seg segs IH]; [reflexivity|].
  destruct seg; cbn; auto.
Qed.

Lemma lookahead_filter {B : Type} (a : AK2Segment.t) (all : list Segment)
    (k : option AK5Segment.t -> Result B) :
  (do i <- index (AK2 a) (filter acted_on all) in
   k (next_AK5 (skipn i (filter acted_on all))))
  = (do i <- index (AK2 a) all in k (next_AK5 (skipn i all))).
Proof.
  revert k. induction all as [|seg all IH]; intros k; [reflexivity|].
  cbn [index].
  destruct (decide (seg = AK2 a)) as [->|Hne].
  - cbn [filter acted_on index]. destruct (decide (AK2 a = AK2 a)); [|contradiction].
    cbn. rewrite next_AK5_filter. reflexivity.
  - assert (Hgo : (do i <- (do i <- index (AK2 a) all in Ok (S i)) in
                   k (next_AK5 (skipn i (seg :: all))))
                  = (do i <- index (AK2 a) all in k (next_AK5 (skipn i all)))).
    { destruct (index (AK2 a) all); reflexivity. }
    rewrite Hgo. cbn [filter].
    destruct (acted_on seg).
    + cbn [index]. destruct (decide (seg = AK2 a)); [contradiction|].
      rewrite <- IH.
      destruct (index (AK2 a) (filter acted_on all)); reflexivity.
    + apply IH.
Qed.

Section AnyValidator.

Context {V : Type}.
Variable validate : AK2Segment.t -> AK5Segment.t -> list AK3Segment.t
                    -> list AK4Segment.t -> V.

Lemma loop_body_filter (all : list Segment) (st : Locals V) (seg : Segment) :
  acted_on seg = true ->
  loop_body validate (filter acted_on all) st seg = loop_body validate all st seg.
Proof.
  intros Hseg. destruct seg; try reflexivity; try discriminate Hseg.
  cbn [loop_body]. destruct (current_ak2 st) as [a|]; [|reflexivity].
  f_equal.
  apply (lookahead_filter a all
           (fun ak5 => match ak5 with
                       | Some ak5 =>
                           Ok (transaction_validations st
                               ++ [validate a ak5 (current_ak3_segments st)
                                     (current_ak4_segments st)])
                       | None => Ok (transaction_validations st)
                       end)).
Qed.

Lemma loop_filter (all : list Segment) (st : Locals V) (rest : list Segment) :
  loop validate (filter acted_on all) st (filter acted_on rest)
  = loop validate all st rest.
Proof.
  revert st; induction rest as [|seg rest IH]; intros st; [reflexivity|].
  cbn [filter loop]. destruct (acted_on seg) eqn:E.
  - cbn [loop]. rewrite (loop_body_filter all st seg E).
    destruct (loop_body validate all st seg); [apply IH|reflexivity].
  - rewrite IH. destruct seg; try discriminate E; reflexivity.
Qed.

End AnyValidator.

(** X16. The pipeline never reads the envelope segments: removing
    every GS, ST, SE, GE and IEA from the parsed segments changes
    neither its result nor its failure.  No count or control number of
    an envelope trailer is checked against anything. *)
Theorem envelopes_are_ignored (validator : Validator997.t) (segs : list Segment) :
  validate_parsed_segments validator (filter acted_on segs)
  = validate_parsed_segments validator segs.
Proof.
  unfold validate_parsed_segments, scan. rewrite loop_filter. reflexivity.
Qed.

End EnvelopeBlind.

(** ** The failures of the whole pipeline *)

Section PipelineFailures.

Import ValidationPipeline.

Lemma mapM_errors {A B : Type} (f : A -> Result B) (P : Exception -> Prop)
    (l : list A) (e : Exception) :
  (forall x e', f x = Raise e' -> P e') -> mapM f l = Raise e -> P e.
Proof.
  intros Hf. induction l as [|x l IH]; [discriminate|]. cbn [mapM].
  destruct (f x) as [y|e'] eqn:E; cbn [bind].
  - destruct (mapM f l); cbn [bind]; [discriminate|].
    intros H; injection H as <-. apply IH. reflexivity.
  - intros H; injection H as <-. apply (Hf x). exact E.
Qed.

Lemma validate_parsed_segments_errors (validator : Validator997.t)
    (segs : list Segment) (e : Exception) :
  validate_parsed_segments validator segs = Raise e ->
  e = missing_required_segments.
Proof.
  unfold validate_parsed_segments.
  destruct (scan_total (Validator997.validate_transaction_set validator) segs)
    as (st & -> & _). cbn [bind].
  destruct (isa st); [destruct (ak1 st); [destruct (ak9 st)|]|]; congruence.
Qed.

Variable parser_func : SegmentParser.SegmentType -> list text -> Result Segment.
Variable error_mapper : ErrorCodeMapper.t.

(** The pipeline with the segment parser of the repository. *)
Definition pipeline (content : text) : Result ValidationResult.t :=
  run_validation_pipeline
    (fun delimiters =>
       SegmentParser.parse_segment_by_id parser_func (SegmentParser.init delimiters))
    error_mapper content.

(** X17. The pipeline fails in four ways only: with
    [InvalidISASegmentError] or [DelimiterDetectionError] from
    detection, with [TokenizationError] from a segment, or with the
    missing-required-segments [ValueError].  Blank content is refused
    by detection as [InvalidISASegmentError]; the tokenizer's
    [EmptyFileError] cannot occur. *)
Theorem pipeline_failures (content : text) (e : Exception) :
  pipeline content = Raise e ->
  (e = InvalidISASegmentError \/ e = DelimiterDetectionError
   \/ e = TokenizationError \/ e = missing_required_segments)
  /\ (forallb isspace content = true -> e = InvalidISASegmentError).
Proof.
  unfold pipeline, run_validation_pipeline.
  destruct (DelimiterDetector.detect_from_file_content (DelimiterDetector.init None)
              content) as [d|e0] eqn:Hd; cbn [bind].
  - pose proof (detect_not_blank _ _ _ Hd) as Hb.
    rewrite tokenize_content_unfold, Hb. cbn [bind].
    intros H. split; [|congruence].
    match type of H with
    | (do parsed <- ?m in _) = _ => destruct m as [parsed|e1] eqn:Hm
    end; cbn [bind] in H.
    + apply validate_parsed_segments_errors in H. tauto.
    + injection H as <-. right. right. left.
      apply (mapM_errors _ (fun e => e = TokenizationError) _ _
               (fun x e' =>
                  parse_segment_by_id_raises parser_func (SegmentParser.init d) x e')
               Hm).
  - intros H; injection H as <-.
    rewrite detect_from_file_content_unfold in Hd.
    destruct (startswith (strip content) (lit "ISA")) eqn:Hs.
    + split; [apply detect_from_isa_errors in Hd; tauto|].
      intros Hb. rewrite <- is_empty_strip in Hb. apply is_empty_true in Hb.
      rewrite Hb in Hs. discriminate Hs.
    + injection Hd as <-. split; [tauto|reflexivity].
Qed.

End PipelineFailures.

Lemma pipeline_failures_witness :
  pipeline (fun _ _ => Raise IndexError) (ErrorCodeMapper.mk ∅)
    (lit "ISA*00*          *00*          *ZZ*SENDER         *ZZ*RECEIVER       *230101*1200*U*00401*000000001*0*P*>~GS*FA~")
  = Raise TokenizationError
  /\ (TokenizationError = InvalidISASegmentError
      \/ TokenizationError = DelimiterDetectionError
      \/ TokenizationError = TokenizationError
      \/ TokenizationError = ValidationPipeline.missing_required_segments).
Proof.
  split; [vm_compute; reflexivity|].
  apply (pipeline_failures (fun _ _ => Raise IndexError) (ErrorCodeMapper.mk ∅)
    (lit "ISA*00*          *00*          *ZZ*SENDER         *ZZ*RECEIVER       *230101*1200*U*00401*000000001*0*P*>~GS*FA~")
    TokenizationError).
  vm_compute. reflexivity.
Defined.

(** ** Acknowledgment codes in the code tables *)

Section AckCodes.

(** X18. For any code tables a transaction-set acknowledgment code
    falls in at most one of the classes accepted, rejected and
    partial, and a code the tables do not hold falls in none: it is
    looked up without failure as class unknown, with the code echoed. *)
Theorem ack_classes_exclusive (self : ErrorCodeMapper.t) (code : string) :
  (ErrorCodeMapper.is_accepted_code self code
   && ErrorCodeMapper.is_rejected_code self code = false)
  /\ (ErrorCodeMapper.is_accepted_code self code
      && ErrorCodeMapper.is_partial_code self code = false)
  /\ (ErrorCodeMapper.is_rejected_code self code
      && ErrorCodeMapper.is_partial_code self code = false)
  /\ (ErrorCodeMapper.get_dict (ErrorCodeMapper._ak_codes self)
        "transaction_set_ack_codes" !! code = None ->
      ErrorCodeMapper.is_accepted_code self code = false
      /\ ErrorCodeMapper.is_rejected_code self code = false
      /\ ErrorCodeMapper.is_partial_code self code = false
      /\ ErrorCodeInfo.classification
           (ErrorCodeMapper.get_transaction_set_ack self code) = Some "unknown"%string
      /\ ErrorCodeInfo.code (ErrorCodeMapper.get_transaction_set_ack self code) = code).
Proof.
  unfold ErrorCodeMapper.is_accepted_code, ErrorCodeMapper.is_rejected_code,
    ErrorCodeMapper.is_partial_code.
  split; [|split; [|split]].
  1-3: destruct (ErrorCodeInfo.classification
                   (ErrorCodeMapper.get_transaction_set_ack self code)) as [c|];
    [|reflexivity];
    repeat case_bool_decide; try reflexivity; congruence.
  intros Hnone.
  assert (Hempty : ErrorCodeMapper.get_dict
                     (ErrorCodeMapper.get_dict (ErrorCodeMapper._ak_codes self)
                        "transaction_set_ack_codes") code = ∅).
  { unfold ErrorCodeMapper.get_dict at 1. rewrite Hnone. reflexivity. }
  unfold ErrorCodeMapper.get_transaction_set_ack, ErrorCodeMapper.lookup_ack.
  cbv zeta. rewrite Hempty.
  destruct (decide (∅ = ∅)) as [_|Hne]; [|contradiction].
  cbn. repeat split.
Qed.

End AckCodes.

(** ** The reconciliation, continued *)

Section ReconciliationMore.

Local Open Scope string_scope.
Local Open Scope list_scope.

Definition is_mismatch (tr : TransactionReconciliation.t) : bool :=
  bool_decide (TransactionReconciliation.status tr
               = ReconciliationStatus.CONTROL_NUMBER_MISMATCH).

Lemma counts_partition (l : list TransactionReconciliation.t) :
  length (filter TransactionReconciliation.is_matched l)
  + length (filter (fun tr => bool_decide (TransactionReconciliation.status tr
                                           = ReconciliationStatus.MISSING_ACK)) l)
  + length (filter (fun tr => bool_decide (TransactionReconciliation.status tr
                                           = ReconciliationStatus.UNEXPECTED_ACK)) l)
  + length (filter is_mismatch l)
  = length l.
Proof.
  induction l as [|tr l IH]; [reflexivity|].
  cbn [filter]. unfold TransactionReconciliation.is_matched, is_mismatch in *.
  destruct (TransactionReconciliation.status tr);
    repeat case_bool_decide; try discriminate; try congruence; cbn [length]; lia.
Qed.

(** X19. The three counts of a group reconciliation never exceed the
    total, and they add up to it exactly when no record is a
    CONTROL_NUMBER_MISMATCH: such a record is counted in the total and
    in no other count, so the summary names it nowhere.  For a fully
    reconciled group the summary is the single part n/n transactions
    matched. *)
Theorem reconciliation_counts (r : FunctionalGroupReconciliation.t) :
  let matched := FunctionalGroupReconciliation.matched_count r in
  let missing := FunctionalGroupReconciliation.missing_ack_count r in
  let unexpected := FunctionalGroupReconciliation.unexpected_ack_count r in
  let total := FunctionalGroupReconciliation.total_count r in
  matched + missing + unexpected <= total
  /\ (matched + missing + unexpected = total
      <-> Forall (fun tr => TransactionReconciliation.status tr
                            <> ReconciliationStatus.CONTROL_NUMBER_MISMATCH)
            (FunctionalGroupReconciliation.transaction_reconciliations r))
  /\ (missing = 0 -> unexpected = 0 ->
      Reconciler._build_summary r
      = Reconciler.str_of_nat matched ++ "/" ++ Reconciler.str_of_nat total
        ++ " transactions matched")%string
  /\ (FunctionalGroupReconciliation.is_fully_reconciled r = true ->
      missing = 0 /\ unexpected = 0
      /\ Reconciler._build_summary r
         = Reconciler.str_of_nat total ++ "/" ++ Reconciler.str_of_nat total
           ++ " transactions matched")%string.
Proof.
  intros matched missing unexpected total.
  pose proof (counts_partition
                (FunctionalGroupReconciliation.transaction_reconciliations r)) as P.
  rewrite <- !count_if_length in P.
  fold (FunctionalGroupReconciliation.matched_count r) in P.
  fold (FunctionalGroupReconciliation.missing_ack_count r) in P.
  fold (FunctionalGroupReconciliation.unexpected_ack_count r) in P.
  fold (FunctionalGroupReconciliation.total_count r) in P.
  fold matched missing unexpected total in P.
  assert (Hsum : missing = 0 -> unexpected = 0 ->
                 Reconciler._build_summary r
                 = (Reconciler.str_of_nat matched ++ "/" ++ Reconciler.str_of_nat total
                    ++ " transactions matched")%string).
  { intros Hm Hu. unfold Reconciler._build_summary.
    fold matched missing unexpected total. rewrite Hm, Hu. reflexivity. }
  split; [lia|split; [|split; [exact Hsum|]]].
  - rewrite count_if_length in P.
    assert (E : matched + missing + unexpected = total
                <-> length (filter is_mismatch
                      (FunctionalGroupReconciliation.transaction_reconciliations r)) = 0)
      by lia.
    rewrite E, List.length_zero_iff_nil, List.Forall_forall.
    split.
    + intros Hnil tr Hin Hst.
      assert (Hf : In tr (filter is_mismatch
                (FunctionalGroupReconciliation.transaction_reconciliations r))).
      { apply List.filter_In. split; [exact Hin|].
        apply bool_decide_eq_true. exact Hst. }
      rewrite Hnil in Hf. destruct Hf.
    + intros Hall.
      destruct (filter is_mismatch _) as [|tr f] eqn:Ef; [reflexivity|].
      assert (Hf : In tr (filter is_mismatch
                (FunctionalGroupReconciliation.transaction_reconciliations r)))
        by (rewrite Ef; left; reflexivity).
      apply List.filter_In in Hf as [Hin Hst].
      apply bool_decide_eq_true in Hst. destruct (Hall tr Hin Hst).
  - intros Hfull.
    unfold FunctionalGroupReconciliation.is_fully_reconciled in Hfull.
    apply andb_true_iff in Hfull as [_ Heq]. apply Nat.eqb_eq in Heq.
    fold matched total in Heq.
    assert (Hm : missing = 0) by lia. assert (Hu : unexpected = 0) by lia.
    split; [exact Hm|split; [exact Hu|]].
    rewrite (Hsum Hm Hu), Heq. reflexivity.
Qed.

(** What a record holds for its key, given the maps built from the two
    lists. *)
Lemma classified_sides (outbound : list OutboundTransaction.t)
    (acks : list TransactionSetValidation.t) (k : string)
    (tr : TransactionReconciliation.t) :
  classified (Reconciler.dict_by OutboundTransaction.transaction_control_number outbound)
    (Reconciler.dict_by TransactionSetValidation.transaction_control_number acks)
    k tr ->
  TransactionReconciliation.control_number tr = Some k
  /\ (forall o, TransactionReconciliation.outbound_transaction tr = Some o ->
        In o outbound /\ OutboundTransaction.transaction_control_number o = k)
  /\ (forall a, TransactionReconciliation.acknowledgment tr = Some a ->
        In a acks /\ TransactionSetValidation.transaction_control_number a = k)
  /\ (TransactionReconciliation.status tr = ReconciliationStatus.MATCHED <->
      exists o a,
        TransactionReconciliation.outbound_transaction tr = Some o
        /\ TransactionReconciliation.acknowledgment tr = Some a
        /\ OutboundTransaction.transaction_set_id o
           = TransactionSetValidation.transaction_set_id a).
Proof.
  unfold classified.
  destruct (Reconciler.dict_by OutboundTransaction.transaction_control_number
              outbound !! k) as [o|] eqn:Eo;
    destruct (Reconciler.dict_by TransactionSetValidation.transaction_control_number
                acks !! k) as [a|] eqn:Ea;
    try (apply dict_by_lookup in Eo as [Ho1 Ho2]);
    try (apply dict_by_lookup in Ea as [Ha1 Ha2]).
  - destruct (decide _) as [E|E]; intros ->; cbn;
      (split; [congruence|split; [intros ? [= <-]; tauto|split;
                                  [intros ? [= <-]; tauto|]]]).
    + split; [eauto|reflexivity].
    + split; [discriminate|]. intros (o' & a' & [= <-] & [= <-] & E'). contradiction.
  - intros ->; cbn.
    split; [congruence|split; [intros ? [= <-]; tauto|split; [discriminate|]]].
    split; [discriminate|]. intros (o' & a' & _ & Hd & _). discriminate Hd.
  - intros ->; cbn.
    split; [congruence|split; [discriminate|split; [intros ? [= <-]; tauto|]]].
    split; [discriminate|]. intros (o' & a' & Hd & _). discriminate Hd.
  - intros [].
Qed.

Lemma reconcile_functional_group_unfold (fg_validation : FunctionalGroupValidation.t)
    (outbound_group : OutboundFunctionalGroup.t) :
  let outbound_map :=
    Reconciler.dict_by OutboundTransaction.transaction_control_number
      (OutboundFunctionalGroup.transactions outbound_group) in
  let ack_map :=
    Reconciler.dict_by TransactionSetValidation.transaction_control_number
      (FunctionalGroupValidation.transaction_validations fg_validation) in
  let keys := sorted (elements (dom outbound_map ∪ dom ack_map : gset string)) in
  exists recs,
    Reconciler.reconcile_functional_group fg_validation outbound_group
    = Ok {| FunctionalGroupReconciliation.outbound_group := Some outbound_group;
            FunctionalGroupReconciliation.group_control_number :=
              FunctionalGroupValidation.group_control_number fg_validation;
            FunctionalGroupReconciliation.functional_id_code :=
              FunctionalGroupValidation.functional_id_code fg_validation;
            FunctionalGroupReconciliation.transaction_reconciliations := recs |}
    /\ Forall2 (classified outbound_map ack_map) keys recs
    /\ (forall k, In k keys <-> is_Some (outbound_map !! k) \/ is_Some (ack_map !! k)).
Proof.
  intros outbound_map ack_map keys.
  assert (Hin : forall k, In k keys <->
                          is_Some (outbound_map !! k) \/ is_Some (ack_map !! k)).
  { intros k. rewrite <- (elem_of_dom outbound_map), <- (elem_of_dom ack_map).
    rewrite <- elem_of_union. rewrite <- elem_of_elements, list_elem_of_In.
    split; apply Permutation_in; [|symmetry]; apply sorted_perm. }
  destruct (reconcile_keys outbound_map ack_map keys) as (recs & Hm & Hf).
  { apply List.Forall_forall; intros k Hk; apply Hin; exact Hk. }
  exists recs. split; [|split; [exact Hf|exact Hin]].
  unfold Reconciler.reconcile_functional_group.
  fold outbound_map ack_map. fold keys. rewrite Hm. reflexivity.
Qed.

Lemma sorted_elements_NoDup (s : gset string) : List.NoDup (sorted (elements s)).
Proof.
  apply (Permutation_NoDup (l := elements s)); [symmetry; apply sorted_perm|].
  apply NoDup_ListNoDup, NoDup_elements.
Qed.

(** X20. The records of a group reconciliation are keyed by control
    number: read through [control_number], they are a sorted list
    without repetition; each side of a record is an entry of the list
    it came from and carries the record's control number; a record is
    MATCHED exactly when both sides are present with the same
    transaction set ID; and there are at most as many records as
    outbound transactions and acknowledgments together. *)
Theorem records_keyed_by_control_number (fg_validation : FunctionalGroupValidation.t)
    (outbound_group : OutboundFunctionalGroup.t) (r : FunctionalGroupReconciliation.t) :
  Reconciler.reconcile_functional_group fg_validation outbound_group = Ok r ->
  let recs := FunctionalGroupReconciliation.transaction_reconciliations r in
  let outbound := OutboundFunctionalGroup.transactions outbound_group in
  let acks := FunctionalGroupValidation.transaction_validations fg_validation in
  (exists keys,
     map TransactionReconciliation.control_number recs = map Some keys
     /\ Sorted string_le keys /\ List.NoDup keys)
  /\ Forall (fun tr =>
       (forall o, TransactionReconciliation.outbound_transaction tr = Some o ->
          In o outbound
          /\ TransactionReconciliation.control_number tr
             = Some (OutboundTransaction.transaction_control_number o))
       /\ (forall a, TransactionReconciliation.acknowledgment tr = Some a ->
             In a acks
             /\ TransactionReconciliation.control_number tr
                = Some (TransactionSetValidation.transaction_control_number a))
       /\ (TransactionReconciliation.status tr = ReconciliationStatus.MATCHED <->
           exists o a,
             TransactionReconciliation.outbound_transaction tr = Some o
             /\ TransactionReconciliation.acknowledgment tr = Some a
             /\ OutboundTransaction.transaction_set_id o
                = TransactionSetValidation.transaction_set_id a)) recs
  /\ FunctionalGroupReconciliation.total_count r <= length outbound + length acks.
Proof.
  destruct (reconcile_functional_group_unfold fg_validation outbound_group)
    as (recs & -> & Hf & Hin).
  intros [= <-]. cbn [FunctionalGroupReconciliation.transaction_reconciliations].
  unfold FunctionalGroupReconciliation.total_count.
  cbn [FunctionalGroupReconciliation.transaction_reconciliations].
  set (keys := sorted (elements _)) in *.
  split; [|split].
  - exists keys. split; [|split; [apply sorted_Sorted|apply sorted_elements_NoDup]].
    clear Hin. induction Hf as [|k tr keys' recs' Hc _ IH]; [reflexivity|].
    cbn [map]. rewrite IH. apply classified_sides in Hc as [-> _]. reflexivity.
  - clear Hin. induction Hf as [|k tr keys' recs' Hc _ IH]; constructor; [|exact IH].
    apply classified_sides in Hc as (Hk & Ho & Ha & Hm).
    split; [|split; [|exact Hm]].
    + intros o Hoo. destruct (Ho o Hoo) as [H1 H2]. split; [exact H1|]. congruence.
    + intros a Haa. destruct (Ha a Haa) as [H1 H2]. split; [exact H1|]. congruence.
  - assert (Hlen : length keys = length recs)
      by (clear Hin; induction Hf; cbn [length]; congruence).
    rewrite <- Hlen.
    rewrite <- (length_map OutboundTransaction.transaction_control_number
                  (OutboundFunctionalGroup.transactions outbound_group)).
    rewrite <- (length_map TransactionSetValidation.transaction_control_number
                  (FunctionalGroupValidation.transaction_validations fg_validation)).
    rewrite <- length_app.
    apply NoDup_incl_length; [apply sorted_elements_NoDup|].
    intros k Hk. apply Hin in Hk. rewrite !dict_by_is_Some in Hk.
    apply in_or_app.
    destruct Hk as [(o & Ho & <-)|(a & Ha & <-)]; [left|right]; apply in_map; assumption.
Qed.

Lemma records_keyed_by_control_number_witness :
  let sent id cn := OutboundTransaction.mk id cn "1" "PO" in
  let acked id cn :=
    TransactionSetValidation.mk id cn TransactionStatus.ACCEPTED "A" 0 [] [] in
  let fg :=
    FunctionalGroupValidation.mk "PO" "1" FunctionalGroupStatus.ACCEPTED "A" 2 2 2
      [acked "850" "0002"; acked "850" "0001"; acked "850" "0002"] [] in
  let og := OutboundFunctionalGroup.mk "PO" "1" [sent "850" "0002"; sent "850" "0001"] in
  exists r,
    Reconciler.reconcile_functional_group fg og = Ok r
    /\ FunctionalGroupReconciliation.total_count r <= 2 + 3.
Proof.
  cbv zeta. eexists. split; [vm_compute; reflexivity|].
  match goal with
  | |- FunctionalGroupReconciliation.total_count ?r <= _ =>
      apply (records_keyed_by_control_number
               (FunctionalGroupValidation.mk "PO" "1" FunctionalGroupStatus.ACCEPTED
                  "A" 2 2 2
                  [TransactionSetValidation.mk "850" "0002" TransactionStatus.ACCEPTED
                     "A" 0 [] [];
                   TransactionSetValidation.mk "850" "0001" TransactionStatus.ACCEPTED
                     "A" 0 [] [];
                   TransactionSetValidation.mk "850" "0002" TransactionStatus.ACCEPTED
                     "A" 0 [] []] [])
               (OutboundFunctionalGroup.mk "PO" "1"
                  [OutboundTransaction.mk "850" "0002" "1" "PO";
                   OutboundTransaction.mk "850" "0001" "1" "PO"])
               r)
  end.
  vm_compute. reflexivity.
Defined.

(** What reconciliation compares of a transaction on either side: the
    control number and the transaction set ID. *)
Definition sent_key (o : OutboundTransaction.t) : string * string :=
  (OutboundTransaction.transaction_control_number o,
   OutboundTransaction.transaction_set_id o).

Definition acked_key (a : TransactionSetValidation.t) : string * string :=
  (TransactionSetValidation.transaction_control_number a,
   TransactionSetValidation.transaction_set_id a).

(** The two maps hold the same control numbers, each with the same
    transaction set ID on both sides. *)
Definition maps_agree (outbound_map : gmap string OutboundTransaction.t)
    (ack_map : gmap string TransactionSetValidation.t) : Prop :=
  forall k,
    match outbound_map !! k, ack_map !! k with
    | Some o, Some a =>
        OutboundTransaction.transaction_set_id o
        = TransactionSetValidation.transaction_set_id a
    | None, None => True
    | _, _ => False
    end.

Lemma fold_insert_agree (outbound : list OutboundTransaction.t)
    (acks : list TransactionSetValidation.t)
    (outbound_map : gmap string OutboundTransaction.t)
    (ack_map : gmap string TransactionSetValidation.t) :
  map sent_key outbound = map acked_key acks ->
  maps_agree outbound_map ack_map ->
  maps_agree
    (fold_left (fun d tx => <[OutboundTransaction.transaction_control_number tx := tx]> d)
       outbound outbound_map)
    (fold_left
       (fun d tx => <[TransactionSetValidation.transaction_control_number tx := tx]> d)
       acks ack_map).
Proof.
  revert acks outbound_map ack_map.
  induction outbound as [|o outbound IH]; intros [|a acks] om am Hmap Hagree;
    try discriminate Hmap; [exact Hagree|].
  cbn [map] in Hmap. unfold sent_key at 1, acked_key at 1 in Hmap.
  injection Hmap as Hcn Hid Hmap.
  cbn [fold_left]. apply IH; [exact Hmap|].
  intros k. rewrite Hcn.
  destruct (decide (TransactionSetValidation.transaction_control_number a = k))
    as [<-|Hne].
  - rewrite !lookup_insert_eq. exact Hid.
  - rewrite !lookup_insert_ne by exact Hne. apply Hagree.
Qed.

Lemma NoDup_map_eq {A B : Type} (f : A -> B) (l : list A) (x y : A) :
  List.NoDup (map f l) -> In x l -> In y l -> f x = f y -> x = y.
Proof.
  induction l as [|z l IH]; [intros _ []|].
  cbn [map]. intros Hnd [->|Hx] [->|Hy] Hf; inversion Hnd as [|? ? Hz Hnd']; subst.
  - reflexivity.
  - exfalso. apply Hz. rewrite Hf. apply in_map, Hy.
  - exfalso. apply Hz. rewrite <- Hf. apply in_map, Hx.
  - apply IH; assumption.
Qed.

Lemma dict_by_NoDup {A : Type} (key : A -> string) (l : list A) (x : A) :
  List.NoDup (map key l) -> In x l -> Reconciler.dict_by key l !! key x = Some x.
Proof.
  intros Hnd Hin.
  destruct (proj2 (dict_by_is_Some key l (key x))) as [y Hy]; [eauto|].
  rewrite Hy. f_equal.
  apply dict_by_lookup in Hy as [Hy1 Hy2].
  apply (NoDup_map_eq key l); assumption.
Qed.

Lemma dict_by_agree (outbound : list OutboundTransaction.t)
    (acks : list TransactionSetValidation.t) :
  map sent_key outbound = map acked_key acks
  \/ (Permutation (map sent_key outbound) (map acked_key acks)
      /\ List.NoDup (map TransactionSetValidation.transaction_control_number acks)) ->
  maps_agree
    (Reconciler.dict_by OutboundTransaction.transaction_control_number outbound)
    (Reconciler.dict_by TransactionSetValidation.transaction_control_number acks).
Proof.
  intros [Hsame|[Hperm Hnd]].
  - apply fold_insert_agree; [exact Hsame|].
    intros k. rewrite !lookup_empty. exact I.
  - assert (Hnd' : List.NoDup
                     (map OutboundTransaction.transaction_control_number outbound)).
    { apply (Permutation_NoDup (l := map TransactionSetValidation.transaction_control_number
                                       acks)); [|exact Hnd].
      replace (map OutboundTransaction.transaction_control_number outbound)
        with (map fst (map sent_key outbound)) by (rewrite map_map; reflexivity).
      replace (map TransactionSetValidation.transaction_control_number acks)
        with (map fst (map acked_key acks)) by (rewrite map_map; reflexivity).
      apply Permutation_map. symmetry. exact Hperm. }
    assert (Hto : forall o, In o outbound ->
                    exists a, In a acks /\ acked_key a = sent_key o).
    { intros o Ho.
      assert (Hin : In (sent_key o) (map acked_key acks))
        by (apply (Permutation_in _ Hperm); apply in_map, Ho).
      apply in_map_iff in Hin as (a & Hkey & Ha). eauto. }
    assert (Hfrom : forall a, In a acks ->
                      exists o, In o outbound /\ sent_key o = acked_key a).
    { intros a Ha.
      assert (Hin : In (acked_key a) (map sent_key outbound))
        by (apply (Permutation_in _ (Permutation_sym Hperm)); apply in_map, Ha).
      apply in_map_iff in Hin as (o & Hkey & Ho). eauto. }
    intros k.
    destruct (Reconciler.dict_by OutboundTransaction.transaction_control_number
                outbound !! k) as [o|] eqn:Eo.
    + apply dict_by_lookup in Eo as [Ho <-].
      destruct (Hto o Ho) as (a & Ha & Hkey).
      unfold sent_key, acked_key in Hkey. injection Hkey as Hcn Hid.
      rewrite <- Hcn, (dict_by_NoDup _ acks a Hnd Ha). symmetry. exact Hid.
    + destruct (Reconciler.dict_by TransactionSetValidation.transaction_control_number
                  acks !! k) as [a|] eqn:Ea; [|exact I].
      apply dict_by_lookup in Ea as [Ha <-].
      destruct (Hfrom a Ha) as (o & Ho & Hkey).
      unfold sent_key, acked_key in Hkey. injection Hkey as Hcn Hid.
      rewrite <- Hcn, (dict_by_NoDup _ outbound o Hnd' Ho) in Eo. discriminate Eo.
Qed.

(** X21. An acknowledgment that answers what was sent is fully
    reconciled.  When the outbound transactions and the acknowledged
    transaction sets carry the same control numbers and transaction
    set IDs, either position by position (control numbers may then
    repeat) or in any order with pairwise distinct control numbers,
    and there is at least one, every record is MATCHED and the result
    is fully reconciled, whatever the other fields hold. *)
Theorem answered_group_is_reconciled (validation_result : ValidationResult.t)
    (outbound_group : OutboundFunctionalGroup.t) :
  let acks :=
    FunctionalGroupValidation.transaction_validations
      (ValidationResult.functional_group validation_result) in
  let outbound := OutboundFunctionalGroup.transactions outbound_group in
  acks <> [] ->
  map sent_key outbound = map acked_key acks
  \/ (Permutation (map sent_key outbound) (map acked_key acks)
      /\ List.NoDup (map TransactionSetValidation.transaction_control_number acks)) ->
  exists r,
    Reconciler.reconcile validation_result outbound_group = Ok r
    /\ ReconciliationResult.is_fully_reconciled r = true
    /\ Forall (fun tr => TransactionReconciliation.status tr
                         = ReconciliationStatus.MATCHED)
         (FunctionalGroupReconciliation.transaction_reconciliations
            (ReconciliationResult.functional_group_reconciliation r)).
Proof.
  intros acks outbound Hne Hanswer.
  pose proof (dict_by_agree outbound acks Hanswer) as Hagree.
  destruct (reconcile_functional_group_unfold
              (ValidationResult.functional_group validation_result) outbound_group)
    as (recs & Hr & Hf & Hin).
  unfold Reconciler.reconcile. rewrite Hr. cbn [bind].
  eexists. split; [reflexivity|].
  cbn [ReconciliationResult.is_fully_reconciled
       ReconciliationResult.functional_group_reconciliation
       FunctionalGroupReconciliation.transaction_reconciliations].
  fold acks outbound in Hf, Hin.
  set (outbound_map := Reconciler.dict_by
                         OutboundTransaction.transaction_control_number outbound) in *.
  set (ack_map := Reconciler.dict_by
                    TransactionSetValidation.transaction_control_number acks) in *.
  set (keys := sorted (elements _)) in *.
  assert (Hall : Forall (fun tr => TransactionReconciliation.status tr
                                   = ReconciliationStatus.MATCHED) recs).
  { clear Hin Hr. induction Hf as [|k tr keys' recs' Hc _ IH]; [constructor|].
    constructor; [|exact IH].
    unfold classified in Hc. specialize (Hagree k).
    destruct (outbound_map !! k) as [o|], (ack_map !! k) as [a|];
      try contradiction.
    destruct (decide _) as [_|E]; [|contradiction]. rewrite Hc. reflexivity. }
  split; [|exact Hall].
  assert (Hrecs : recs <> []).
  { destruct acks as [|a acks'] eqn:Ea; [contradiction|].
    assert (Hk : In (TransactionSetValidation.transaction_control_number a) keys).
    { apply Hin. right. apply dict_by_is_Some. exists a. split; [left|]; reflexivity. }
    intros ->. inversion Hf as [Hk0|]; subst. rewrite <- Hk0 in Hk. destruct Hk. }
  unfold FunctionalGroupReconciliation.is_fully_reconciled,
    FunctionalGroupReconciliation.matched_count,
    FunctionalGroupReconciliation.total_count.
  cbn [FunctionalGroupReconciliation.transaction_reconciliations].
  rewrite count_if_length.
  apply andb_true_iff. split.
  - apply Nat.ltb_lt. destruct recs; [contradiction|cbn; lia].
  - apply Nat.eqb_eq. apply filter_all_length, forallb_forall.
    intros tr Htr. apply bool_decide_eq_true.
    rewrite List.Forall_forall in Hall. apply Hall, Htr.
Qed.

Lemma answered_group_is_reconciled_witness :
  let acked id cn :=
    TransactionSetValidation.mk id cn TransactionStatus.REJECTED "R" 0 [] [] in
  let sent id cn := OutboundTransaction.mk id cn "7" "PO" in
  let fg :=
    FunctionalGroupValidation.mk "PO" "1" FunctionalGroupStatus.REJECTED "R" 2 2 0
      [acked "850" "0002"; acked "855" "0001"] [] in
  exists r,
    Reconciler.reconcile (ValidationResult.mk "000000001" "S" "R" fg false)
      (OutboundFunctionalGroup.mk "PO" "7" [sent "855" "0001"; sent "850" "0002"])
    = Ok r
    /\ ReconciliationResult.is_fully_reconciled r = true.
Proof.
  cbv zeta.
  destruct (answered_group_is_reconciled
    (ValidationResult.mk "000000001" "S" "R"
       (FunctionalGroupValidation.mk "PO" "1" FunctionalGroupStatus.REJECTED "R" 2 2 0
          [TransactionSetValidation.mk "850" "0002" TransactionStatus.REJECTED "R" 0 [] [];
           TransactionSetValidation.mk "855" "0001" TransactionStatus.REJECTED "R" 0 [] []]
          []) false)
    (OutboundFunctionalGroup.mk "PO" "7"
       [OutboundTransaction.mk "855" "0001" "7" "PO";
        OutboundTransaction.mk "850" "0002" "7" "PO"]))
    as (r & Hr & Hfull & _).
  - discriminate.
  - right. split; [apply perm_swap|].
    repeat constructor; cbn; intuition discriminate.
  - exists r. split; [exact Hr|exact Hfull].
Defined.

(** Neither condition can be dropped: with a repeated control number
    the later entry of each side is the one compared, so the
    acknowledgments 850/0002, 855/0002 against the same transactions
    sent in the other order give one CONTROL_NUMBER_MISMATCH record. *)
Example reordered_repeats_mismatch :
  let acked id cn :=
    TransactionSetValidation.mk id cn TransactionStatus.ACCEPTED "A" 0 [] [] in
  let sent id cn := OutboundTransaction.mk id cn "1" "PO" in
  let fg :=
    FunctionalGroupValidation.mk "PO" "1" FunctionalGroupStatus.ACCEPTED "A" 2 2 2
      [acked "850" "0002"; acked "855" "0002"] [] in
  exists r,
    Reconciler.reconcile (ValidationResult.mk "000000001" "S" "R" fg true)
      (OutboundFunctionalGroup.mk "PO" "1" [sent "855" "0002"; sent "850" "0002"])
    = Ok r
    /\ map TransactionReconciliation.status
         (FunctionalGroupReconciliation.transaction_reconciliations
            (ReconciliationResult.functional_group_reconciliation r))
       = [ReconciliationStatus.CONTROL_NUMBER_MISMATCH]
    /\ ReconciliationResult.is_fully_reconciled r = false.
Proof. eexists. split; [vm_compute; reflexivity|]. split; reflexivity. Qed.

(** X22. [reconcile] never fails, and the identifiers of the outbound
    group play no part in it: the group control number and functional
    identifier of the result are those of the acknowledgment, and an
    outbound group with the same transactions under other identifiers
    gives the same records, flag and summary.  A differing group
    control number is logged, not reported in the result.  The flag of
    the result is that of its group reconciliation. *)
Theorem reconcile_ignores_group_identifiers (validation_result : ValidationResult.t)
    (outbound_group : OutboundFunctionalGroup.t)
    (functional_id_code group_control_number : string) :
  let fg_validation := ValidationResult.functional_group validation_result in
  let other :=
    OutboundFunctionalGroup.mk functional_id_code group_control_number
      (OutboundFunctionalGroup.transactions outbound_group) in
  exists r r',
    Reconciler.reconcile validation_result outbound_group = Ok r
    /\ Reconciler.reconcile validation_result other = Ok r'
    /\ FunctionalGroupReconciliation.transaction_reconciliations
         (ReconciliationResult.functional_group_reconciliation r')
       = FunctionalGroupReconciliation.transaction_reconciliations
           (ReconciliationResult.functional_group_reconciliation r)
    /\ ReconciliationResult.is_fully_reconciled r'
       = ReconciliationResult.is_fully_reconciled r
    /\ ReconciliationResult.summary r' = ReconciliationResult.summary r
    /\ FunctionalGroupReconciliation.group_control_number
         (ReconciliationResult.functional_group_reconciliation r)
       = FunctionalGroupValidation.group_control_number fg_validation
    /\ FunctionalGroupReconciliation.functional_id_code
         (ReconciliationResult.functional_group_reconciliation r)
       = FunctionalGroupValidation.functional_id_code fg_validation
    /\ FunctionalGroupReconciliation.outbound_group
         (ReconciliationResult.functional_group_reconciliation r)
       = Some outbound_group
    /\ ReconciliationResult.is_fully_reconciled r
       = FunctionalGroupReconciliation.is_fully_reconciled
           (ReconciliationResult.functional_group_reconciliation r).
Proof.
  intros fg_validation other.
  destruct (reconcile_functional_group_unfold fg_validation outbound_group)
    as (recs & Hr & _).
  destruct (reconcile_functional_group_unfold fg_validation other)
    as (recs' & Hr' & _).
  assert (Hsame : recs' = recs).
  { unfold Reconciler.reconcile_functional_group in Hr, Hr'.
    cbn [OutboundFunctionalGroup.transactions other] in Hr'.
    destruct (mapM _ _) as [l|e]; cbn [bind] in Hr, Hr'; [|discriminate].
    injection Hr as <-. injection Hr' as <-. reflexivity. }
  subst recs'.
  unfold Reconciler.reconcile. fold fg_validation. rewrite Hr, Hr'. cbn [bind].
  eexists _, _. split; [reflexivity|]. split; [reflexivity|].
  cbn. repeat split.
Qed.

End ReconciliationMore.

(** ** Missing anchors *)

Section MissingAnchors.

Import ValidationPipeline.

Local Open Scope string_scope.
Local Open Scope list_scope.

Lemma pipeline_raises_only
    (parser_func : SegmentParser.SegmentType -> list text -> Result Segment)
    (error_mapper : ErrorCodeMapper.t) (content : text) (e : Exception) :
  pipeline parser_func error_mapper content = Raise e ->
  e = InvalidISASegmentError \/ e = DelimiterDetectionError
  \/ e = TokenizationError \/ e = missing_required_segments.
Proof.
  unfold pipeline, run_validation_pipeline.
  destruct (DelimiterDetector.detect_from_file_content (DelimiterDetector.init None)
              content) as [d|e0] eqn:Hd; cbn [bind].
  - pose proof (detect_not_blank _ _ _ Hd) as Hb.
    rewrite tokenize_content_unfold, Hb. cbn [bind].
    intros H.
    match type of H with
    | (do parsed <- ?m in _) = _ => destruct m as [parsed|e1] eqn:Hm
    end; cbn [bind] in H.
    + apply validate_parsed_segments_errors in H. tauto.
    + injection H as <-. right. right. left.
      apply (mapM_errors _ (fun e => e = TokenizationError) _ _
               (fun x e' =>
                  parse_segment_by_id_raises parser_func (SegmentParser.init d) x e')
               Hm).
  - intros H; injection H as <-.
    rewrite detect_from_file_content_unfold in Hd.
    destruct (startswith (strip content) (lit "ISA")).
    + apply detect_from_isa_errors in Hd. tauto.
    + injection Hd as <-. tauto.
Qed.

(** C9, as the code has it.  When the parsed segments hold no ISA, or
    no AK1, or no AK9, the pipeline returns no result and raises the
    built-in [ValueError] with the text Missing required segments
    (ISA, AK1, or AK9): from the parsed segments on, and for every
    content whose detection, tokenization and parsing give such
    segments.  That error is not [MissingSegmentError], which the
    pipeline never raises.  Content that does not begin with ISA does
    not reach the scan: detection refuses it with
    [InvalidISASegmentError]. *)
Theorem missing_anchor_is_ValueError :
  (forall (validator : Validator997.t) (segs : list Segment),
     (forall s, ~ In (ISA s) segs) \/ (forall s, ~ In (AK1 s) segs)
     \/ (forall s, ~ In (AK9 s) segs) ->
     validate_parsed_segments validator segs
     = Raise (ValueError "Missing required segments (ISA, AK1, or AK9)")
     /\ (forall parse_segment_by_id content delimiters segments,
           DelimiterDetector.detect_from_file_content (DelimiterDetector.init None)
             content = Ok delimiters ->
           EDITokenizer.tokenize_content (EDITokenizer.init None None) content
             (Some delimiters) = Ok segments ->
           mapM (parse_segment_by_id delimiters)
             (filter (fun segment => negb (is_empty (strip segment))) segments)
           = Ok segs ->
           run_validation_pipeline parse_segment_by_id
             (Validator997.error_mapper validator) content
           = Raise (ValueError "Missing required segments (ISA, AK1, or AK9)")))
  /\ ValueError "Missing required segments (ISA, AK1, or AK9)" <> MissingSegmentError
  /\ (forall parser_func error_mapper content,
        pipeline parser_func error_mapper content <> Raise MissingSegmentError)
  /\ (forall parse_segment_by_id error_mapper content,
        startswith (strip content) (lit "ISA") = false ->
        run_validation_pipeline parse_segment_by_id error_mapper content
        = Raise InvalidISASegmentError).
Proof.
  split; [|split; [discriminate|split]].
  - intros validator segs Hmissing.
    apply (missing_anchor_at_end validator segs Hmissing).
  - intros parser_func error_mapper content H.
    apply pipeline_raises_only in H as [H|[H|[H|H]]]; discriminate H.
  - intros parse error_mapper content Hs.
    unfold run_validation_pipeline.
    rewrite detect_from_file_content_unfold, Hs. reflexivity.
Qed.

(** A parser for sample documents: it builds the ISA and AK1 records
    from the elements and refuses the other segment types. *)
Definition sample_parser (segment_type : SegmentParser.SegmentType)
    (elements : list text) : Result Segment :=
  let element n := string_of_list_ascii (Pydantic.trim (nth n elements [])) in
  match segment_type with
  | SegmentParser.ISASegmentT =>
      Ok (ISA (ISASegment.mk (element 1) (element 2) (element 3) (element 4)
                 (element 5) (element 6) (element 7) (element 8) (element 9)
                 (element 10) (element 11) (element 12) (element 13) (element 14)
                 (element 15) (element 16)))
  | SegmentParser.AK1SegmentT => Ok (AK1 (AK1Segment.mk (element 1) (element 2) None))
  | _ => Raise TokenizationError
  end.

Lemma missing_anchor_is_ValueError_witness :
  let isa :=
    ISASegment.mk "00" "" "00" "" "ZZ" "SENDER" "ZZ" "RECEIVER" "230101" "1200"
      "U" "00401" "000000001" "0" "P" ">" in
  (forall s, ~ In (AK9 s) [ISA isa; AK1 (AK1Segment.mk "FA" "1" None)])
  /\ validate_parsed_segments (Validator997.mk (ErrorCodeMapper.mk ∅))
       [ISA isa; AK1 (AK1Segment.mk "FA" "1" None)]
     = Raise (ValueError "Missing required segments (ISA, AK1, or AK9)")
  /\ pipeline sample_parser (ErrorCodeMapper.mk ∅)
       (lit "ISA*00*          *00*          *ZZ*SENDER         *ZZ*RECEIVER       *230101*1200*U*00401*000000001*0*P*>~AK1*FA*1~")
     = Raise (ValueError "Missing required segments (ISA, AK1, or AK9)").
Proof.
  cbv zeta.
  assert (Hno : forall s,
    ~ In (AK9 s)
        [ISA (ISASegment.mk "00" "" "00" "" "ZZ" "SENDER" "ZZ" "RECEIVER" "230101"
                "1200" "U" "00401" "000000001" "0" "P" ">");
         AK1 (AK1Segment.mk "FA" "1" None)]).
  { intros s [H|[H|[]]]; discriminate H. }
  split; [exact Hno|].
  destruct missing_anchor_is_ValueError as [Hmissing _].
  destruct (Hmissing (Validator997.mk (ErrorCodeMapper.mk ∅)) _
              (or_intror (or_intror Hno))) as [Hraise Hpipeline].
  split; [exact Hraise|].
  apply (Hpipeline
           (fun delimiters =>
              SegmentParser.parse_segment_by_id sample_parser
                (SegmentParser.init delimiters))
           _ (Delimiters.mk "*" "~" ">" None)
           [lit "ISA*00*          *00*          *ZZ*SENDER         *ZZ*RECEIVER       *230101*1200*U*00401*000000001*0*P*>";
            lit "AK1*FA*1"]);
    vm_compute; reflexivity.
Defined.

(** C9 as stated fails.  A document with ISA and AK1 and no AK9 makes
    the pipeline raise the built-in [ValueError], not
    [MissingSegmentError]; and a document without ISA, here AK1 and
    AK9 alone, is refused by delimiter detection with
    [InvalidISASegmentError] before any segment is parsed. *)
Lemma missing_anchor_is_not_MissingSegmentError :
  pipeline sample_parser (ErrorCodeMapper.mk ∅)
    (lit "ISA*00*          *00*          *ZZ*SENDER         *ZZ*RECEIVER       *230101*1200*U*00401*000000001*0*P*>~AK1*FA*1~")
  = Raise (ValueError "Missing required segments (ISA, AK1, or AK9)")
  /\ ValueError "Missing required segments (ISA, AK1, or AK9)" <> MissingSegmentError
  /\ pipeline sample_parser (ErrorCodeMapper.mk ∅) (lit "AK1*FA*1~AK9*A*1*1*1~")
     = Raise InvalidISASegmentError
  /\ InvalidISASegmentError <> MissingSegmentError.
Proof.
  split; [vm_compute; reflexivity|].
  split; [discriminate|]. split; [vm_compute; reflexivity|discriminate].
Qed.

End MissingAnchors.
